(** * Vinegar: the launch lifecycle of [cmd/vinegar/binary.go]

    A shallow embedding of the methods of [Binary] that bring the wineprefix
    up, build the Wine command, start Roblox, find and follow its log and
    hold the signals, together with the properties of the launch lifecycle
    that are stated about them.

    Go strings are byte strings: they are [string] here, one [ascii] per
    byte.  A Go [error] value is [option error] ([None] is [nil]).  Calls
    into other packages (wine, splash, fsnotify, tail, os/exec ...) are
    answered by the fields of a record of outcomes, and every observable
    call is recorded, in program order, in a log of events. *)

From Stdlib Require Import String Ascii List ZArith Bool Arith Lia.
Import ListNotations.

Local Open Scope string_scope.
Local Open Scope list_scope.

(** ** The functions of Go's [strings] package that the file calls *)

Module GoStrings.

(** [strings.HasPrefix(s, prefix)]. *)
Fixpoint HasPrefix (s prefix : string) {struct prefix} : bool :=
  match prefix with
  | EmptyString => true
  | String p prefix' =>
      match s with
      | EmptyString => false
      | String c s' => Ascii.eqb c p && HasPrefix s' prefix'
      end
  end.

(** [strings.Contains(s, substr)]: [substr] starts at some offset of [s]. *)
Fixpoint Contains (s substr : string) : bool :=
  HasPrefix s substr ||
  match s with
  | EmptyString => false
  | String _ s' => Contains s' substr
  end.

(** Puts one more byte in front of the first piece of a split. *)
Definition push_byte (c : ascii) (pieces : list string) : list string :=
  match pieces with
  | [] => [String c EmptyString]
  | p :: ps => String c p :: ps
  end.

(** The pieces of [s] between the occurrences of a non-empty [sep], read
    from the left; [skip] counts the bytes of an occurrence of [sep] that
    are still to be stepped over. *)
Fixpoint split_from (sep s : string) (skip : nat) : list string :=
  match s with
  | EmptyString => [EmptyString]
  | String c s' =>
      match skip with
      | S k => split_from sep s' k
      | O =>
          if HasPrefix s sep
          then EmptyString :: split_from sep s' (String.length sep - 1)
          else push_byte c (split_from sep s' 0)
      end
  end.

(** The bytes of [s], one string each. *)
Fixpoint explode (s : string) : list string :=
  match s with
  | EmptyString => []
  | String c s' => String c EmptyString :: explode s'
  end.

(** [strings.Split(s, sep)].  Both calls of the file pass a separator of
    one byte.  With an empty separator Go cuts after each UTF-8 sequence,
    which on ASCII text is after each byte. *)
Definition Split (s sep : string) : list string :=
  match sep with
  | EmptyString => explode s
  | String _ _ => split_from sep s 0
  end.

(** [strings.Join(elems, sep)]. *)
Definition Join (elems : list string) (sep : string) : string :=
  String.concat sep elems.

(** The value of a byte. *)
Definition byte (c : ascii) : Z := Z.of_nat (nat_of_ascii c).

(** [utf8.RuneError], the rune of a byte that starts no valid encoding. *)
Definition RuneError : Z := 65533.

(** A continuation byte of UTF-8: 0x80 to 0xBF. *)
Definition continuation (b : Z) : bool := (128 <=? b)%Z && (b <=? 191)%Z.

(** [utf8.DecodeRuneInString(s)], which is also what [for range s] reads:
    the rune at the head of [s] and the number of its bytes.  The first
    byte gives the length (0xC2-0xDF two bytes, 0xE0-0xEF three, 0xF0-0xF4
    four) and the range the second byte has to be in (narrower after 0xE0,
    0xED, 0xF0 and 0xF4, which shuts out the overlong forms, the surrogates
    and what is above U+10FFFF); whatever is not such an encoding is
    [RuneError] with one byte. *)
Definition DecodeRune (s : string) : Z * nat :=
  match s with
  | EmptyString => (RuneError, 0%nat)
  | String c0 t =>
      let b0 := byte c0 in
      if (b0 <? 128)%Z then (b0, 1%nat)
      else if (b0 <? 194)%Z || (244 <? b0)%Z then (RuneError, 1%nat)
      else
        let lo := if (b0 =? 224)%Z then 160%Z else if (b0 =? 240)%Z then 144%Z else 128%Z in
        let hi := if (b0 =? 237)%Z then 159%Z else if (b0 =? 244)%Z then 143%Z else 191%Z in
        match t with
        | EmptyString => (RuneError, 1%nat)
        | String c1 t1 =>
            let b1 := byte c1 in
            if negb ((lo <=? b1)%Z && (b1 <=? hi)%Z) then (RuneError, 1%nat)
            else if (b0 <? 224)%Z
            then (Z.lor (Z.shiftl (Z.land b0 31) 6) (Z.land b1 63), 2%nat)
            else
              match t1 with
              | EmptyString => (RuneError, 1%nat)
              | String c2 t2 =>
                  let b2 := byte c2 in
                  if negb (continuation b2) then (RuneError, 1%nat)
                  else if (b0 <? 240)%Z
                  then (Z.lor (Z.shiftl (Z.land b0 15) 12)
                          (Z.lor (Z.shiftl (Z.land b1 63) 6) (Z.land b2 63)),
                        3%nat)
                  else
                    match t2 with
                    | EmptyString => (RuneError, 1%nat)
                    | String c3 _ =>
                        let b3 := byte c3 in
                        if negb (continuation b3) then (RuneError, 1%nat)
                        else (Z.lor (Z.shiftl (Z.land b0 7) 18)
                                (Z.lor (Z.shiftl (Z.land b1 63) 12)
                                   (Z.lor (Z.shiftl (Z.land b2 63) 6) (Z.land b3 63))),
                              4%nat)
                    end
              end
        end
  end.

(** [unicode.IsSpace(r)]: in Latin-1 the six ASCII spaces, U+0085 and
    U+00A0; above it the table [White_Space]. *)
Definition IsSpace (r : Z) : bool :=
  if (r <=? 255)%Z
  then ((9 <=? r)%Z && (r <=? 13)%Z) || (r =? 32)%Z || (r =? 133)%Z || (r =? 160)%Z
  else (r =? 5760)%Z || ((8192 <=? r)%Z && (r <=? 8202)%Z)
       || (r =? 8232)%Z || (r =? 8233)%Z || (r =? 8239)%Z || (r =? 8287)%Z
       || (r =? 12288)%Z.

(** The runes of [s], each with its bytes; [skip] counts the bytes of the
    rune read last that are still to be stepped over. *)
Fixpoint runes_from (s : string) (skip : nat) : list (Z * string) :=
  match s with
  | EmptyString => []
  | String _ s' =>
      match skip with
      | S k => runes_from s' k
      | O =>
          let (r, width) := DecodeRune s in
          (r, substring 0 width s) :: runes_from s' (width - 1)
      end
  end.

Definition runes (s : string) : list (Z * string) := runes_from s 0.

(** The loop of [strings.FieldsFunc]: [cur] holds the field being read,
    [None] between two fields. *)
Fixpoint fields_runes (f : Z -> bool) (rs : list (Z * string)) (cur : option string)
  : list string :=
  match rs with
  | [] =>
      match cur with
      | Some field => [field]
      | None => []
      end
  | (r, bytes) :: rest =>
      if f r
      then match cur with
           | Some field => field :: fields_runes f rest None
           | None => fields_runes f rest None
           end
      else fields_runes f rest
             (Some (match cur with
                    | Some field => (field ++ bytes)%string
                    | None => bytes
                    end))
  end.

(** [strings.FieldsFunc(s, f)]: the maximal runs of runes that [f] rejects. *)
Definition FieldsFunc (s : string) (f : Z -> bool) : list string :=
  fields_runes f (runes s) None.

(** [strings.Fields(s)]: [s] split around its runs of white space, as
    [unicode.IsSpace] defines it. *)
Definition Fields (s : string) : list string := FieldsFunc s IsSpace.

End GoStrings.

Import GoStrings.

(** ** Errors, signals and the event log *)

(** An [error]: one made by a callee, or [fmt.Errorf("<context>: %w", err)]. *)
Inductive error : Type :=
| ErrNew (msg : string)
| Errorf (context : string) (wrapped : error).

(** [err.Error()]. *)
Fixpoint Error (e : error) : string :=
  match e with
  | ErrNew msg => msg
  | Errorf context wrapped => context ++ ": " ++ Error wrapped
  end.

(** [errors.Is(err, target)], for errors that have no method [Is]: some
    error of the chain of [err] is the value [target].  [same e] says that
    the value [e] is [target] under the [==] of Go, which compares the
    identity of the values, not their text, and never holds for a target
    whose type is not comparable. *)
Fixpoint errors_Is (same : error -> bool) (err : error) : bool :=
  same err ||
  match err with
  | ErrNew _ => false
  | Errorf _ wrapped => errors_Is same wrapped
  end.

(** [== dbus.ErrMsgNoObject]: the sentinel is a [dbus.Error], a struct that
    holds a slice, so its type is not comparable and no value is the same
    as it for [errors.Is]. *)
Definition same_as_ErrMsgNoObject (e : error) : bool := false.

Inductive Signal : Type := SIGINT | SIGTERM | SIGUSR1 | SIGHUP | SIGKILL.

Definition Signal_eqb (a b : Signal) : bool :=
  match a, b with
  | SIGINT, SIGINT | SIGTERM, SIGTERM | SIGUSR1, SIGUSR1
  | SIGHUP, SIGHUP | SIGKILL, SIGKILL => true
  | _, _ => false
  end.

(** [time.Duration] counts nanoseconds. *)
Definition Second : Z := 1000000000.
Definition LogTimeout : Z := 6 * Second.
Definition DieTimeout : Z := 3 * Second.

Definition DialogNoAVX : string :=
  "Warning: Your CPU does not support AVX. While some people may be able to run without it, most are not able to. VinegarHQ cannot provide support for your installation. Continue?".

(** [roblox.BinaryType] has the two values the constructor [NewBinary]
    switches over. *)
Inductive BinaryType : Type := Player | Studio.

(** [exec.Cmd], as far as [Command] writes it. *)
Record Cmd : Type := { Path : string; Args : list string }.

Inductive Level : Type := LInfo | LWarn | LError.

(** The value of a [slog] attribute. *)
Inductive value : Type :=
| VStr (s : string)
| VInt (z : Z)
| VErr (e : option error)
| VSig (s : Signal)
| VCmd (c : Cmd).

Inductive goroutine : Type :=
| GoMutexerWait        (* go func() { mutexer.Wait() ... }() *)
| GoSignalSupervisor   (* go func() { s := <-c ... }() *)
| GoPostLaunch         (* go func() { ... RobloxLogFile ... b.Tail(lf) }() *)
| GoSleepThenKill (d : Z) (s : Signal).
                       (* go func() { time.Sleep(d); syscall.Kill(getpid, s) }() *)

(** What the program does to the world, in program order. *)
Inductive event : Type :=
| Slog (l : Level) (msg : string) (attrs : list (string * value))
| OsStat (path : string)
| SplashDialog (msg : string) (user : bool)
| SplashSetMessage (msg : string)
| SplashSetDesc (desc : string)
| SplashClose
| PrefixInit
| PrefixSetDPI (dpi : Z)
| CallInstallWebView
| CallSetup
| ActivityConnect
| ActivityClose
| ActivityHandleRobloxLog (line : string)
| MutexerStart (exe : string)
| SignalNotify (sigs : list Signal)
| SignalStop
| ProcessKill (pid : Z)
| Go (g : goroutine)
| CmdRun (c : Cmd)
| OsMkdirAll (dir : string) (perm : Z)
| FsnotifyNewWatcher
| WatcherAdd (dir : string)
| WatcherClose
| TimeNewTimer (d : Z)
| TailFile (name : string)
| FprintlnStderr (text : string)
| DBusConnectSessionBus
| DBusCall (method : string) (flags : Z) (pid : Z).

(** ** The receiver and the state the methods work on *)

(** [config.Binary] and [config.Config], the fields read or written here.
    [b.Config] points into [b.GlobalConfig]; only [MultipleInstances] is
    read through the latter. *)
Record ConfigBinary : Type := {
  Channel : string;
  Launcher : string;
  DiscordRPC : bool;
  GameMode : bool
}.

Record Config : Type := { MultipleInstances : bool }.

Record Binary : Type := {
  GlobalConfig : Config;
  Config_ : ConfigBinary;
  Alias : string;
  Name : string;
  Dir : string;
  Type_ : BinaryType
}.

Definition set_Channel (c : string) (b : Binary) : Binary :=
  {| GlobalConfig := GlobalConfig b;
     Config_ := {| Channel := c;
                   Launcher := Launcher (Config_ b);
                   DiscordRPC := DiscordRPC (Config_ b);
                   GameMode := GameMode (Config_ b) |};
     Alias := Alias b; Name := Name b; Dir := Dir b; Type_ := Type_ b |}.

Definition set_DiscordRPC (v : bool) (b : Binary) : Binary :=
  {| GlobalConfig := GlobalConfig b;
     Config_ := {| Channel := Channel (Config_ b);
                   Launcher := Launcher (Config_ b);
                   DiscordRPC := v;
                   GameMode := GameMode (Config_ b) |};
     Alias := Alias b; Name := Name b; Dir := Dir b; Type_ := Type_ b |}.

(** The state: the receiver [*b], the directories that exist, and the
    fsnotify watcher ([None]: no open watcher; [Some ws]: an open watcher
    subscribed to the directories [ws]). *)
Record State : Type := {
  this : Binary;
  dirs : list string;
  watcher : option (list string)
}.

Definition with_this (b : Binary) (st : State) : State :=
  {| this := b; dirs := dirs st; watcher := watcher st |}.

Definition with_dirs (d : list string) (st : State) : State :=
  {| this := this st; dirs := d; watcher := watcher st |}.

Definition with_watcher (w : option (list string)) (st : State) : State :=
  {| this := this st; dirs := dirs st; watcher := w |}.

(** ** Results, and a writer-and-state monad for the methods *)

(** A Go pair [(T, error)] of which exactly one part is meaningful. *)
Inductive result (A : Type) : Type :=
| Ok (a : A)
| Err (e : error).

Arguments Ok {A} a.
Arguments Err {A} e.

(** A computation reads and writes the [State] and appends to the log. *)
Definition M (A : Type) : Type := State -> A * State * list event.

Definition ret {A : Type} (a : A) : M A := fun st => (a, st, []).

Definition bind {A B : Type} (m : M A) (f : A -> M B) : M B :=
  fun st =>
    let '(a, st1, l1) := m st in
    let '(b, st2, l2) := f a st1 in
    (b, st2, l1 ++ l2).

Declare Scope go_scope.
Delimit Scope go_scope with go.
Notation "x <- m ;; k" := (bind m (fun x => k))
  (at level 61, m at next level, right associativity) : go_scope.
Notation "m ;; k" := (bind m (fun _ => k))
  (at level 61, right associativity) : go_scope.
Local Open Scope go_scope.

Definition emit (e : event) : M unit := fun st => (tt, st, [e]).
Definition slog (l : Level) (msg : string) (attrs : list (string * value)) : M unit :=
  emit (Slog l msg attrs).
Definition get_this : M Binary := fun st => (this st, st, []).
Definition modify (f : State -> State) : M unit := fun st => (tt, f st, []).
Definition modify_this (f : Binary -> Binary) : M unit :=
  modify (fun st => with_this (f (this st)) st).

(** A method of [*Binary] that is defined in another file of the package. *)
Definition call_method (e : event) (f : Binary -> Binary * option error)
  : M (option error) :=
  fun st => let (b, err) := f (this st) in (err, with_this b st, [e]).

Definition value_of {A : Type} (r : A * State * list event) : A := fst (fst r).
Definition state_of {A : Type} (r : A * State * list event) : State := snd (fst r).
Definition log_of {A : Type} (r : A * State * list event) : list event := snd r.

(** [for _, x := range l { f(x) }]. *)
Fixpoint for_each {A : Type} (f : A -> M unit) (l : list A) : M unit :=
  match l with
  | [] => ret tt
  | x :: rest => f x ;; for_each f rest
  end.

(** [filepath.Join]: the non-empty elements, joined by a slash.  Go then
    cleans the path ([filepath.Clean]); that step is left out, a path is
    only ever handed on to the operating system. *)
Definition filepath_Join (elem : list string) : string :=
  Join (filter (fun e => negb (String.eqb e "")) elem) "/".

(** ** fsnotify, os/exec and the outcomes of the calls into other packages *)

Module fsnotify.
(** [Op] is a bit mask. *)
Definition Create : Z := 1.
Definition Write : Z := 2.
Definition Remove : Z := 4.
Definition Rename : Z := 8.
Definition Chmod : Z := 16.

Record Event : Type := { Name : string; Op : Z }.

(** [e.Has(op)]. *)
Definition Has (e : Event) (op : Z) : bool :=
  negb (Z.land (Op e) op =? 0)%Z.
End fsnotify.

(** What one round of the [select] of [RobloxLogFile] received, when it was
    not the timer. *)
Inductive selected : Type :=
| SelEvent (e : fsnotify.Event)   (* case e := <-w.Events *)
| SelError (err : error).         (* case err := <-w.Errors *)

(** The conversion [int32(x)] of a Go [int]: the low 32 bits, signed. *)
Definition int32 (x : Z) : Z :=
  ((x + 2147483648) mod 4294967296 - 2147483648)%Z.

(** [syscall.WaitStatus], as [ExitCode] reads it. *)
Inductive WaitStatus : Type :=
| Exited (code : Z)
| Signaled (s : Signal).

(** [ProcessState.ExitCode()] of package os: -1 for a nil receiver (the process has
    not exited) and for a process ended by a signal. *)
Definition ExitCode (p : option WaitStatus) : Z :=
  match p with
  | None => -1
  | Some (Exited code) => code
  | Some (Signaled _) => -1
  end.

(** [tail.Config], the two fields that decide how the file is opened. *)
Record tail_Config : Type := {
  Follow : bool;
  MustExist : bool
}.

(** [tail.TailFile(name, config)] of the library: the lines that come on
    [Lines], or the error of the call.  The call opens the file itself, and
    can return the error of the opening, under [MustExist] only; without
    it the file is opened by the goroutine that feeds [Lines], which waits
    for a missing file to appear and gives up on any other failure, so that
    a file that cannot be opened sends no line and the call gives no error.
    [open] is what opening the file gives, [lines] what an open file
    sends. *)
Definition tail_TailFile (open : string -> option error) (lines : string -> list string)
    (config : tail_Config) (name : string) : result (list string) :=
  match open name with
  | Some err => if MustExist config then Err err else Ok []
  | None => Ok (lines name)
  end.

(** The answers of everything outside [binary.go] during one run. *)
Record World : Type := {
  (* package roblox: methods of BinaryType *)
  Type_String : BinaryType -> string;
  Type_Executable : BinaryType -> string;
  (* package-level variables of package main and sysinfo *)
  FirstRun : bool;
  BinPrefix : string;
  CPU_AVX : bool;
  (* os *)
  Stat : string -> option error;
  MkdirAll : string -> option error;
  (* wine.Prefix *)
  Prefix_Dir : string;
  Prefix_Init : option error;
  Prefix_SetDPI : Z -> option error;
  Prefix_Wine : string -> list string -> Cmd;
  Prefix_AppDataDir : string * option error;
  (* methods of Binary defined in other files *)
  InstallWebView : Binary -> Binary * option error;
  Setup : Binary -> Binary * option error;
  (* config.Binary: LauncherPath resolves the launcher that is configured *)
  LauncherPath : string -> string * option error;
  (* bloxstraprpc.Activity *)
  Activity_Connect : option error;
  Activity_HandleRobloxLog : string -> option error;
  (* the robloxmutexer command *)
  Mutexer_Start : option error;
  (* cmd.Run(): its error, cmd.Process (the pid, once started) and
     cmd.ProcessState after it *)
  Run_err : option error;
  Process : option Z;
  ProcessState : option WaitStatus;
  (* fsnotify: the rounds of the select before the timer fires *)
  NewWatcher : option error;
  Watcher_Add : string -> option error;
  Selected : list selected;
  (* tail: what opening the file gives, and the lines sent until t.Lines
     is closed *)
  Tail_Open : string -> option error;
  Tail_Lines : string -> list string;
  (* dbus *)
  ConnectSessionBus : option error;
  Call_Err : option error
}.

(** The call of [Tail]: [tail.TailFile(name, tail.Config{Follow: true})].
    [MustExist] is not set there, and a field that is not set is false. *)
Definition Tail_TailFile (w : World) (name : string) : result (list string) :=
  tail_TailFile (Tail_Open w) (Tail_Lines w) {| Follow := true; MustExist := false |} name.

(** ** The methods of [binary.go] *)

Definition ShutdownMarker : string := "[FLog::SingleSurfaceApp] shutDown:".

Definition is_Player (t : BinaryType) : bool :=
  match t with Player => true | Studio => false end.

(** The first statement of [Command]: a [roblox-studio:1...] invocation is
    passed on as [-protocolString <uri>].  The index [args[0]] is in range,
    the joined arguments having a non-empty prefix. *)
Definition protocol_args (args : list string) : list string :=
  if HasPrefix (Join args " ") "roblox-studio:1"
  then ["-protocolString"; nth 0 args ""]
  else args.

Section Methods.

Variable w : World.

(** [func (b *Binary) Init() error] *)
Definition Init : M (option error) :=
  let path := filepath_Join [Prefix_Dir w; "drive_c"; "windows"] in
  emit (OsStat path) ;;
  let firstRun := match Stat w path with Some _ => true | None => false end in
  (if firstRun && negb (CPU_AVX w)
   then emit (SplashDialog DialogNoAVX false) ;;
        slog LWarn "Running roblox without AVX, Roblox will most likely fail to run!" []
   else ret tt) ;;
  if firstRun || FirstRun w
  then
    slog LInfo "Initializing wineprefix" [("dir", VStr (Prefix_Dir w))] ;;
    emit (SplashSetMessage "Initializing wineprefix") ;;
    b <- get_this ;;
    err <- match Type_ b with
           | Player => emit PrefixInit ;; ret (Prefix_Init w)
           | Studio => emit (PrefixSetDPI 97) ;; ret (Prefix_SetDPI w 97)
           end ;;
    match err with
    | Some e =>
        ret (Some (Errorf ("failed to init " ++ Type_String w (Type_ b) ++ " prefix") e))
    | None =>
        err <- call_method CallInstallWebView (InstallWebView w) ;;
        match err with
        | Some e => ret (Some (Errorf "failed to install webview" e))
        | None => ret None
        end
    end
  else ret None.

(** The body of the loop of [HandleProtocolURI], for one [uri]. *)
Definition handle_uri (uri : string) : M unit :=
  match Split uri ":" with
  | [k; c] =>
      if String.eqb k "channel"
      then if String.eqb c ""
           then ret tt
           else slog LWarn "Roblox has requested a user channel, changing..."
                  [("channel", VStr c)] ;;
                modify_this (set_Channel c)
      else ret tt
  | _ => ret tt
  end.

(** [func (b *Binary) HandleProtocolURI(mime string)] *)
Definition HandleProtocolURI (mime : string) : M unit :=
  for_each handle_uri (Split mime "+").

(** [func (b *Binary) Command(args ...string)], returning a command or an
    error; it
    reads [b] and writes nothing but the command it returns. *)
Definition Command (b : Binary) (args : list string) : result Cmd :=
  let args := protocol_args args in
  let cmd := Prefix_Wine w (filepath_Join [Dir b; Type_Executable w (Type_ b)]) args in
  let launcher := Fields (Launcher (Config_ b)) in
  if (1 <=? List.length launcher)%nat
  then
    let cmd := {| Path := Path cmd; Args := launcher ++ Args cmd |} in
    let (p, err) := LauncherPath w (Launcher (Config_ b)) in
    match err with
    | Some e => Err (Errorf "bad launcher" e)
    | None => Ok {| Path := p; Args := Args cmd |}
    end
  else Ok cmd.

(** The loop of [RobloxLogFile]: the timer is received once the rounds in
    [sel] are over. *)
Fixpoint watch_loop (sel : list selected) : M (result string) :=
  match sel with
  | [] => ret (Err (ErrNew "roblox log file not found after 6s"))
  | SelEvent e :: rest =>
      if fsnotify.Has e fsnotify.Create
      then ret (Ok (fsnotify.Name e))
      else watch_loop rest
  | SelError err :: rest =>
      slog LError "Recieved fsnotify watcher error" [("error", VErr (Some err))] ;;
      watch_loop rest
  end.

Definition add_dir (dir : string) (st : State) : State :=
  with_dirs (if existsb (String.eqb dir) (dirs st) then dirs st else dir :: dirs st) st.

Definition add_watch (dir : string) (st : State) : State :=
  with_watcher (match watcher st with
                | Some ws => Some (dir :: ws)
                | None => None
                end) st.

(** [func RobloxLogFile(pfx *wine.Prefix) (string, error)] *)
Definition RobloxLogFile : M (result string) :=
  let (ad, err) := Prefix_AppDataDir w in
  match err with
  | Some e => ret (Err (Errorf "get appdata" e))
  | None =>
      let dir := filepath_Join [ad; "Local"; "Roblox"; "logs"] in
      emit (OsMkdirAll dir 493) ;;
      match MkdirAll w dir with
      | Some e => ret (Err (Errorf "create roblox log dir" e))
      | None =>
          modify (add_dir dir) ;;
          emit FsnotifyNewWatcher ;;
          match NewWatcher w with
          | Some e => ret (Err (Errorf "make fsnotify watcher" e))
          | None =>
              modify (with_watcher (Some [])) ;;
              r <- (emit (WatcherAdd dir) ;;
                    match Watcher_Add w dir with
                    | Some e => ret (Err (Errorf "watch roblox log dir" e))
                    | None =>
                        modify (add_watch dir) ;;
                        emit (TimeNewTimer LogTimeout) ;;
                        watch_loop (Selected w)
                    end) ;;
              (* defer w.Close() *)
              emit WatcherClose ;;
              modify (with_watcher None) ;;
              ret r
          end
      end
  end.

(** The body of the loop of [Tail], for one line. *)
Definition tail_line (text : string) : M unit :=
  emit (FprintlnStderr text) ;;
  (if Contains text ShutdownMarker
   then emit (Go (GoSleepThenKill DieTimeout SIGUSR1))
   else ret tt) ;;
  b <- get_this ;;
  if DiscordRPC (Config_ b)
  then emit (ActivityHandleRobloxLog text) ;;
       match Activity_HandleRobloxLog w text with
       | Some err =>
           slog LError "Activity Roblox log handle failed" [("error", VErr (Some err))]
       | None => ret tt
       end
  else ret tt.

(** [func (b *Binary) Tail(name string)] *)
Definition Tail (name : string) : M unit :=
  emit (TailFile name) ;;
  match Tail_TailFile w name with
  | Err err => slog LError "Could not tail Roblox log file" [("error", VErr (Some err))]
  | Ok lines => for_each tail_line lines
  end.

(** [func (b *Binary) RegisterGameMode(pid int32)]; the second message
    prints [err], which is nil there. *)
Definition RegisterGameMode (pid : Z) : M unit :=
  emit DBusConnectSessionBus ;;
  match ConnectSessionBus w with
  | Some err => slog LError "Failed to connect to D-Bus" [("error", VErr (Some err))]
  | None =>
      emit (DBusCall "org.freedesktop.portal.GameMode.RegisterGame" 0 pid) ;;
      match Call_Err w with
      | Some cerr =>
          if negb (errors_Is same_as_ErrMsgNoObject cerr)
          then slog LError "Failed to register to GameMode" [("error", VErr None)]
          else ret tt
      | None => ret tt
      end
  end.

(** The third goroutine of [Execute]: it spins until [cmd.Process] is set
    (for ever, and without effect, when the process never starts), then
    looks for the log and follows it. *)
Definition PostLaunch : M unit :=
  match Process w with
  | None => ret tt
  | Some pid =>
      r <- RobloxLogFile ;;
      match r with
      | Err err =>
          slog LError "Failed to find Roblox log file" [("error", VStr (Error err))]
      | Ok lf =>
          emit SplashClose ;;
          b <- get_this ;;
          (if GameMode (Config_ b) then RegisterGameMode (int32 pid) else ret tt) ;;
          Tail lf
      end
  end.

(** [Execute], from the mutexer to [cmd.Run()]. *)
Definition Execute_body (args : list string) : M (option error) :=
  b <- get_this ;;
  err <- (if MultipleInstances (GlobalConfig b) && is_Player (Type_ b)
          then
            slog LInfo "Running robloxmutexer" [] ;;
            emit (MutexerStart (filepath_Join [BinPrefix w; "robloxmutexer.exe"])) ;;
            match Mutexer_Start w with
            | Some e => ret (Some (Errorf "start robloxmutexer" e))
            | None => emit (Go GoMutexerWait) ;; ret None
            end
          else ret None) ;;
  match err with
  | Some e => ret (Some e)
  | None =>
      match Command b args with
      | Err e => ret (Some (Errorf (Type_String w (Type_ b) ++ " command") e))
      | Ok cmd =>
          emit (SignalNotify [SIGINT; SIGTERM; SIGUSR1]) ;;
          emit (Go GoSignalSupervisor) ;;
          slog LInfo "Running Binary" [("name", VStr (Name b)); ("cmd", VCmd cmd)] ;;
          emit (SplashSetMessage ("Launching " ++ Alias b)) ;;
          emit (Go GoPostLaunch) ;;
          emit (CmdRun cmd) ;;
          match Run_err w with
          | Some err =>
              if (ExitCode (ProcessState w) =? -1)%Z
              then slog LWarn "Roblox was killed!" [] ;; ret None
              else ret (Some (Errorf "roblox process" err))
          | None => ret None
          end
      end
  end.

(** [func (b *Binary) Execute(args ...string) error] *)
Definition Execute (args : list string) : M (option error) :=
  b <- get_this ;;
  deferred <- (if DiscordRPC (Config_ b)
               then
                 emit ActivityConnect ;;
                 match Activity_Connect w with
                 | Some err =>
                     slog LError "Could not connect to Discord RPC"
                       [("error", VErr (Some err))] ;;
                     modify_this (set_DiscordRPC false) ;;
                     ret false
                 | None => ret true
                 end
               else ret false) ;;
  r <- Execute_body args ;;
  (* defer b.Activity.Close() *)
  (if deferred : bool then emit ActivityClose else ret tt) ;;
  ret r.

(** The second statement of [Run]:
    [if len(args) == 1 && args[0] == "roblox-" { b.HandleProtocolURI(args[0]) }]. *)
Definition Run_protocol (args : list string) : M unit :=
  match args with
  | [a] => if String.eqb a "roblox-" then HandleProtocolURI a else ret tt
  | _ => ret tt
  end.

(** [func (b *Binary) Run(args ...string) error] *)
Definition Run (args : list string) : M (option error) :=
  err <- Init ;;
  b <- get_this ;;
  match err with
  | Some e => ret (Some (Errorf ("init " ++ Type_String w (Type_ b)) e))
  | None =>
      Run_protocol args ;;
      b <- get_this ;;
      emit (SplashSetDesc (Channel (Config_ b))) ;;
      err <- call_method CallSetup (Setup w) ;;
      match err with
      | Some e => ret (Some (Errorf "failed to setup roblox" e))
      | None =>
          err <- Execute args ;;
          match err with
          | Some e => ret (Some (Errorf "failed to run roblox" e))
          | None => ret None
          end
      end
  end.

End Methods.

(** ** The goroutine that holds the signals

    [Execute] subscribes the channel [c] (capacity 1) to SIGINT, SIGTERM and
    SIGUSR1 and starts a goroutine that receives from [c] once.  That
    goroutine runs beside the delivery of signals by the operating system
    and beside [cmd.Run()], so it is a machine here: a state, and one step
    per thing that can happen next. *)

Module SignalSupervisor.

(** Where the goroutine stands. *)
Inductive pc : Type :=
| AtReceive              (* blocked in  s := <-c *)
| AtCheck (s : Signal)   (* before  if cmd.ProcessState == nil *)
| InKill                 (* inside  cmd.Process.Kill() *)
| AtStop                 (* before  signal.Stop(c) *)
| Returned               (* the goroutine is over *)
| Panicked.              (* cmd.Process.Pid read through a nil cmd.Process *)

Record T : Type := {
  notified : list Signal;   (* the signals package signal relays to c *)
  c : list Signal;          (* the content of the channel, oldest first *)
  at_ : pc;
  Process_ : option Z;      (* cmd.Process: the pid, once started *)
  exited : bool;            (* cmd.ProcessState != nil *)
  log : list event;         (* what the goroutine did, oldest first *)
  relayed : list Signal;    (* deliveries caught for c, oldest first *)
  defaulted : list Signal   (* deliveries left to the default disposition *)
}.

(** After [signal.Notify(c, os.Interrupt, syscall.SIGTERM, syscall.SIGUSR1)]
    and [go func() { ... }()], before [cmd.Run()]. *)
Definition init : T :=
  {| notified := [SIGINT; SIGTERM; SIGUSR1]; c := []; at_ := AtReceive;
     Process_ := None; exited := false; log := [];
     relayed := []; defaulted := [] |}.

Inductive label : Type :=
| Deliver (s : Signal)   (* the operating system delivers s to Vinegar *)
| Handler                (* the goroutine runs to its next blocking point *)
| Start (pid : Z)        (* cmd.Run() has started the process *)
| Exit.                  (* cmd.Run() has recorded cmd.ProcessState *)

Definition subscribed (st : T) (s : Signal) : bool :=
  existsb (Signal_eqb s) (notified st).

Definition goto (p : pc) (evs : list event) (st : T) : T :=
  {| notified := notified st; c := c st; at_ := p;
     Process_ := Process_ st; exited := exited st; log := log st ++ evs;
     relayed := relayed st; defaulted := defaulted st |}.

(** A caught signal is sent to [c] without blocking: it is dropped when
    the channel is full.  A signal nobody is subscribed to keeps its
    default disposition, which ends the program for each of the signals
    of [Signal]. *)
Definition deliver (s : Signal) (st : T) : T :=
  if subscribed st s
  then {| notified := notified st;
          c := if (List.length (c st) <? 1)%nat then c st ++ [s] else c st;
          at_ := at_ st; Process_ := Process_ st; exited := exited st;
          log := log st; relayed := relayed st ++ [s];
          defaulted := defaulted st |}
  else {| notified := notified st; c := c st; at_ := at_ st;
          Process_ := Process_ st; exited := exited st; log := log st;
          relayed := relayed st; defaulted := defaulted st ++ [s] |}.

Definition handler (st : T) : option T :=
  match at_ st with
  | AtReceive =>
      match c st with
      | [] => None
      | s :: rest =>
          Some {| notified := notified st; c := rest; at_ := AtCheck s;
                  Process_ := Process_ st; exited := exited st;
                  log := log st ++ [Slog LWarn "Recieved signal" [("signal", VSig s)]];
                  relayed := relayed st; defaulted := defaulted st |}
      end
  | AtCheck _ =>
      if exited st
      then Some (goto AtStop [] st)
      else match Process_ st with
           | Some pid =>
               Some (goto InKill
                       [Slog LWarn "Killing Roblox" [("pid", VInt pid)]; ProcessKill pid] st)
           | None => Some (goto Panicked [] st)
           end
  | InKill => Some (goto AtStop [] st)
  | AtStop =>
      Some {| notified := []; c := c st; at_ := Returned;
              Process_ := Process_ st; exited := exited st;
              log := log st ++ [SignalStop];
              relayed := relayed st; defaulted := defaulted st |}
  | Returned => None
  | Panicked => None
  end.

Definition over (st : T) : bool :=
  match at_ st, defaulted st with
  | Panicked, _ => true
  | _, _ :: _ => true
  | _, [] => false
  end.

(** One step; [None] when the step cannot happen in [st]. *)
Definition step (l : label) (st : T) : option T :=
  if over st then None
  else match l with
       | Deliver s => Some (deliver s st)
       | Handler => handler st
       | Start pid =>
           match Process_ st with
           | None =>
               Some {| notified := notified st; c := c st; at_ := at_ st;
                       Process_ := Some pid; exited := exited st; log := log st;
                       relayed := relayed st; defaulted := defaulted st |}
           | Some _ => None
           end
       | Exit =>
           match Process_ st, exited st with
           | Some _, false =>
               Some {| notified := notified st; c := c st; at_ := at_ st;
                       Process_ := Process_ st; exited := true; log := log st;
                       relayed := relayed st; defaulted := defaulted st |}
           | _, _ => None
           end
       end.

Fixpoint exec (sched : list label) (st : T) : option T :=
  match sched with
  | [] => Some st
  | l :: rest =>
      match step l st with
      | Some st' => exec rest st'
      | None => None
      end
  end.

Definition is_received (e : event) : bool :=
  match e with
  | Slog LWarn msg _ => String.eqb msg "Recieved signal"
  | _ => false
  end.

Definition is_kill (e : event) : bool :=
  match e with
  | ProcessKill _ => true
  | _ => false
  end.

(** A signal the goroutine is subscribed to when it starts. *)
Definition qualifying (s : Signal) : bool := subscribed init s.

End SignalSupervisor.

(** ** Notions used by the statements *)

(** The byte [c] occurs in [s]. *)
Fixpoint has_byte (c : ascii) (s : string) : bool :=
  match s with
  | EmptyString => false
  | String a s' => Ascii.eqb a c || has_byte c s'
  end.

(** A fragment of a protocol URI that cannot name a channel: the number of
    its colon-separated parts is not two, or its key is not [channel], or
    its value is empty. *)
Definition malformed (uri : string) : Prop :=
  List.length (Split uri ":") <> 2%nat
  \/ nth 0 (Split uri ":") "" <> "channel"
  \/ nth 1 (Split uri ":") "" = "".

(** The channel of the receiver in the state a computation ends in. *)
Definition Channel_after {A : Type} (r : A * State * list event) : string :=
  Channel (Config_ (this (state_of r))).

(** The delayed kill signals a log schedules. *)
Definition is_timer (e : event) : bool :=
  match e with
  | Go (GoSleepThenKill _ _) => true
  | _ => false
  end.

Definition armed (l : list event) : nat := List.length (filter is_timer l).

(** The lines that hold the shutdown marker. *)
Definition marker_lines (lines : list string) : list string :=
  filter (fun text => Contains text ShutdownMarker) lines.

(** What [Tail] does with a line: the relay to the sink and the hand-over
    to the presence-reporting collaborator. *)
Definition is_relay (e : event) : bool :=
  match e with
  | FprintlnStderr _ => true
  | _ => false
  end.

Definition is_presence (e : event) : bool :=
  match e with
  | ActivityHandleRobloxLog _ => true
  | _ => false
  end.

(** The error of [RobloxLogFile] when the timer fires first. *)
Definition LogNotFound : error := ErrNew "roblox log file not found after 6s".

(** A round of the select that ends the wait with a path. *)
Definition is_create (x : selected) : bool :=
  match x with
  | SelEvent e => fsnotify.Has e fsnotify.Create
  | SelError _ => false
  end.

(** The directory [RobloxLogFile] watches, below the application data
    directory [ad]. *)
Definition log_dir (ad : string) : string :=
  filepath_Join [ad; "Local"; "Roblox"; "logs"].

(** The set-up of the watcher succeeds, below the directory [ad]. *)
Definition discovery_ready (w : World) (ad : string) : Prop :=
  Prefix_AppDataDir w = (ad, None)
  /\ MkdirAll w (log_dir ad) = None
  /\ NewWatcher w = None
  /\ Watcher_Add w (log_dir ad) = None.

(** The path whose presence tells that the wineprefix was initialised. *)
Definition marker_path (w : World) : string :=
  filepath_Join [Prefix_Dir w; "drive_c"; "windows"].

(** First-run initialisation is due: the marker is absent or the flag is set. *)
Definition first_run (w : World) : bool :=
  match Stat w (marker_path w) with Some _ => true | None => false end || FirstRun w.

(** The initialisation of the sandbox that fits the variant. *)
Definition sandbox_init (t : BinaryType) : event :=
  match t with
  | Player => PrefixInit
  | Studio => PrefixSetDPI 97
  end.

Definition sandbox_init_result (w : World) (t : BinaryType) : option error :=
  match t with
  | Player => Prefix_Init w
  | Studio => Prefix_SetDPI w 97
  end.

(** The events by which the supervised process, or a helper process, is started. *)
Definition starts_process (e : event) : bool :=
  match e with
  | CmdRun _ | MutexerStart _ => true
  | _ => false
  end.

(** The side behaviours that follow the discovery of the log, and a kill. *)
Definition post_launch_side (e : event) : bool :=
  match e with
  | SplashClose | DBusConnectSessionBus | DBusCall _ _ _ | TailFile _
  | FprintlnStderr _ | ActivityHandleRobloxLog _ | Go _ | ProcessKill _ => true
  | _ => false
  end.

(** [w], with other answers to the calls of the log discovery. *)
Definition with_discovery (w : World) (ad : string * option error)
    (mk : string -> option error) (nw : option error)
    (add : string -> option error) (sel : list selected) : World :=
  {| Type_String := Type_String w; Type_Executable := Type_Executable w;
     FirstRun := FirstRun w; BinPrefix := BinPrefix w; CPU_AVX := CPU_AVX w;
     Stat := Stat w; MkdirAll := mk;
     Prefix_Dir := Prefix_Dir w; Prefix_Init := Prefix_Init w;
     Prefix_SetDPI := Prefix_SetDPI w; Prefix_Wine := Prefix_Wine w;
     Prefix_AppDataDir := ad;
     InstallWebView := InstallWebView w; Setup := Setup w;
     LauncherPath := LauncherPath w;
     Activity_Connect := Activity_Connect w;
     Activity_HandleRobloxLog := Activity_HandleRobloxLog w;
     Mutexer_Start := Mutexer_Start w;
     Run_err := Run_err w; Process := Process w; ProcessState := ProcessState w;
     NewWatcher := nw; Watcher_Add := add; Selected := sel;
     Tail_Open := Tail_Open w; Tail_Lines := Tail_Lines w;
     ConnectSessionBus := ConnectSessionBus w; Call_Err := Call_Err w |}.

(** [Execute] gets as far as [cmd.Run()] with the command [cmd]: the mutexer,
    when one is wanted, starts, and the command is built. *)
Definition reaches_run (w : World) (b : Binary) (args : list string) (cmd : Cmd) : Prop :=
  (MultipleInstances (GlobalConfig b) && is_Player (Type_ b) = true ->
   Mutexer_Start w = None)
  /\ Command w b args = Ok cmd.

(** A method defined in another file leaves the configured channel alone. *)
Definition keeps_Channel (f : Binary -> Binary * option error) : Prop :=
  forall b, Channel (Config_ (fst (f b))) = Channel (Config_ b).

(** The command before a launcher is put in front: Wine, on the executable
    of the variant in the version directory. *)
Definition base_command (w : World) (b : Binary) (args : list string) : Cmd :=
  Prefix_Wine w (filepath_Join [Dir b; Type_Executable w (Type_ b)]) (protocol_args args).

(** Nothing but white space in [s]: every rune of [s] is a space for
    [unicode.IsSpace]. *)
Definition blank (s : string) : bool :=
  forallb (fun r => IsSpace (fst r)) (runes s).

(** The two bytes of U+00A0, the no-break space, in UTF-8. *)
Definition NBSP : string :=
  String (ascii_of_nat 194) (String (ascii_of_nat 160) EmptyString).

(** The three bytes of U+2003, the em space, in UTF-8. *)
Definition EMSP : string :=
  String (ascii_of_nat 226) (String (ascii_of_nat 128) (String (ascii_of_nat 131) EmptyString)).

(** The warning of [Init] on a first run without AVX. *)
Definition avx_warning (w : World) : list event :=
  if match Stat w (marker_path w) with Some _ => true | None => false end
     && negb (CPU_AVX w)
  then [SplashDialog DialogNoAVX false;
        Slog LWarn "Running roblox without AVX, Roblox will most likely fail to run!" []]
  else [].

(** The state in which [Execute] goes on after the attempt to connect the
    presence reporting: the feature is switched off when the attempt fails. *)
Definition after_connect (w : World) (st : State) : State :=
  if DiscordRPC (Config_ (this st))
  then match Activity_Connect w with
       | Some _ => with_this (set_DiscordRPC false (this st)) st
       | None => st
       end
  else st.

(** ** A sample run, for the instances of the statements *)

Definition sample_Binary (t : BinaryType) (launcher : string) : Binary :=
  {| GlobalConfig := {| MultipleInstances := false |};
     Config_ := {| Channel := "LIVE"; Launcher := launcher;
                   DiscordRPC := true; GameMode := false |};
     Alias := "Player"; Name := "RobloxPlayerBeta.exe";
     Dir := "/home/u/.local/share/vinegar/versions/version-1"; Type_ := t |}.

Definition sample_State (t : BinaryType) (launcher : string) : State :=
  {| this := sample_Binary t launcher; dirs := []; watcher := None |}.

Definition sample_World (marker : option error) (lpath : string * option error)
    (run : option error) (ps : option WaitStatus)
    (sel : list selected) (tail : result (list string)) : World :=
  {| Type_String := fun t => match t with Player => "Player" | Studio => "Studio" end;
     Type_Executable := fun t => match t with
                                 | Player => "RobloxPlayerBeta.exe"
                                 | Studio => "RobloxStudioBeta.exe"
                                 end;
     FirstRun := false; BinPrefix := "/usr/libexec/vinegar"; CPU_AVX := true;
     Stat := fun _ => marker; MkdirAll := fun _ => None;
     Prefix_Dir := "/home/u/.local/share/vinegar/prefixes/player";
     Prefix_Init := None; Prefix_SetDPI := fun _ => None;
     Prefix_Wine := fun exe args => {| Path := "/usr/bin/wine"; Args := "wine" :: exe :: args |};
     Prefix_AppDataDir := ("/pfx/drive_c/users/u/AppData", None);
     InstallWebView := fun b => (b, None); Setup := fun b => (b, None);
     LauncherPath := fun _ => lpath;
     Activity_Connect := None; Activity_HandleRobloxLog := fun _ => None;
     Mutexer_Start := None;
     Run_err := run; Process := Some 4242%Z; ProcessState := ps;
     NewWatcher := None; Watcher_Add := fun _ => None; Selected := sel;
     Tail_Open := fun _ => match tail with Err e => Some e | Ok _ => None end;
     Tail_Lines := fun _ => match tail with Err _ => [] | Ok lines => lines end;
     ConnectSessionBus := None; Call_Err := None |}.

(** A log in which the line of the shutdown marker comes three times. *)
Definition three_marker_lines : list string :=
  ["[FLog::SingleSurfaceApp] shutDown: (stage:LeaveGame)";
   "[FLog::Output] leaving";
   "[FLog::SingleSurfaceApp] shutDown: (stage:LeaveGame)";
   "[FLog::SingleSurfaceApp] shutDown: (stage:LeaveGame)"].

(** A world in which the log gives [tail]: the error of its opening, or
    the lines it sends. *)
Definition tail_World (tail : result (list string)) : World :=
  sample_World None ("", None) None (Some (Exited 0)) [] tail.

(** Rounds of the select: a watcher error, a change of mode, then two
    creations. *)
Definition sample_selected : list selected :=
  [SelError (ErrNew "fsnotify: queue or buffer overflow");
   SelEvent {| fsnotify.Name := "/pfx/drive_c/users/u/AppData/Local/Roblox/logs";
               fsnotify.Op := fsnotify.Chmod |};
   SelEvent {| fsnotify.Name := "/pfx/drive_c/users/u/AppData/Local/Roblox/logs/0.log";
               fsnotify.Op := fsnotify.Create |};
   SelEvent {| fsnotify.Name := "/pfx/drive_c/users/u/AppData/Local/Roblox/logs/1.log";
               fsnotify.Op := Z.lor fsnotify.Create fsnotify.Write |}].

Definition discovery_World (sel : list selected) : World :=
  sample_World None ("", None) None (Some (Exited 0)) sel (Ok []).

Definition run_World (run : option error) (ps : option WaitStatus) : World :=
  sample_World None ("", None) run ps [] (Ok []).

Definition init_World (marker : option error) : World :=
  sample_World marker ("", None) None (Some (Exited 0)) [] (Ok []).

(** A first run on which the installation of the web view fails. *)
Definition webview_failure_World : World :=
  {| Type_String := Type_String (init_World None);
     Type_Executable := Type_Executable (init_World None);
     FirstRun := true; BinPrefix := BinPrefix (init_World None); CPU_AVX := true;
     Stat := Stat (init_World None); MkdirAll := MkdirAll (init_World None);
     Prefix_Dir := Prefix_Dir (init_World None);
     Prefix_Init := None; Prefix_SetDPI := fun _ => None;
     Prefix_Wine := Prefix_Wine (init_World None);
     Prefix_AppDataDir := Prefix_AppDataDir (init_World None);
     InstallWebView := fun b => (b, Some (ErrNew "download webview: timeout"));
     Setup := Setup (init_World None);
     LauncherPath := LauncherPath (init_World None);
     Activity_Connect := None; Activity_HandleRobloxLog := fun _ => None;
     Mutexer_Start := None;
     Run_err := None; Process := Some 4242%Z; ProcessState := Some (Exited 0);
     NewWatcher := None; Watcher_Add := fun _ => None; Selected := [];
     Tail_Open := fun _ => None; Tail_Lines := fun _ => [];
     ConnectSessionBus := None; Call_Err := None |}.

(** ** Notions for the signals *)

(** How many signals the goroutine took from the channel, and how many
    kills it issued. *)
Definition received (l : list event) : nat :=
  List.length (filter SignalSupervisor.is_received l).

Definition kills (l : list event) : nat :=
  List.length (filter SignalSupervisor.is_kill l).

(** What holds of the goroutine wherever it stands. *)
Definition supervisor_inv (st : SignalSupervisor.T) : Prop :=
  match SignalSupervisor.at_ st with
  | SignalSupervisor.AtReceive =>
      received (SignalSupervisor.log st) = 0%nat
      /\ kills (SignalSupervisor.log st) = 0%nat
      /\ SignalSupervisor.notified st = [SIGINT; SIGTERM; SIGUSR1]
  | SignalSupervisor.AtCheck _ | SignalSupervisor.Panicked =>
      received (SignalSupervisor.log st) = 1%nat
      /\ kills (SignalSupervisor.log st) = 0%nat
      /\ SignalSupervisor.notified st = [SIGINT; SIGTERM; SIGUSR1]
  | SignalSupervisor.InKill =>
      received (SignalSupervisor.log st) = 1%nat
      /\ kills (SignalSupervisor.log st) = 1%nat
      /\ SignalSupervisor.notified st = [SIGINT; SIGTERM; SIGUSR1]
  | SignalSupervisor.AtStop =>
      received (SignalSupervisor.log st) = 1%nat
      /\ (kills (SignalSupervisor.log st) <= 1)%nat
      /\ SignalSupervisor.notified st = [SIGINT; SIGTERM; SIGUSR1]
  | SignalSupervisor.Returned =>
      received (SignalSupervisor.log st) = 1%nat
      /\ (kills (SignalSupervisor.log st) <= 1)%nat
      /\ SignalSupervisor.notified st = []
  end.

(** The process runs, an interrupt comes, the goroutine takes it and calls
    [Kill], which does not return. *)
Definition hanging_kill : list SignalSupervisor.label :=
  [SignalSupervisor.Start 4242; SignalSupervisor.Deliver SIGINT;
   SignalSupervisor.Handler; SignalSupervisor.Handler].

(** The same run, with a [Kill] that returns; the goroutine ends. *)
Definition handled_once : list SignalSupervisor.label :=
  hanging_kill ++ [SignalSupervisor.Handler; SignalSupervisor.Handler].

(** The statement that fails: once the goroutine has taken a signal from the
    channel, a signal [s] delivered after the schedule [sched] is not relayed
    to the channel any more. *)
Definition second_signal_passes (sched : list SignalSupervisor.label) (s : Signal) : Prop :=
  forall st st',
    SignalSupervisor.exec sched SignalSupervisor.init = Some st ->
    SignalSupervisor.at_ st <> SignalSupervisor.AtReceive ->
    SignalSupervisor.step (SignalSupervisor.Deliver s) st = Some st' ->
    SignalSupervisor.relayed st' = SignalSupervisor.relayed st.

(** The states these two runs end in. *)
Definition in_kill_state : SignalSupervisor.T :=
  match SignalSupervisor.exec hanging_kill SignalSupervisor.init with
  | Some st => st
  | None => SignalSupervisor.init
  end.

Definition returned_state : SignalSupervisor.T :=
  match SignalSupervisor.exec handled_once SignalSupervisor.init with
  | Some st => st
  | None => SignalSupervisor.init
  end.

(** ** [Main] and [LogFile]

    [Main] opens the log file of Vinegar, sets the logger and the splash
    up, runs [Run] and turns its error into the exit status.  Its calls are
    recorded beside the events of [Run]. *)

Inductive main_event : Type :=
| Ev (e : event)                        (* an event of [Run] or of the logger *)
| DirsMkdirs (dir : string)
| OsCreate (path : string)
| FileClose (name : string)
| SlogSetDefault (logfile : string)
| SplashNew
| EnvSetenv
| GoSplashRun                           (* go func() { err := b.Splash.Run() ... }(), started *)
| SplashSetLogPath (path : string).

(** The answers [Main] gets, beside those of [World]. *)
Record MainWorld : Type := {
  Logs : string;                        (* dirs.Logs *)
  Mkdirs : string -> option error;      (* dirs.Mkdirs *)
  Now_RFC3339 : string;                 (* time.Now().Format(time.RFC3339) *)
  Create : string -> option error;      (* os.Create *)
  Splash_Enabled : bool;                (* b.GlobalConfig.Splash.Enabled *)
  IsTerminal : bool;                    (* term.IsTerminal(int(os.Stderr.Fd())) *)
  Splash_Run : option error             (* what b.Splash.Run() returns *)
}.

(** The line feed of [DialogFailure]. *)
Definition LF : string := String (ascii_of_nat 10) EmptyString.

(** [fmt.Sprintf(DialogFailure, err)]. *)
Definition DialogFailure (err : error) : string :=
  "Vinegar experienced an error:" ++ LF ++ Error err.

(** The path [LogFile] creates: [name-2006-01-02T15:04:05Z07:00.log] in the
    directory of the logs. *)
Definition LogFile_path (m : MainWorld) (name : string) : string :=
  filepath_Join [Logs m; (name ++ "-" ++ Now_RFC3339 m ++ ".log")%string].

(** [func LogFile(name string)], returning the file (its name) or an error. *)
Definition LogFile (m : MainWorld) (name : string) : result string * list main_event :=
  match Mkdirs m (Logs m) with
  | Some err => (Err err, [DirsMkdirs (Logs m)])
  | None =>
      let path := LogFile_path m name in
      match Create m path with
      | Some err =>
          (Err (Errorf ("failed to create " ++ name ++ " log file") err),
           [DirsMkdirs (Logs m); OsCreate path])
      | None =>
          (Ok path,
           [DirsMkdirs (Logs m); OsCreate path;
            Ev (Slog LInfo "Logging to file" [("path", VStr path)])])
      end
  end.

(** [func (b *Binary) Main(args ...string) int]: the exit status, the state
    and the calls. *)
Definition Main (w : World) (m : MainWorld) (args : list string) (st : State)
  : Z * State * list main_event :=
  match LogFile m (Type_String w (Type_ (this st))) with
  | (Err err, l) =>
      (1%Z, st, l ++ [Ev (Slog LError ("create log file: " ++ Error err) [])])
  | (Ok logFile, l) =>
      let '(err, st', lr) := Run w args st in
      let head := l ++ [SlogSetDefault logFile; SplashNew; EnvSetenv; GoSplashRun]
                    ++ map Ev lr in
      match err with
      | Some e =>
          (1%Z, st',
           head ++ [Ev (Slog LError (Error e) [])]
           ++ (if Splash_Enabled m && negb (IsTerminal m)
               then [SplashSetLogPath logFile; Ev (SplashSetMessage "Oops!");
                     Ev (SplashDialog (DialogFailure e) false)]
               else [])
           ++ [FileClose logFile])
      | None => (0%Z, st', head ++ [FileClose logFile])
      end
  end.

(** ** The first launcher: [Exec], [launch] and [main]

    The file of the repository that holds the first version of the program:
    it reads a mode and an optional launch string and runs Wine on the
    launchers of Roblox. *)

Module Launcher.

(** [util.Dirs], the fields read here. *)
Record Dirs : Type := { Exe : string; Cache : string; Log : string }.

(** What the program does, in program order. *)
Inductive action : Type :=
| Println (s : string)                  (* fmt.Println *)
| LogPrintln (s : string)               (* log.Println *)
| InitDirs
| InitEnvironment
| CheckExecutables
| ExecCall (prog : string) (args : list string)   (* Exec(dirs, prog, args...) *)
| ResetPrefix
| Exit (code : Z).                      (* os.Exit *)

(** The answers of package util and of the processes: the directories, and
    whether a call of [Exec] comes back (its [util.Errc] may end the
    program). *)
Record Env : Type := {
  dirs_ : Dirs;
  Exec_returns : string -> list string -> bool
}.

(** The calls of [Exec] in [calls], one after the other, up to the first
    that does not come back; [true] when all came back. *)
Fixpoint Execs (e : Env) (calls : list (string * list string)) : list action * bool :=
  match calls with
  | [] => ([], true)
  | (prog, args) :: rest =>
      if Exec_returns e prog args
      then let (l, ok) := Execs e rest in (ExecCall prog args :: l, ok)
      else ([ExecCall prog args], false)
  end.

(** [func launch(args ...string)]: its actions, and whether it returns. *)
Definition launch (e : Env) (args : list string) : list action * bool :=
  let launcherexe := filepath_Join [Exe (dirs_ e); "RobloxPlayerLauncher.exe"] in
  let studioexe := filepath_Join [Exe (dirs_ e); "RobloxStudioLauncherBeta.exe"] in
  let fpsunlockerexe := filepath_Join [Cache (dirs_ e); "rbxfpsunlocker.exe"] in
  let (l, ok) :=
    match args with
    | [a] =>
        if String.eqb a "app"
        then Execs e [("wine", [launcherexe; " -app"; " -fast"]);
                      ("wine", [fpsunlockerexe])]
        else if String.eqb a "reset"
        then ([ResetPrefix;
               LogPrintln "Prefix erased. A new one will be created the next time you launch any game mode."],
              true)
        else if String.eqb a "studio"
        then Execs e [("wine", [studioexe])]
        else ([], true)
    | [a; arg] =>
        if String.eqb a "player"
        then Execs e [("wine", [launcherexe; " -fast "; arg]);
                      ("wine", [fpsunlockerexe])]
        else if String.eqb a "studio"
        then Execs e [("wine", [studioexe; " "; arg])]
        else ([], true)
    | _ => ([], true)
    end in
  ([InitDirs; InitEnvironment; CheckExecutables] ++ l, ok).

(** [func main()], on [os.Args[1:]]: its actions; an [Exit] is the last
    one. *)
Definition main (e : Env) (args : list string) : list action :=
  match args with
  | [] =>
      [Println ("usage: vinegar <MODE> [launch string] " ++ LF);
       Println ("Available game modes are: app, player, studio" ++ LF);
       Println ("Available maintenance modes are: reset" ++ LF)]
  | [a] =>
      if String.eqb a "app"
      then Println "Launching app" :: fst (launch e [a])
      else if String.eqb a "player"
      then [Println "Can't run this mode without launch argument!"; Exit 2]
      else if String.eqb a "reset"
      then Println "Regenerating prefix" :: fst (launch e [a])
      else if String.eqb a "studio"
      then Println "Launching studio without specific game." :: fst (launch e [a])
      else [Println "Unrecognized mode!"]
  | [a; arg] =>
      if String.eqb a "studio" || String.eqb a "player"
      then Println ("Starting " ++ a ++ " with argument " ++ arg) :: fst (launch e [a; arg])
      else if String.eqb a "app"
      then [Println "app cannot be launched with additional arguments!"]
      else [Println "Unrecognized mode!"]
  | _ => []
  end.

Definition is_Exec (a : action) : bool :=
  match a with
  | ExecCall _ _ => true
  | _ => false
  end.

(** [launch] was entered. *)
Definition launched (l : list action) : Prop := In InitDirs l.

(** The modes [main] hands to [launch]. *)
Definition accepted (args : list string) : Prop :=
  args = ["app"] \/ args = ["reset"] \/ args = ["studio"]
  \/ (exists arg, args = ["studio"; arg]) \/ (exists arg, args = ["player"; arg]).

Definition fpsunlocker (e : Env) : action :=
  ExecCall "wine" [filepath_Join [Cache (dirs_ e); "rbxfpsunlocker.exe"]].

End Launcher.

(** ** Notions for the further properties *)

(** [Execute] starts the mutexer: several instances are allowed and the
    variant is Player. *)
Definition mutexer_wanted (b : Binary) : bool :=
  MultipleInstances (GlobalConfig b) && is_Player (Type_ b).

(** The presence reporting is connected for the run. *)
Definition connected (w : World) (b : Binary) : bool :=
  DiscordRPC (Config_ b) &&
  match Activity_Connect w with Some _ => false | None => true end.

Definition is_close (e : event) : bool :=
  match e with ActivityClose => true | _ => false end.

Definition is_connect (e : event) : bool :=
  match e with ActivityConnect => true | _ => false end.

Definition is_mutexer (e : event) : bool :=
  match e with MutexerStart _ => true | _ => false end.

(** The events by which [Execute] takes hold of the signals and of the
    process: the subscription, the goroutines beside the run, the run. *)
Definition is_launch (e : event) : bool :=
  match e with
  | SignalNotify _ | Go GoSignalSupervisor | Go GoPostLaunch | CmdRun _ => true
  | _ => false
  end.

(** What [Execute] does from the subscription to the run, for [cmd]. *)
Definition launch_events (b : Binary) (cmd : Cmd) : list event :=
  [SignalNotify [SIGINT; SIGTERM; SIGUSR1];
   Go GoSignalSupervisor;
   Slog LInfo "Running Binary" [("name", VStr (Name b)); ("cmd", VCmd cmd)];
   SplashSetMessage ("Launching " ++ Alias b);
   Go GoPostLaunch;
   CmdRun cmd].

(** The events of the mutexer when it starts, or is not wanted. *)
Definition mutexer_events (w : World) (b : Binary) : list event :=
  if mutexer_wanted b
  then [Slog LInfo "Running robloxmutexer" [];
        MutexerStart (filepath_Join [BinPrefix w; "robloxmutexer.exe"]);
        Go GoMutexerWait]
  else [].

(** The goroutines started. *)
Definition is_goroutine (e : event) : bool :=
  match e with Go _ => true | _ => false end.

(** The processes and the goroutines [Execute] has started when it comes
    to build the command: the mutexer and the goroutine that waits for it,
    when the mutexer is wanted. *)
Definition mutexer_processes (w : World) (b : Binary) : list event :=
  if mutexer_wanted b
  then [MutexerStart (filepath_Join [BinPrefix w; "robloxmutexer.exe"])]
  else [].

Definition mutexer_goroutines (b : Binary) : list event :=
  if mutexer_wanted b then [Go GoMutexerWait] else [].

(** The events of the attempt to connect the presence reporting. *)
Definition connect_events (w : World) (b : Binary) : list event :=
  if DiscordRPC (Config_ b)
  then match Activity_Connect w with
       | Some err =>
           [ActivityConnect;
            Slog LError "Could not connect to Discord RPC" [("error", VErr (Some err))]]
       | None => [ActivityConnect]
       end
  else [].

(** The lines handed to the presence reporting, and the failures logged. *)
Definition presence_lines (l : list event) : list string :=
  flat_map (fun e => match e with ActivityHandleRobloxLog t => [t] | _ => [] end) l.

Definition relayed_lines (l : list event) : list string :=
  flat_map (fun e => match e with FprintlnStderr t => [t] | _ => [] end) l.

Definition is_presence_failure (e : event) : bool :=
  match e with
  | Slog LError msg _ => String.eqb msg "Activity Roblox log handle failed"
  | _ => false
  end.

Definition is_dbus (e : event) : bool :=
  match e with
  | DBusConnectSessionBus | DBusCall _ _ _ => true
  | _ => false
  end.

Definition is_dbus_call (e : event) : bool :=
  match e with DBusCall _ _ _ => true | _ => false end.

Definition is_slog_error (e : event) : bool :=
  match e with Slog LError _ _ => true | _ => false end.

Definition is_watcher_event (e : event) : bool :=
  match e with
  | FsnotifyNewWatcher | WatcherAdd _ | WatcherClose | TimeNewTimer _ => true
  | _ => false
  end.

Definition is_timer_start (e : event) : bool :=
  match e with TimeNewTimer _ => true | _ => false end.

(** The name a fragment of a protocol URI gives the channel, if any: the
    test of [HandleProtocolURI] on one fragment. *)
Definition fragment_channel (uri : string) : option string :=
  match Split uri ":" with
  | [k; c] => if String.eqb k "channel" && negb (String.eqb c "") then Some c else None
  | _ => None
  end.

(** The name the last well-formed fragment gives, if there is one. *)
Fixpoint picked (frags : list string) : option string :=
  match frags with
  | [] => None
  | f :: rest =>
      match picked rest with
      | Some c => Some c
      | None => fragment_channel f
      end
  end.

(** The state with the channel [c], when there is a [c]. *)
Definition with_channel (c : option string) (st : State) : State :=
  match c with
  | Some name => with_this (set_Channel name (this st)) st
  | None => st
  end.

Definition is_channel_warning (e : event) : bool :=
  match e with
  | Slog LWarn msg [(key, VStr _)] =>
      String.eqb msg "Roblox has requested a user channel, changing..."
      && String.eqb key "channel"
  | _ => false
  end.

(** The context under which an error is wrapped, if it is wrapped. *)
Definition context_of (e : error) : option string :=
  match e with
  | ErrNew _ => None
  | Errorf ctx _ => Some ctx
  end.

Definition is_Ev_run (e : main_event) : bool :=
  match e with
  | Ev (CmdRun _) | Ev CallSetup | Ev (OsStat _) => true
  | _ => false
  end.

Definition is_failure_dialog (e : main_event) : bool :=
  match e with
  | Ev (SplashDialog _ _) => true
  | _ => false
  end.

Definition sample_MainWorld (mk create : option error) (enabled tty : bool)
    (splash : option error) : MainWorld :=
  {| Logs := "/home/u/.cache/vinegar/logs"; Mkdirs := fun _ => mk;
     Now_RFC3339 := "2024-05-01T10:00:00Z"; Create := fun _ => create;
     Splash_Enabled := enabled; IsTerminal := tty;
     Splash_Run := splash |}.

Definition sample_Env (returns : bool) : Launcher.Env :=
  {| Launcher.dirs_ := {| Launcher.Exe := "/home/u/.local/share/vinegar/exe";
                          Launcher.Cache := "/home/u/.cache/vinegar";
                          Launcher.Log := "/home/u/.cache/vinegar/logs" |};
     Launcher.Exec_returns := fun _ _ => returns |}.

(** The lines on which the presence reporting answers with an error. *)
Definition failing_lines (w : World) (lines : list string) : list string :=
  filter (fun t => match Activity_HandleRobloxLog w t with
                   | Some _ => true
                   | None => false
                   end) lines.

(** A run on which the performance mode answers the call with [call]. *)
Definition gamemode_World (bus call : option error) : World :=
  {| Type_String := Type_String (init_World None);
     Type_Executable := Type_Executable (init_World None);
     FirstRun := false; BinPrefix := BinPrefix (init_World None); CPU_AVX := true;
     Stat := Stat (init_World None); MkdirAll := MkdirAll (init_World None);
     Prefix_Dir := Prefix_Dir (init_World None);
     Prefix_Init := None; Prefix_SetDPI := fun _ => None;
     Prefix_Wine := Prefix_Wine (init_World None);
     Prefix_AppDataDir := Prefix_AppDataDir (init_World None);
     InstallWebView := InstallWebView (init_World None);
     Setup := Setup (init_World None);
     LauncherPath := LauncherPath (init_World None);
     Activity_Connect := None; Activity_HandleRobloxLog := fun _ => None;
     Mutexer_Start := None;
     Run_err := None; Process := Some 4242%Z; ProcessState := Some (Exited 0);
     NewWatcher := None; Watcher_Add := fun _ => None; Selected := [];
     Tail_Open := fun _ => None; Tail_Lines := fun _ => [];
     ConnectSessionBus := bus; Call_Err := call |}.

(** A warm run on which the set-up of Roblox fails. *)
Definition setup_failure_World : World :=
  {| Type_String := Type_String (init_World None);
     Type_Executable := Type_Executable (init_World None);
     FirstRun := false; BinPrefix := BinPrefix (init_World None); CPU_AVX := true;
     Stat := Stat (init_World None); MkdirAll := MkdirAll (init_World None);
     Prefix_Dir := Prefix_Dir (init_World None);
     Prefix_Init := None; Prefix_SetDPI := fun _ => None;
     Prefix_Wine := Prefix_Wine (init_World None);
     Prefix_AppDataDir := Prefix_AppDataDir (init_World None);
     InstallWebView := InstallWebView (init_World None);
     Setup := fun b => (b, Some (ErrNew "fetch deployment: timeout"));
     LauncherPath := LauncherPath (init_World None);
     Activity_Connect := None; Activity_HandleRobloxLog := fun _ => None;
     Mutexer_Start := None;
     Run_err := None; Process := Some 4242%Z; ProcessState := Some (Exited 0);
     NewWatcher := None; Watcher_Add := fun _ => None; Selected := [];
     Tail_Open := fun _ => None; Tail_Lines := fun _ => [];
     ConnectSessionBus := None; Call_Err := None |}.

(** What holds of the channel and of the process handle in every run. *)
Definition supervisor_inv2 (st : SignalSupervisor.T) : Prop :=
  (List.length (SignalSupervisor.c st) <= 1)%nat
  /\ forallb SignalSupervisor.qualifying (SignalSupervisor.relayed st) = true
  /\ (SignalSupervisor.exited st = true -> SignalSupervisor.Process_ st <> None)
  /\ (SignalSupervisor.relayed st = [] ->
      SignalSupervisor.at_ st = SignalSupervisor.AtReceive
      /\ SignalSupervisor.c st = []
      /\ SignalSupervisor.log st = []).

(** An interrupt that comes before [cmd.Run()] has started the process. *)
Definition early_signal : list SignalSupervisor.label :=
  [SignalSupervisor.Deliver SIGINT; SignalSupervisor.Handler].

Definition early_signal_state : SignalSupervisor.T :=
  match SignalSupervisor.exec early_signal SignalSupervisor.init with
  | Some st => st
  | None => SignalSupervisor.init
  end.

(** The process starts and exits, and no signal comes. *)
Definition quiet_run : list SignalSupervisor.label :=
  [SignalSupervisor.Start 4242; SignalSupervisor.Exit].

Definition quiet_state : SignalSupervisor.T :=
  match SignalSupervisor.exec quiet_run SignalSupervisor.init with
  | Some st => st
  | None => SignalSupervisor.init
  end.

Definition exit_status (r : Z * State * list main_event) : Z := fst (fst r).
Definition main_log (r : Z * State * list main_event) : list main_event := snd r.

Definition is_dialog (e : event) : bool :=
  match e with SplashDialog _ _ => true | _ => false end.

Definition is_OsCreate (e : main_event) : bool :=
  match e with OsCreate _ => true | _ => false end.

(** The log file of Vinegar is there: its name, and the calls made for it. *)
Definition log_file_opened (m : MainWorld) (name path : string) : Prop :=
  Mkdirs m (Logs m) = None /\ path = LogFile_path m name /\ Create m path = None.

Definition state_of_main_unchanged (st : State) (r : Z * State * list main_event) : Prop :=
  snd (fst r) = st.

(** ** Proof steps that recur *)

(** Goes through the members of a list that is written out. *)
Ltac in_cases :=
  repeat match goal with
         | H : In _ _ |- _ => progress simpl in H
         | H : _ = _ \/ _ |- _ =>
             let E := fresh "E" in
             destruct H as [E|H]; [try discriminate E; try (rewrite <- E in *; clear E)|]
         | H : False |- _ => destruct H
         end.

(** Unfolds the operations of the monad. *)
Ltac run_monad :=
  unfold bind, call_method, get_this, slog, emit, modify_this, modify, ret,
    value_of, state_of, log_of.

(** Refutes that a list of arguments is one [main] hands to [launch]. *)
Ltac not_accepted :=
  let H := fresh "H" in
  intros H; destruct H as [H|[H|[H|[[? H]|[? H]]]]];
  try discriminate H; injection H; intros; subst; congruence.

(** Goes through the modes of [launch] and the outcomes of its processes. *)
Ltac launch_cases e args :=
  unfold Launcher.launch;
  destruct args as [|?a [|?arg [|? ?]]];
  [ | destruct (String.eqb_spec a "app") as [->|?];
      [|destruct (String.eqb_spec a "reset") as [->|?];
        [|destruct (String.eqb_spec a "studio") as [->|?]]]
    | destruct (String.eqb_spec a "player") as [->|?];
      [|destruct (String.eqb_spec a "studio") as [->|?]]
    | ];
  cbn [Launcher.Execs];
  repeat match goal with
         | |- context [Launcher.Exec_returns e ?p ?q] =>
             destruct (Launcher.Exec_returns e p q) eqn:?
         end;
  cbn [fst snd app filter Launcher.is_Exec].

(** * Properties *)

(** ** The models on small inputs *)

Example Split_plus :
  Split "a:b+channel:zlive+" "+" = ["a:b"; "channel:zlive"; ""].
Proof. reflexivity. Qed.

Example Split_empty : Split "" ":" = [""].
Proof. reflexivity. Qed.

Example Split_two_bytes : Split "a, b, c" ", " = ["a"; "b"; "c"].
Proof. reflexivity. Qed.

Example Fields_launcher :
  Fields "  gamescope -f  --  " = ["gamescope"; "-f"; "--"].
Proof. reflexivity. Qed.

Example DecodeRune_nbsp : DecodeRune NBSP = (160%Z, 2%nat).
Proof. reflexivity. Qed.

Example DecodeRune_emsp : DecodeRune EMSP = (8195%Z, 3%nat).
Proof. reflexivity. Qed.

(** A byte that starts no encoding is [RuneError], one byte wide, and no
    space. *)
Example DecodeRune_invalid :
  DecodeRune (String (ascii_of_nat 160) "x") = (RuneError, 1%nat)
  /\ IsSpace RuneError = false.
Proof. split; reflexivity. Qed.

(** White space that is not ASCII separates the fields too. *)
Example Fields_unicode_space :
  Fields ("gamescope" ++ NBSP ++ "-f" ++ EMSP ++ "--")%string
  = ["gamescope"; "-f"; "--"].
Proof. vm_compute. reflexivity. Qed.

Example Fields_nbsp : Fields NBSP = [].
Proof. reflexivity. Qed.

(** A launcher whose tokens are set apart by a no-break space. *)
Example Command_unicode_launcher :
  Command (sample_World None ("/usr/bin/gamescope", None) None None [] (Ok []))
    (sample_Binary Player ("gamescope" ++ NBSP ++ "-f")%string) ["-app"]
  = Ok {| Path := "/usr/bin/gamescope";
          Args := ["gamescope"; "-f"; "wine";
                   "/home/u/.local/share/vinegar/versions/version-1/RobloxPlayerBeta.exe";
                   "-app"] |}.
Proof. vm_compute. reflexivity. Qed.

(** A launcher that is a no-break space is no launcher. *)
Example Command_nbsp_launcher :
  Command (sample_World None ("", Some (ErrNew "executable file not found in $PATH"))
             None None [] (Ok []))
    (sample_Binary Player NBSP) ["-app"]
  = Ok {| Path := "/usr/bin/wine";
          Args := ["wine";
                   "/home/u/.local/share/vinegar/versions/version-1/RobloxPlayerBeta.exe";
                   "-app"] |}.
Proof. vm_compute. reflexivity. Qed.

(** The error branch of [Tail] needs [MustExist]. *)
Example tail_TailFile_MustExist :
  tail_TailFile (fun _ => Some (ErrNew "no such file")) (fun _ => [])
    {| Follow := true; MustExist := true |} "0.log" = Err (ErrNew "no such file")
  /\ tail_TailFile (fun _ => Some (ErrNew "no such file")) (fun _ => [])
       {| Follow := true; MustExist := false |} "0.log" = Ok [].
Proof. split; reflexivity. Qed.

Example Contains_marker :
  Contains "2024 [FLog::SingleSurfaceApp] shutDown: x" ShutdownMarker = true.
Proof. reflexivity. Qed.

Example protocol_args_studio :
  protocol_args ["roblox-studio:1+task:EditPlace"; "x"]
  = ["-protocolString"; "roblox-studio:1+task:EditPlace"].
Proof. reflexivity. Qed.

Example ExitCode_killed : ExitCode (Some (Signaled SIGKILL)) = (-1)%Z.
Proof. reflexivity. Qed.

Example Init_studio_first_run :
  log_of (Init (init_World (Some (ErrNew "stat: no such file or directory")))
            (sample_State Studio ""))
  = [OsStat "/home/u/.local/share/vinegar/prefixes/player/drive_c/windows";
     Slog LInfo "Initializing wineprefix"
       [("dir", VStr "/home/u/.local/share/vinegar/prefixes/player")];
     SplashSetMessage "Initializing wineprefix";
     PrefixSetDPI 97; CallInstallWebView].
Proof. reflexivity. Qed.

Example Tail_relays_and_arms :
  log_of (Tail (tail_World (Ok ["[FLog::SingleSurfaceApp] shutDown: x"]))
            "0.log" (sample_State Player ""))
  = [TailFile "0.log";
     FprintlnStderr "[FLog::SingleSurfaceApp] shutDown: x";
     Go (GoSleepThenKill 3000000000 SIGUSR1);
     ActivityHandleRobloxLog "[FLog::SingleSurfaceApp] shutDown: x"].
Proof. reflexivity. Qed.

Example supervisor_handles_once :
  option_map SignalSupervisor.log
    (SignalSupervisor.exec handled_once SignalSupervisor.init)
  = Some [Slog LWarn "Recieved signal" [("signal", VSig SIGINT)];
          Slog LWarn "Killing Roblox" [("pid", VInt 4242)];
          ProcessKill 4242; SignalStop].
Proof. reflexivity. Qed.

(** ** [strings.Split] on a separator of one byte *)

Lemma split_from_byte (a c : ascii) (s : string) :
  split_from (String a "") (String c s) 0 =
  if Ascii.eqb c a
  then "" :: split_from (String a "") s 0
  else push_byte c (split_from (String a "") s 0).
Proof.
  cbn [split_from HasPrefix String.length Nat.sub].
  rewrite andb_true_r. reflexivity.
Qed.

Lemma Split_without_sep (a : ascii) (s : string) :
  has_byte a s = false -> Split s (String a "") = [s].
Proof.
  unfold Split. induction s as [|c s IH]; intros H.
  - reflexivity.
  - rewrite split_from_byte. simpl in H.
    apply orb_false_iff in H. destruct H as [Hc Hs].
    rewrite Hc, (IH Hs). reflexivity.
Qed.

Lemma Split_at_sep (a : ascii) (s1 s2 : string) :
  has_byte a s1 = false ->
  Split (s1 ++ String a s2)%string (String a "") = s1 :: Split s2 (String a "").
Proof.
  unfold Split. induction s1 as [|c s1 IH]; intros H.
  - simpl append. rewrite split_from_byte, Ascii.eqb_refl. reflexivity.
  - simpl in H. apply orb_false_iff in H. destruct H as [Hc Hs].
    simpl append. rewrite split_from_byte, Hc, (IH Hs). reflexivity.
Qed.

(** Splitting undoes joining, when no fragment holds the separator. *)
Lemma Split_Join (a : ascii) (frags : list string) :
  frags <> [] ->
  (forall f, In f frags -> has_byte a f = false) ->
  Split (Join frags (String a "")) (String a "") = frags.
Proof.
  induction frags as [|f rest IH]; intros Hne Hall.
  - contradiction.
  - destruct rest as [|g rest].
    + simpl. apply Split_without_sep. apply Hall. now left.
    + change (Join (f :: g :: rest) (String a ""))
        with (f ++ String a (Join (g :: rest) (String a "")))%string.
      rewrite Split_at_sep by (apply Hall; now left).
      f_equal. apply IH; [discriminate|].
      intros h Hh. apply Hall. now right.
Qed.

Lemma push_byte_Join (a c : ascii) (l : list string) :
  l <> [] ->
  Join (push_byte c l) (String a "") = String c (Join l (String a "")).
Proof.
  destruct l as [|p [|q l]]; intros H; [contradiction| |]; reflexivity.
Qed.

Lemma split_from_nonempty (a : ascii) (s : string) :
  split_from (String a "") s 0 <> [].
Proof.
  destruct s as [|c s]; [discriminate|].
  rewrite split_from_byte. destruct (Ascii.eqb c a); [discriminate|].
  destruct (split_from (String a "") s 0); discriminate.
Qed.

(** Joining undoes splitting. *)
Lemma Join_Split (a : ascii) (s : string) :
  Join (Split s (String a "")) (String a "") = s.
Proof.
  unfold Split. induction s as [|c s IH]; [reflexivity|].
  rewrite split_from_byte. destruct (Ascii.eqb_spec c a) as [->|Hne].
  - pose proof (split_from_nonempty a s) as Hn.
    destruct (split_from (String a "") s 0) as [|p l] eqn:E; [contradiction|].
    change (Join ("" :: p :: l) (String a "")) with (String a (Join (p :: l) (String a ""))).
    now rewrite IH.
  - rewrite push_byte_Join by apply split_from_nonempty. now rewrite IH.
Qed.

(** No piece of a split holds the separator. *)
Lemma Split_pieces (a : ascii) (s p : string) :
  In p (Split s (String a "")) -> has_byte a p = false.
Proof.
  unfold Split. revert p. induction s as [|c s IH]; intros p Hp.
  - destruct Hp as [<-|[]]. reflexivity.
  - rewrite split_from_byte in Hp. destruct (Ascii.eqb c a) eqn:Hc.
    + destruct Hp as [<-|Hp]; [reflexivity|now apply IH].
    + destruct (split_from (String a "") s 0) as [|q l].
      * destruct Hp as [<-|[]]. simpl. now rewrite Hc.
      * destruct Hp as [<-|Hp].
        -- simpl. rewrite Hc. apply IH. now left.
        -- apply IH. now right.
Qed.

(** ** The protocol URI *)

Lemma handle_uri_malformed (uri : string) (st : State) :
  malformed uri -> handle_uri uri st = (tt, st, []).
Proof.
  unfold malformed, handle_uri.
  destruct (Split uri ":") as [|k [|c [|x l]]]; try reflexivity.
  simpl. intros [H|[H|H]].
  - now contradiction H.
  - destruct (String.eqb_spec k "channel"); [contradiction|reflexivity].
  - subst c. destruct (String.eqb k "channel"); reflexivity.
Qed.

Lemma handle_uri_channel (name : string) (st : State) :
  name <> "" -> has_byte ":" name = false ->
  handle_uri ("channel:" ++ name) st =
  (tt, with_this (set_Channel name (this st)) st,
   [Slog LWarn "Roblox has requested a user channel, changing..." [("channel", VStr name)]]).
Proof.
  intros Hne Hcolon. unfold handle_uri.
  change ("channel:" ++ name)%string with ("channel" ++ String ":" name)%string.
  rewrite Split_at_sep by reflexivity.
  rewrite Split_without_sep by assumption.
  rewrite String.eqb_refl.
  destruct (String.eqb_spec name ""); [contradiction|reflexivity].
Qed.

(** A fragment is not malformed exactly when it reads [channel:<name>] with
    a non-empty name that holds no colon. *)
Lemma well_formed_iff (uri : string) :
  ~ malformed uri <->
  exists name, uri = ("channel:" ++ name)%string /\ name <> "" /\ has_byte ":" name = false.
Proof.
  split.
  - intros H. pose proof (Join_Split ":" uri) as HJ.
    pose proof (Split_pieces ":" uri) as HP.
    unfold malformed in H.
    destruct (Split uri ":") as [|k [|c [|x l]]].
    + exfalso. apply H. left. discriminate.
    + exfalso. apply H. left. discriminate.
    + simpl in H. exists c. repeat split.
      * destruct (string_dec k "channel") as [->|Hk].
        -- symmetry. exact HJ.
        -- exfalso. apply H. right. now left.
      * intros Hc. apply H. right. now right.
      * apply HP. right. now left.
    + exfalso. apply H. left. discriminate.
  - intros (name & -> & Hne & Hcolon) H. unfold malformed in H.
    change ("channel:" ++ name)%string with ("channel" ++ String ":" name)%string in H.
    rewrite Split_at_sep in H by reflexivity.
    rewrite Split_without_sep in H by assumption.
    simpl in H. destruct H as [H|[H|H]]; congruence.
Qed.

Lemma for_each_app {A : Type} (f : A -> M unit) (l1 l2 : list A) (st : State) :
  state_of (for_each f (l1 ++ l2) st) =
  state_of (for_each f l2 (state_of (for_each f l1 st))).
Proof.
  revert st. induction l1 as [|x l1 IH]; intros st.
  - reflexivity.
  - simpl. unfold bind. destruct (f x st) as [[u st1] e1].
    specialize (IH st1).
    destruct (for_each f (l1 ++ l2) st1) as [[u2 st2] e2].
    destruct (for_each f l1 st1) as [[u3 st3] e3].
    exact IH.
Qed.

Lemma for_each_malformed (l : list string) (st : State) :
  (forall f, In f l -> malformed f) ->
  for_each handle_uri l st = (tt, st, []).
Proof.
  induction l as [|x l IH]; intros H; [reflexivity|].
  simpl. unfold bind. rewrite handle_uri_malformed by (apply H; now left).
  rewrite IH by (intros f Hf; apply H; now right). reflexivity.
Qed.

(** C4.  For a protocol URI made of [+]-separated fragments: when every
    fragment is malformed (the key [channel] is missing, its value is empty,
    or the number of colon-separated parts is not two) the handler leaves
    the state, and so the configured channel, as it was; and the channel
    becomes [name] for a fragment [channel:<name>] with a non-empty name
    that only malformed fragments follow, whatever precedes it: the last
    well-formed fragment wins. *)
Theorem HandleProtocolURI_channel (frags : list string) (st : State) :
  frags <> [] ->
  (forall f, In f frags -> has_byte "+" f = false) ->
  ((forall f, In f frags -> malformed f) ->
   HandleProtocolURI (Join frags "+") st = (tt, st, []))
  /\
  (forall pre name post,
     frags = pre ++ ("channel:" ++ name)%string :: post ->
     name <> "" -> has_byte ":" name = false ->
     (forall f, In f post -> malformed f) ->
     Channel_after (HandleProtocolURI (Join frags "+") st) = name).
Proof.
  intros Hne Hplus. unfold HandleProtocolURI.
  rewrite (Split_Join "+" frags Hne Hplus). split.
  - apply for_each_malformed.
  - intros pre name post -> Hname Hcolon Hpost. unfold Channel_after.
    rewrite for_each_app.
    destruct (for_each handle_uri pre st) as [[u st1] e1].
    cbn [state_of fst snd for_each]. unfold bind.
    rewrite handle_uri_channel by assumption.
    rewrite for_each_malformed by assumption. reflexivity.
Qed.

Lemma HandleProtocolURI_channel_witness :
  HandleProtocolURI "roblox-player:1+launchmode:play+channel:" (sample_State Player "")
  = (tt, sample_State Player "", [])
  /\ Channel_after
       (HandleProtocolURI "channel:zbeta+x:y+channel:zlive+channel:" (sample_State Player ""))
     = "zlive".
Proof.
  split.
  - apply (proj1 (HandleProtocolURI_channel
                    ["roblox-player:1"; "launchmode:play"; "channel:"]
                    (sample_State Player "")
                    ltac:(discriminate)
                    ltac:(intros f H; in_cases; reflexivity))).
    intros f H; in_cases.
    + right; left; discriminate.
    + right; left; discriminate.
    + right; right; reflexivity.
  - apply (proj2 (HandleProtocolURI_channel
                    ["channel:zbeta"; "x:y"; "channel:zlive"; "channel:"]
                    (sample_State Player "")
                    ltac:(discriminate)
                    ltac:(intros f H; in_cases; reflexivity))
             ["channel:zbeta"; "x:y"] "zlive" ["channel:"]).
    + reflexivity.
    + discriminate.
    + reflexivity.
    + intros f H; in_cases. right; right; reflexivity.
Defined.

(** ** The monad: what a sequence leaves behind *)

Lemma bind_value {A B : Type} (m : M A) (f : A -> M B) (st : State) :
  value_of (bind m f st) = value_of (f (value_of (m st)) (state_of (m st))).
Proof.
  unfold bind, value_of, state_of. destruct (m st) as [[a st1] l1].
  simpl. destruct (f a st1) as [[b st2] l2]. reflexivity.
Qed.

Lemma bind_state {A B : Type} (m : M A) (f : A -> M B) (st : State) :
  state_of (bind m f st) = state_of (f (value_of (m st)) (state_of (m st))).
Proof.
  unfold bind, value_of, state_of. destruct (m st) as [[a st1] l1].
  simpl. destruct (f a st1) as [[b st2] l2]. reflexivity.
Qed.

Lemma bind_log {A B : Type} (m : M A) (f : A -> M B) (st : State) :
  log_of (bind m f st) =
  log_of (m st) ++ log_of (f (value_of (m st)) (state_of (m st))).
Proof.
  unfold bind, value_of, state_of, log_of. destruct (m st) as [[a st1] l1].
  simpl. destruct (f a st1) as [[b st2] l2]. reflexivity.
Qed.

(** ** Following the log *)

Lemma armed_app (l1 l2 : list event) : armed (l1 ++ l2) = (armed l1 + armed l2)%nat.
Proof.
  unfold armed. now rewrite filter_app, length_app.
Qed.

Lemma tail_line_armed (w : World) (text : string) (st : State) :
  armed (log_of (tail_line w text st)) =
  if Contains text ShutdownMarker then 1%nat else 0%nat.
Proof.
  unfold tail_line, bind, emit, slog, emit, get_this, ret, log_of.
  destruct (Contains text ShutdownMarker);
    destruct (DiscordRPC (Config_ (this st)));
    try destruct (Activity_HandleRobloxLog w text); reflexivity.
Qed.

Lemma tail_lines_armed (w : World) (lines : list string) (st : State) :
  armed (log_of (for_each (tail_line w) lines st)) = List.length (marker_lines lines).
Proof.
  revert st. induction lines as [|text lines IH]; intros st.
  - reflexivity.
  - cbn [for_each]. rewrite bind_log, armed_app, tail_line_armed, IH.
    unfold marker_lines. cbn [filter].
    destruct (Contains text ShutdownMarker); reflexivity.
Qed.

(** C1, as the code has it.  [Tail] starts one delayed kill signal for each
    line that holds the shutdown marker: as many timers are armed as there
    are such lines, so exactly one when the marker comes once. *)
Theorem Tail_arms_a_timer_per_marker_line
    (w : World) (name : string) (st : State) (lines : list string) :
  Tail_TailFile w name = Ok lines ->
  armed (log_of (Tail w name st)) = List.length (marker_lines lines).
Proof.
  intros H. unfold Tail. rewrite bind_log, armed_app, H.
  rewrite tail_lines_armed. reflexivity.
Qed.

Lemma Tail_arms_a_timer_per_marker_line_witness :
  armed (log_of (Tail (tail_World (Ok ["a"; "[FLog::SingleSurfaceApp] shutDown: x"]))
                   "log" (sample_State Player "")))
  = 1%nat.
Proof.
  exact (Tail_arms_a_timer_per_marker_line
           (tail_World (Ok ["a"; "[FLog::SingleSurfaceApp] shutDown: x"]))
           "log" (sample_State Player "")
           ["a"; "[FLog::SingleSurfaceApp] shutDown: x"] eq_refl).
Defined.

(** C1, as stated, fails: a log with three marker lines arms three timers,
    not at most one. *)
Lemma Tail_three_markers_three_timers :
  armed (log_of (Tail (tail_World (Ok three_marker_lines)) "log" (sample_State Player "")))
  = 3%nat
  /\ ~ (armed (log_of (Tail (tail_World (Ok three_marker_lines)) "log"
                         (sample_State Player ""))) <= 1)%nat.
Proof.
  assert (E : armed (log_of (Tail (tail_World (Ok three_marker_lines)) "log"
                               (sample_State Player ""))) = 3%nat)
    by (vm_compute; reflexivity).
  split; [exact E|]. rewrite E. lia.
Qed.

(** The call of [Tail] to the library gives no error, whatever the file. *)
Lemma Tail_TailFile_gives_no_error (w : World) (name : string) (err : error) :
  Tail_TailFile w name <> Err err.
Proof.
  unfold Tail_TailFile, tail_TailFile. cbn [MustExist].
  destruct (Tail_Open w name); discriminate.
Qed.

(** C10.  The failure to open the log is not reported.  [Tail] does test
    the error of [tail.TailFile] and logs it, but it makes the call without
    [MustExist], so that the call gives no error when the file cannot be
    opened: the events of [Tail] are then the attempt alone, and the
    message of the claim is not among them, whatever error it would carry.
    The same call under [MustExist] gives the error of the opening, which
    is the error the branch of [Tail] is written for. *)
Theorem Tail_open_failure_not_logged
    (w : World) (name : string) (st : State) (err : error) :
  Tail_Open w name = Some err ->
  Tail_TailFile w name = Ok []
  /\ log_of (Tail w name st) = [TailFile name]
  /\ (forall e,
        ~ In (Slog LError "Could not tail Roblox log file" [("error", VErr (Some e))])
             (log_of (Tail w name st)))
  /\ tail_TailFile (Tail_Open w) (Tail_Lines w) {| Follow := true; MustExist := true |} name
     = Err err.
Proof.
  intros H.
  assert (T : Tail_TailFile w name = Ok []).
  { unfold Tail_TailFile, tail_TailFile. rewrite H. reflexivity. }
  assert (L : log_of (Tail w name st) = [TailFile name]).
  { unfold Tail. rewrite T. reflexivity. }
  split; [exact T|]. split; [exact L|]. split.
  - intros e. rewrite L. intros [F|[]]. discriminate F.
  - unfold tail_TailFile. rewrite H. reflexivity.
Qed.

Lemma Tail_open_failure_not_logged_witness :
  log_of (Tail (tail_World (Err (ErrNew "open 0.log: no such file or directory")))
            "0.log" (sample_State Player ""))
  = [TailFile "0.log"].
Proof.
  exact (proj1 (proj2
    (Tail_open_failure_not_logged
       (tail_World (Err (ErrNew "open 0.log: no such file or directory")))
       "0.log" (sample_State Player "")
       (ErrNew "open 0.log: no such file or directory") eq_refl))).
Defined.

(** ** Finding the log *)

Lemma watch_loop_state (sel : list selected) (st : State) :
  state_of (watch_loop sel st) = st.
Proof.
  induction sel as [|[e|err] sel IH]; cbn [watch_loop].
  - reflexivity.
  - destruct (fsnotify.Has e fsnotify.Create); [reflexivity|exact IH].
  - rewrite bind_state. exact IH.
Qed.

Lemma watch_loop_timeout (sel : list selected) (st : State) :
  (forall x, In x sel -> is_create x = false) ->
  value_of (watch_loop sel st) = Err LogNotFound.
Proof.
  induction sel as [|[e|err] sel IH]; intros H; cbn [watch_loop].
  - reflexivity.
  - pose proof (H (SelEvent e) (or_introl eq_refl)) as He. simpl in He.
    rewrite He. apply IH. intros x Hx. apply H. now right.
  - rewrite bind_value. apply IH. intros x Hx. apply H. now right.
Qed.

Lemma watch_loop_create (pre post : list selected) (e : fsnotify.Event) (st : State) :
  (forall x, In x pre -> is_create x = false) ->
  fsnotify.Has e fsnotify.Create = true ->
  value_of (watch_loop (pre ++ SelEvent e :: post) st) = Ok (fsnotify.Name e).
Proof.
  intros Hpre He. induction pre as [|[e'|err] pre IH]; cbn [app watch_loop].
  - now rewrite He.
  - pose proof (Hpre (SelEvent e') (or_introl eq_refl)) as He'. simpl in He'.
    rewrite He'. apply IH. intros x Hx. apply Hpre. now right.
  - rewrite bind_value. apply IH. intros x Hx. apply Hpre. now right.
Qed.

Lemma watch_loop_logs_errors (pre rest : list selected) (err : error) (st : State) :
  (forall x, In x pre -> is_create x = false) ->
  In (SelError err) pre ->
  In (Slog LError "Recieved fsnotify watcher error" [("error", VErr (Some err))])
     (log_of (watch_loop (pre ++ rest) st)).
Proof.
  intros Hpre Hin. induction pre as [|[e'|err'] pre IH]; cbn [app watch_loop].
  - destruct Hin.
  - pose proof (Hpre (SelEvent e') (or_introl eq_refl)) as He'. simpl in He'.
    rewrite He'. destruct Hin as [Hin|Hin]; [discriminate|].
    apply IH; [|exact Hin]. intros x Hx. apply Hpre. now right.
  - rewrite bind_log. apply in_or_app. destruct Hin as [Hin|Hin].
    + left. injection Hin as ->. now left.
    + right. apply IH; [|exact Hin]. intros x Hx. apply Hpre. now right.
Qed.

(** [RobloxLogFile] when the set-up of the watcher succeeds. *)
Lemma RobloxLogFile_ready (w : World) (ad : string) (st : State) :
  discovery_ready w ad ->
  RobloxLogFile w st =
  (value_of (watch_loop (Selected w) st),
   with_watcher None (add_dir (log_dir ad) st),
   [OsMkdirAll (log_dir ad) 493; FsnotifyNewWatcher; WatcherAdd (log_dir ad);
    TimeNewTimer LogTimeout]
   ++ log_of (watch_loop (Selected w) st) ++ [WatcherClose]).
Proof.
  intros (Had & Hmk & Hnw & Hadd). unfold RobloxLogFile. rewrite Had.
  fold (log_dir ad). unfold bind, emit, modify, ret. rewrite Hmk, Hnw, Hadd.
  set (st2 := add_watch (log_dir ad) (with_watcher (Some []) (add_dir (log_dir ad) st))).
  pose proof (watch_loop_state (Selected w) st2) as Hs.
  assert (Hv : value_of (watch_loop (Selected w) st2)
               = value_of (watch_loop (Selected w) st)).
  { clear. generalize st2. generalize st.
    induction (Selected w) as [|[e|err] sel IH]; intros s1 s2; cbn [watch_loop].
    - reflexivity.
    - destruct (fsnotify.Has e fsnotify.Create); [reflexivity|apply IH].
    - rewrite !bind_value. apply IH. }
  assert (Hl : log_of (watch_loop (Selected w) st2)
               = log_of (watch_loop (Selected w) st)).
  { clear. generalize st2. generalize st.
    induction (Selected w) as [|[e|err] sel IH]; intros s1 s2; cbn [watch_loop].
    - reflexivity.
    - destruct (fsnotify.Has e fsnotify.Create); [reflexivity|apply IH].
    - rewrite !bind_log. f_equal. apply IH. }
  rewrite <- Hv, <- Hl.
  destruct (watch_loop (Selected w) st2) as [[r s] l].
  unfold state_of, value_of, log_of in *. simpl in *. subst s.
  reflexivity.
Qed.

Lemma RobloxLogFile_releases (w : World) (st : State) :
  watcher st = None -> watcher (state_of (RobloxLogFile w st)) = None.
Proof.
  intros H. unfold RobloxLogFile.
  destruct (Prefix_AppDataDir w) as [ad [e|]]; [exact H|].
  unfold bind, emit, modify, ret.
  destruct (MkdirAll w _); [exact H|].
  destruct (NewWatcher w); [exact H|].
  destruct (Watcher_Add w _); [reflexivity|].
  destruct (watch_loop _ _) as [[r s] l]. reflexivity.
Qed.

(** Once a watcher is made, closing it is the last thing [RobloxLogFile]
    does, also when the directory cannot be added to it. *)
Lemma RobloxLogFile_closes (w : World) (st : State) (ad : string) :
  Prefix_AppDataDir w = (ad, None) -> MkdirAll w (log_dir ad) = None ->
  NewWatcher w = None ->
  exists l, log_of (RobloxLogFile w st) = l ++ [WatcherClose].
Proof.
  intros Had Hmk Hnw.
  destruct (Watcher_Add w (log_dir ad)) as [e|] eqn:Hadd.
  - exists [OsMkdirAll (log_dir ad) 493; FsnotifyNewWatcher; WatcherAdd (log_dir ad)].
    unfold RobloxLogFile. rewrite Had. fold (log_dir ad).
    unfold bind, emit, modify, ret. rewrite Hmk, Hnw, Hadd. reflexivity.
  - rewrite (RobloxLogFile_ready w ad st (conj Had (conj Hmk (conj Hnw Hadd)))).
    exists ([OsMkdirAll (log_dir ad) 493; FsnotifyNewWatcher; WatcherAdd (log_dir ad);
             TimeNewTimer LogTimeout] ++ log_of (watch_loop (Selected w) st)).
    unfold log_of at 1. cbn [snd]. now rewrite <- app_assoc.
Qed.

Lemma add_dir_In (dir : string) (st : State) : In dir (dirs (add_dir dir st)).
Proof.
  unfold add_dir, with_dirs. simpl.
  destruct (existsb (String.eqb dir) (dirs st)) eqn:E.
  - apply existsb_exists in E. destruct E as (x & Hx & Heq).
    apply String.eqb_eq in Heq. now subst x.
  - now left.
Qed.

(** C5.  Log discovery.  No watcher is left open when [RobloxLogFile]
    returns, whichever way it returns; once a watcher is made, closing it is
    the last call, also when the set-up fails after that.  When the set-up
    succeeds, the log
    directory exists afterwards; the result is the name of the first
    creation event received before the timer; it is the error [LogNotFound]
    when the timer comes before any creation event; and a watcher error
    received in between is logged and does not end the wait. *)
Theorem RobloxLogFile_discovery (w : World) (st : State) :
  (watcher st = None -> watcher (state_of (RobloxLogFile w st)) = None)
  /\
  (forall ad,
     Prefix_AppDataDir w = (ad, None) -> MkdirAll w (log_dir ad) = None ->
     NewWatcher w = None ->
     exists l, log_of (RobloxLogFile w st) = l ++ [WatcherClose])
  /\
  (forall ad, discovery_ready w ad ->
     In (log_dir ad) (dirs (state_of (RobloxLogFile w st)))
     /\ (forall pre e post,
           Selected w = pre ++ SelEvent e :: post ->
           (forall x, In x pre -> is_create x = false) ->
           fsnotify.Has e fsnotify.Create = true ->
           value_of (RobloxLogFile w st) = Ok (fsnotify.Name e))
     /\ ((forall x, In x (Selected w) -> is_create x = false) ->
         value_of (RobloxLogFile w st) = Err LogNotFound)
     /\ (forall pre rest err,
           Selected w = pre ++ rest ->
           (forall x, In x pre -> is_create x = false) ->
           In (SelError err) pre ->
           In (Slog LError "Recieved fsnotify watcher error" [("error", VErr (Some err))])
              (log_of (RobloxLogFile w st)))).
Proof.
  split; [apply RobloxLogFile_releases|]. split; [apply RobloxLogFile_closes|].
  intros ad Hready. rewrite (RobloxLogFile_ready w ad st Hready).
  unfold value_of at 1 3, state_of, log_of at 1. cbn [fst snd].
  repeat split.
  - apply add_dir_In.
  - intros pre e post -> Hpre He. now apply watch_loop_create.
  - apply watch_loop_timeout.
  - intros pre rest err -> Hpre Hin.
    apply in_or_app. right. apply in_or_app. left.
    now apply watch_loop_logs_errors.
Qed.

Lemma RobloxLogFile_discovery_witness :
  value_of (RobloxLogFile (discovery_World sample_selected) (sample_State Player ""))
  = Ok "/pfx/drive_c/users/u/AppData/Local/Roblox/logs/0.log"
  /\ value_of (RobloxLogFile (discovery_World [SelError (ErrNew "overflow")])
                 (sample_State Player ""))
     = Err LogNotFound
  /\ watcher (state_of (RobloxLogFile (discovery_World sample_selected)
                          (sample_State Player ""))) = None.
Proof.
  assert (R : forall sel, discovery_ready (discovery_World sel) "/pfx/drive_c/users/u/AppData")
    by (intros sel; repeat split; reflexivity).
  split; [|split].
  - apply (proj1 (proj2 (proj2 (proj2 (RobloxLogFile_discovery (discovery_World sample_selected)
                                  (sample_State Player ""))) _ (R sample_selected)))
             (firstn 2 sample_selected)
             {| fsnotify.Name := "/pfx/drive_c/users/u/AppData/Local/Roblox/logs/0.log";
                fsnotify.Op := fsnotify.Create |}
             (skipn 3 sample_selected)).
    + reflexivity.
    + intros x H. in_cases; reflexivity.
    + reflexivity.
  - apply (proj1 (proj2 (proj2 (proj2 (proj2
             (RobloxLogFile_discovery (discovery_World [SelError (ErrNew "overflow")])
                (sample_State Player ""))) _ (R [SelError (ErrNew "overflow")]))))).
    intros x H. in_cases; reflexivity.
  - apply (proj1 (RobloxLogFile_discovery (discovery_World sample_selected)
                    (sample_State Player ""))).
    reflexivity.
Defined.

(** ** After the launch *)

Lemma watch_loop_no_side (sel : list selected) (st : State) :
  filter post_launch_side (log_of (watch_loop sel st)) = [].
Proof.
  revert st. induction sel as [|[e|err] sel IH]; intros st; cbn [watch_loop].
  - reflexivity.
  - destruct (fsnotify.Has e fsnotify.Create); [reflexivity|apply IH].
  - rewrite bind_log, filter_app, IH. reflexivity.
Qed.

Lemma RobloxLogFile_no_side (w : World) (st : State) :
  filter post_launch_side (log_of (RobloxLogFile w st)) = [].
Proof.
  unfold RobloxLogFile.
  destruct (Prefix_AppDataDir w) as [ad [e|]]; [reflexivity|].
  unfold bind, emit, modify, ret.
  destruct (MkdirAll w _); [reflexivity|].
  destruct (NewWatcher w); [reflexivity|].
  destruct (Watcher_Add w _); [reflexivity|].
  match goal with |- context [watch_loop ?s ?x] =>
    pose proof (watch_loop_no_side s x) as H;
    destruct (watch_loop s x) as [[r s'] l] end.
  unfold log_of in *. cbn [snd fst] in *. cbn [app filter post_launch_side].
  rewrite !filter_app, H. reflexivity.
Qed.

(** [PostLaunch] when the log is not found. *)
Lemma PostLaunch_not_found (w : World) (st : State) (pid : Z) (err : error) :
  Process w = Some pid ->
  value_of (RobloxLogFile w st) = Err err ->
  PostLaunch w st =
  (tt, state_of (RobloxLogFile w st),
   log_of (RobloxLogFile w st)
   ++ [Slog LError "Failed to find Roblox log file" [("error", VStr (Error err))]]).
Proof.
  intros Hp Hv. unfold PostLaunch. rewrite Hp. unfold bind.
  destruct (RobloxLogFile w st) as [[r s] l].
  unfold value_of, state_of, log_of in *. cbn [fst snd] in *. subst r.
  reflexivity.
Qed.

(** C8.  A failed log discovery is recoverable.  The goroutine that looked
    for the log writes the error to the log and returns: it closes no
    splash, registers with no performance mode, follows no file, and kills
    nothing.  And what [Execute] does and returns is the same whatever the
    log discovery answers: the run goes on to the classification of the
    exit of the process. *)
Theorem log_discovery_failure_is_recoverable (w : World) (st : State) (err : error) :
  value_of (RobloxLogFile w st) = Err err ->
  (forall pid, Process w = Some pid ->
     PostLaunch w st =
     (tt, state_of (RobloxLogFile w st),
      log_of (RobloxLogFile w st)
      ++ [Slog LError "Failed to find Roblox log file" [("error", VStr (Error err))]]))
  /\ filter post_launch_side (log_of (PostLaunch w st)) = []
  /\ (forall args st' ad mk nw add sel,
        Execute (with_discovery w ad mk nw add sel) args st' = Execute w args st').
Proof.
  intros Hv. split; [|split].
  - intros pid Hp. now apply (PostLaunch_not_found w st pid).
  - destruct (Process w) as [pid|] eqn:Hp.
    + rewrite (PostLaunch_not_found w st pid err Hp Hv).
      unfold log_of at 1. cbn [snd]. rewrite filter_app, RobloxLogFile_no_side.
      reflexivity.
    + unfold PostLaunch. rewrite Hp. reflexivity.
  - intros. reflexivity.
Qed.

Lemma log_discovery_failure_is_recoverable_witness :
  filter post_launch_side
    (log_of (PostLaunch (discovery_World [SelError (ErrNew "overflow")])
               (sample_State Player ""))) = [].
Proof.
  exact (proj1 (proj2 (log_discovery_failure_is_recoverable
                         (discovery_World [SelError (ErrNew "overflow")])
                         (sample_State Player "") LogNotFound eq_refl))).
Defined.

(** ** The command *)

Lemma fields_runes_open (f : Z -> bool) (rs : list (Z * string)) (cur : string) :
  fields_runes f rs (Some cur) <> [].
Proof.
  revert cur. induction rs as [|[r bytes] rs IH]; intros cur; cbn [fields_runes].
  - discriminate.
  - destruct (f r); [discriminate|apply IH].
Qed.

Lemma fields_runes_empty_iff (f : Z -> bool) (rs : list (Z * string)) :
  fields_runes f rs None = [] <-> forallb (fun r => f (fst r)) rs = true.
Proof.
  induction rs as [|[r bytes] rs IH]; cbn [fields_runes forallb fst].
  - split; reflexivity.
  - destruct (f r); cbn [andb].
    + exact IH.
    + split; [|discriminate]. intros H. now apply fields_runes_open in H.
Qed.

(** [strings.Fields] finds no field exactly in a string of white space. *)
Lemma Fields_empty_iff (s : string) : Fields s = [] <-> blank s = true.
Proof.
  unfold Fields, FieldsFunc, blank. apply fields_runes_empty_iff.
Qed.

(** The index [args[0]] of [Command] is in range. *)
Lemma protocol_args_in_range (args : list string) :
  HasPrefix (Join args " ") "roblox-studio:1" = true -> args <> [].
Proof.
  destruct args; [discriminate|]. intros _. discriminate.
Qed.

(** C7.  With a configured launcher that has at least one token, [Command]
    puts the tokens of the launcher in front of the arguments of the Wine
    command and takes the resolved path of the launcher as the path of the
    command; when the path of the launcher cannot be resolved it returns
    the error, wrapped as a bad launcher, and no command. *)
Theorem Command_launcher (w : World) (b : Binary) (args : list string) :
  Fields (Launcher (Config_ b)) <> [] ->
  (forall p, LauncherPath w (Launcher (Config_ b)) = (p, None) ->
     Command w b args =
     Ok {| Path := p;
           Args := Fields (Launcher (Config_ b)) ++ Args (base_command w b args) |})
  /\
  (forall p e, LauncherPath w (Launcher (Config_ b)) = (p, Some e) ->
     Command w b args = Err (Errorf "bad launcher" e)).
Proof.
  intros Hne. unfold Command, base_command.
  destruct (Fields (Launcher (Config_ b))) as [|tok toks] eqn:E; [contradiction|].
  cbn [List.length Nat.leb].
  split; intros; rewrite H; reflexivity.
Qed.

Lemma Command_launcher_witness :
  Command (sample_World None ("/usr/bin/gamescope", None) None None [] (Ok []))
    (sample_Binary Player " gamescope -f -- ") ["-app"]
  = Ok {| Path := "/usr/bin/gamescope";
          Args := ["gamescope"; "-f"; "--"; "wine";
                   "/home/u/.local/share/vinegar/versions/version-1/RobloxPlayerBeta.exe";
                   "-app"] |}
  /\ Command (sample_World None ("", Some (ErrNew "executable file not found in $PATH"))
                None None [] (Ok []))
       (sample_Binary Player "gamescope") ["-app"]
     = Err (Errorf "bad launcher" (ErrNew "executable file not found in $PATH")).
Proof.
  split.
  - exact (proj1 (Command_launcher
                    (sample_World None ("/usr/bin/gamescope", None) None None [] (Ok []))
                    (sample_Binary Player " gamescope -f -- ") ["-app"]
                    ltac:(discriminate))
             "/usr/bin/gamescope" eq_refl).
  - exact (proj2 (Command_launcher
                    (sample_World None ("", Some (ErrNew "executable file not found in $PATH"))
                       None None [] (Ok []))
                    (sample_Binary Player "gamescope") ["-app"]
                    ltac:(discriminate))
             "" (ErrNew "executable file not found in $PATH") eq_refl).
Defined.

(** ** Running the process *)

Lemma Execute_body_state (w : World) (args : list string) (st : State) :
  state_of (Execute_body w args st) = st.
Proof.
  unfold Execute_body, bind, get_this, emit, slog, emit, ret, state_of.
  destruct (MultipleInstances (GlobalConfig (this st)) && is_Player (Type_ (this st)));
    [destruct (Mutexer_Start w)|]; cbn [fst snd]; try reflexivity;
    (destruct (Command w (this st) args); [|reflexivity]);
    (destruct (Run_err w); [|reflexivity]);
    destruct (ExitCode (ProcessState w) =? -1)%Z; reflexivity.
Qed.

(** [Execute_body] once the command is built. *)
Lemma Execute_body_runs (w : World) (args : list string) (st : State) (cmd : Cmd) :
  reaches_run w (this st) args cmd ->
  value_of (Execute_body w args st) =
    match Run_err w with
    | Some err =>
        if (ExitCode (ProcessState w) =? -1)%Z
        then None
        else Some (Errorf "roblox process" err)
    | None => None
    end
  /\ In (CmdRun cmd) (log_of (Execute_body w args st)).
Proof.
  intros [Hmut Hcmd].
  unfold Execute_body, bind, get_this, emit, slog, emit, ret, value_of, log_of.
  destruct (MultipleInstances (GlobalConfig (this st)) && is_Player (Type_ (this st))).
  - rewrite (Hmut eq_refl). cbn [fst snd]. rewrite Hcmd.
    destruct (Run_err w); [destruct (ExitCode (ProcessState w) =? -1)%Z|];
      cbn; split; try reflexivity; intuition.
  - cbn [fst snd]. rewrite Hcmd.
    destruct (Run_err w); [destruct (ExitCode (ProcessState w) =? -1)%Z|];
      cbn; split; try reflexivity; intuition.
Qed.

(** [Execute] around [Execute_body]. *)
Lemma Execute_around_body (w : World) (args : list string) (st : State) :
  value_of (Execute w args st) = value_of (Execute_body w args (after_connect w st))
  /\ state_of (Execute w args st) = after_connect w st
  /\ (forall e, In e (log_of (Execute_body w args (after_connect w st))) ->
                In e (log_of (Execute w args st))).
Proof.
  pose proof (Execute_body_state w args (after_connect w st)) as Hs.
  unfold Execute, after_connect in *.
  unfold bind, get_this, emit, slog, emit, modify_this, modify, ret.
  destruct (DiscordRPC (Config_ (this st)));
    [destruct (Activity_Connect w)|]; cbn [fst snd] in *;
    match goal with |- context [Execute_body w args ?x] =>
      destruct (Execute_body w args x) as [[r s] l] end;
    unfold value_of, state_of, log_of in *; cbn [fst snd] in *; subst s;
    repeat split; intros ev Hev; cbn [app]; rewrite ?app_nil_r;
    try (right; right); try right; try (apply in_or_app; left); exact Hev.
Qed.

(** C2.  The classification of the exit.  Once [Execute] has run the
    process: it returns no error when the recorded exit code is the
    sentinel -1 of a killed process, and when the run fails with another
    exit code it returns the error of the run wrapped with the context
    [roblox process]. *)
Theorem Execute_classification
    (w : World) (args : list string) (st : State) (cmd : Cmd) :
  reaches_run w (this st) args cmd ->
  In (CmdRun cmd) (log_of (Execute w args st))
  /\ (ExitCode (ProcessState w) = (-1)%Z -> value_of (Execute w args st) = None)
  /\ (forall err,
        Run_err w = Some err -> ExitCode (ProcessState w) <> (-1)%Z ->
        value_of (Execute w args st) = Some (Errorf "roblox process" err)).
Proof.
  intros Hreach.
  destruct (Execute_around_body w args st) as (Hv & _ & Hl).
  assert (Hreach' : reaches_run w (this (after_connect w st)) args cmd).
  { unfold after_connect. destruct (DiscordRPC (Config_ (this st)));
      [destruct (Activity_Connect w)|]; exact Hreach. }
  destruct (Execute_body_runs w args _ cmd Hreach') as [Hb Hin].
  rewrite Hv, Hb. split; [|split].
  - apply Hl, Hin.
  - intros Hk. rewrite Hk. destruct (Run_err w); reflexivity.
  - intros err Herr Hne. rewrite Herr.
    destruct (Z.eqb_spec (ExitCode (ProcessState w)) (-1)); [contradiction|reflexivity].
Qed.

Lemma Execute_classification_witness :
  value_of (Execute (run_World (Some (ErrNew "signal: killed")) (Some (Signaled SIGKILL)))
              [] (sample_State Player "")) = None
  /\ value_of (Execute (run_World (Some (ErrNew "exit status 1")) (Some (Exited 1)))
                 [] (sample_State Player ""))
     = Some (Errorf "roblox process" (ErrNew "exit status 1")).
Proof.
  split.
  - refine (proj1 (proj2 (Execute_classification
             (run_World (Some (ErrNew "signal: killed")) (Some (Signaled SIGKILL)))
             [] (sample_State Player "")
             (base_command (run_World None None) (sample_Binary Player "") []) _)) eq_refl).
    split; [discriminate|reflexivity].
  - refine (proj2 (proj2 (Execute_classification
             (run_World (Some (ErrNew "exit status 1")) (Some (Exited 1)))
             [] (sample_State Player "")
             (base_command (run_World None None) (sample_Binary Player "") []) _))
             (ErrNew "exit status 1") eq_refl _).
    + split; [discriminate|reflexivity].
    + discriminate.
Defined.

(** ** Initialisation *)

(** [Init] on a warm prefix. *)
Lemma Init_warm (w : World) (st : State) :
  first_run w = false -> Init w st = (None, st, [OsStat (marker_path w)]).
Proof.
  unfold first_run, Init. fold (marker_path w). intros H.
  apply orb_false_iff in H. destruct H as [Hs Hf].
  run_monad. rewrite Hs, Hf. reflexivity.
Qed.

(** The calls of [Init] on a first run, in their order. *)
Lemma Init_first_log (w : World) (st : State) :
  first_run w = true ->
  log_of (Init w st) =
  OsStat (marker_path w)
  :: avx_warning w
  ++ [Slog LInfo "Initializing wineprefix" [("dir", VStr (Prefix_Dir w))];
      SplashSetMessage "Initializing wineprefix";
      sandbox_init (Type_ (this st))]
  ++ match sandbox_init_result w (Type_ (this st)) with
     | Some _ => []
     | None => [CallInstallWebView]
     end.
Proof.
  unfold first_run, Init, avx_warning, sandbox_init, sandbox_init_result.
  fold (marker_path w). intros H. run_monad.
  destruct (match Stat w (marker_path w) with Some _ => true | None => false end);
    destruct (CPU_AVX w); cbn [andb negb orb fst snd] in *;
    try rewrite H;
    destruct (Type_ (this st));
    try destruct (Prefix_Init w); try destruct (Prefix_SetDPI w 97);
    cbn [fst snd];
    try destruct (InstallWebView w (this st)) as [b' [e'|]];
    reflexivity.
Qed.

(** The result of [Init] on a first run. *)
Lemma Init_first_value (w : World) (st : State) :
  first_run w = true ->
  value_of (Init w st) =
  match sandbox_init_result w (Type_ (this st)) with
  | Some e =>
      Some (Errorf ("failed to init " ++ Type_String w (Type_ (this st)) ++ " prefix") e)
  | None =>
      match snd (InstallWebView w (this st)) with
      | Some e => Some (Errorf "failed to install webview" e)
      | None => None
      end
  end.
Proof.
  unfold first_run, Init, sandbox_init_result.
  fold (marker_path w). intros H. run_monad.
  destruct (match Stat w (marker_path w) with Some _ => true | None => false end);
    destruct (CPU_AVX w); cbn [andb negb orb fst snd] in *;
    try rewrite H;
    destruct (Type_ (this st));
    try destruct (Prefix_Init w); try destruct (Prefix_SetDPI w 97);
    cbn [fst snd];
    try destruct (InstallWebView w (this st)) as [b' [e'|]];
    reflexivity.
Qed.

Lemma Init_starts_nothing (w : World) (st : State) :
  filter starts_process (log_of (Init w st)) = [].
Proof.
  destruct (first_run w) eqn:F.
  - rewrite (Init_first_log w st F). unfold avx_warning, sandbox_init.
    destruct (_ && _); destruct (Type_ (this st));
      destruct (sandbox_init_result w _); reflexivity.
  - rewrite (Init_warm w st F). reflexivity.
Qed.

(** [Run] when [Init] fails: nothing comes after [Init]. *)
Lemma Run_init_failure (w : World) (args : list string) (st : State) (e : error) :
  value_of (Init w st) = Some e ->
  Run w args st =
  (Some (Errorf ("init " ++ Type_String w (Type_ (this (state_of (Init w st))))) e),
   state_of (Init w st), log_of (Init w st)).
Proof.
  intros H. unfold Run. run_monad. unfold value_of in H.
  destruct (Init w st) as [[v s] l]. cbn [fst snd] in *. subst v.
  rewrite app_nil_r. reflexivity.
Qed.

(** C6.  First-run initialisation.  [Init] calls the initialisation of the
    sandbox that fits the variant ([Prefix.Init] for Player, [SetDPI(97)]
    for Studio) exactly when the marker path is absent or the first-run
    flag is set, and installs the web view right after it, as its last
    call, when that initialisation succeeds.  On a run with the marker
    present and no flag both steps are skipped.  A failure of either step
    makes [Init] fail, and then [Run] returns that error under the context
    of the initialisation, having started no process. *)
Theorem first_run_initialisation (w : World) (args : list string) (st : State) :
  (In (sandbox_init (Type_ (this st))) (log_of (Init w st)) <-> first_run w = true)
  /\ (In CallInstallWebView (log_of (Init w st)) <->
      first_run w = true /\ sandbox_init_result w (Type_ (this st)) = None)
  /\ (first_run w = true -> sandbox_init_result w (Type_ (this st)) = None ->
      exists before,
        log_of (Init w st) =
        before ++ [sandbox_init (Type_ (this st)); CallInstallWebView])
  /\ (first_run w = false -> Init w st = (None, st, [OsStat (marker_path w)]))
  /\ (first_run w = true ->
      sandbox_init_result w (Type_ (this st)) <> None
      \/ snd (InstallWebView w (this st)) <> None ->
      value_of (Init w st) <> None)
  /\ (forall e, value_of (Init w st) = Some e ->
      Run w args st =
      (Some (Errorf ("init " ++ Type_String w (Type_ (this (state_of (Init w st))))) e),
       state_of (Init w st), log_of (Init w st))
      /\ filter starts_process (log_of (Run w args st)) = []).
Proof.
  repeat match goal with |- _ /\ _ => split end.
  - split.
    + intros H. destruct (first_run w) eqn:F; [reflexivity|].
      rewrite (Init_warm w st F) in H. unfold log_of in H. cbn [snd] in H.
      destruct (Type_ (this st)); in_cases.
    + intros F. rewrite (Init_first_log w st F).
      right. apply in_or_app. right. apply in_or_app. left.
      right. right. now left.
  - split.
    + intros H. destruct (first_run w) eqn:F.
      * split; [reflexivity|]. rewrite (Init_first_log w st F) in H.
        destruct (sandbox_init_result w (Type_ (this st))); [|reflexivity].
        exfalso. unfold avx_warning, sandbox_init in H.
        destruct (_ && _); destruct (Type_ (this st)); in_cases.
      * rewrite (Init_warm w st F) in H. unfold log_of in H. in_cases.
    + intros [F R]. rewrite (Init_first_log w st F), R.
      right. apply in_or_app. right. apply in_or_app. right. now left.
  - intros F R. rewrite (Init_first_log w st F), R.
    exists (OsStat (marker_path w) :: avx_warning w
            ++ [Slog LInfo "Initializing wineprefix" [("dir", VStr (Prefix_Dir w))];
                SplashSetMessage "Initializing wineprefix"]).
    cbn [app]. f_equal. rewrite <- app_assoc. reflexivity.
  - apply Init_warm.
  - intros F H. rewrite (Init_first_value w st F).
    destruct (sandbox_init_result w (Type_ (this st))); [discriminate|].
    destruct (snd (InstallWebView w (this st))); [discriminate|].
    destruct H as [H|H]; now contradiction H.
  - intros e H. split.
    + now apply Run_init_failure.
    + rewrite (Run_init_failure w args st e H). apply Init_starts_nothing.
Qed.

Lemma first_run_initialisation_witness :
  Init (init_World None) (sample_State Player "")
  = (None, sample_State Player "", [OsStat (marker_path (init_World None))])
  /\ filter starts_process
       (log_of (Run webview_failure_World ["-app"] (sample_State Studio ""))) = [].
Proof.
  split.
  - exact (proj1 (proj2 (proj2 (proj2
             (first_run_initialisation (init_World None) [] (sample_State Player ""))))) eq_refl).
  - exact (proj2 (proj2 (proj2 (proj2 (proj2 (proj2
             (first_run_initialisation webview_failure_World ["-app"]
                (sample_State Studio ""))))))
             (Errorf "failed to install webview" (ErrNew "download webview: timeout"))
             eq_refl)).
Defined.

(** ** The channel across a run *)

Lemma Init_state (w : World) (st : State) :
  state_of (Init w st) = st
  \/ state_of (Init w st) = with_this (fst (InstallWebView w (this st))) st.
Proof.
  unfold Init. run_monad.
  destruct (match Stat w _ with Some _ => true | None => false end);
    destruct (CPU_AVX w); cbn [andb negb orb fst snd];
    try destruct (FirstRun w);
    try destruct (Type_ (this st));
    try destruct (Prefix_Init w); try destruct (Prefix_SetDPI w 97);
    cbn [fst snd]; auto;
    destruct (InstallWebView w (this st)) as [b' [e'|]]; cbn [fst snd]; auto.
Qed.

Lemma Init_Channel (w : World) (st : State) :
  keeps_Channel (InstallWebView w) ->
  Channel_after (Init w st) = Channel (Config_ (this st)).
Proof.
  intros K. unfold Channel_after.
  destruct (Init_state w st) as [-> | ->]; [reflexivity|apply K].
Qed.

Lemma Execute_Channel (w : World) (args : list string) (st : State) :
  Channel_after (Execute w args st) = Channel (Config_ (this st)).
Proof.
  unfold Channel_after.
  destruct (Execute_around_body w args st) as (_ & -> & _).
  unfold after_connect.
  destruct (DiscordRPC (Config_ (this st))); [destruct (Activity_Connect w)|];
    reflexivity.
Qed.

(** The handler on the only string [Run] hands to it. *)
Lemma HandleProtocolURI_roblox (st : State) :
  HandleProtocolURI "roblox-" st = (tt, st, []).
Proof. reflexivity. Qed.

Lemma Run_protocol_noop (args : list string) (st : State) :
  Run_protocol args st = (tt, st, []).
Proof.
  destruct args as [|a [|a' args]]; try reflexivity.
  unfold Run_protocol. destruct (String.eqb_spec a "roblox-") as [->|_];
    reflexivity.
Qed.

(** C9.  [Run] hands its argument to the handler of protocol URIs only when
    it is the one argument [roblox-]; on that string the handler changes
    nothing; so, the methods [InstallWebView] and [Setup] of the other
    files leaving the channel alone, the configured channel after [Run] is
    the channel before it, whatever the arguments. *)
Theorem Run_keeps_Channel (w : World) :
  keeps_Channel (InstallWebView w) ->
  keeps_Channel (Setup w) ->
  forall (args : list string) (st : State),
    (args <> ["roblox-"] -> Run_protocol args st = ret tt st)
    /\ Run_protocol ["roblox-"] st = HandleProtocolURI "roblox-" st
    /\ HandleProtocolURI "roblox-" st = (tt, st, [])
    /\ Channel_after (Run w args st) = Channel (Config_ (this st)).
Proof.
  intros KW KS args st.
  repeat match goal with |- _ /\ _ => split end; try reflexivity.
  - intros Hne. destruct args as [|a [|a' args]]; try reflexivity.
    unfold Run_protocol. destruct (String.eqb_spec a "roblox-") as [->|_];
      [contradiction|reflexivity].
  - pose proof (Init_Channel w st KW) as HI.
    unfold Run, Channel_after in *. run_monad.
    destruct (Init w st) as [[v s1] l1]. cbn [fst snd] in *.
    change (Channel (Config_ (this s1)) = Channel (Config_ (this st))) in HI.
    destruct v as [e|]; cbn [fst snd]; [exact HI|].
    rewrite Run_protocol_noop.
    pose proof (KS (this s1)) as HS.
    destruct (Setup w (this s1)) as [b2 [e|]]; cbn [fst snd] in *.
    + cbn [this with_this]. congruence.
    + pose proof (Execute_Channel w args (with_this b2 s1)) as HE.
      unfold Channel_after, state_of in HE.
      destruct (Execute w args (with_this b2 s1)) as [[v3 s3] l3].
      cbn [fst snd this with_this] in *.
      destruct v3; cbn [fst snd]; congruence.
Qed.

Lemma Run_keeps_Channel_witness :
  Channel_after (Run (init_World (Some (ErrNew "stat: no such file or directory")))
                   ["roblox-"] (sample_State Player ""))
  = "LIVE".
Proof.
  exact (proj2 (proj2 (proj2
    (Run_keeps_Channel (init_World (Some (ErrNew "stat: no such file or directory")))
       (fun b => eq_refl) (fun b => eq_refl)
       ["roblox-"] (sample_State Player ""))))).
Defined.

(** ** Holding the signals *)

Module SupervisorFacts.
Import SignalSupervisor.

Lemma received_app (l1 l2 : list event) :
  received (l1 ++ l2) = (received l1 + received l2)%nat.
Proof. unfold received. now rewrite filter_app, length_app. Qed.

Lemma kills_app (l1 l2 : list event) :
  kills (l1 ++ l2) = (kills l1 + kills l2)%nat.
Proof. unfold kills. now rewrite filter_app, length_app. Qed.

Lemma init_inv : supervisor_inv init.
Proof. repeat split. Qed.

Lemma deliver_keeps (s : Signal) (st : T) :
  at_ (deliver s st) = at_ st
  /\ log (deliver s st) = log st
  /\ notified (deliver s st) = notified st.
Proof. unfold deliver. destruct (subscribed st s); repeat split. Qed.

Lemma handler_inv (st st' : T) :
  supervisor_inv st -> handler st = Some st' -> supervisor_inv st'.
Proof.
  unfold handler, supervisor_inv. intros I H.
  destruct (at_ st) eqn:A; destruct I as (Ir & Ik & In).
  - destruct (c st) as [|s rest]; [discriminate|].
    injection H as <-. cbn [at_ log notified].
    rewrite received_app, kills_app, Ir, Ik. repeat split; assumption.
  - destruct (exited st).
    + injection H as <-. unfold goto. cbn [at_ log notified].
      rewrite app_nil_r. repeat split; try assumption. lia.
    + destruct (Process_ st) as [pid|]; injection H as <-; unfold goto;
        cbn [at_ log notified]; rewrite received_app, kills_app, Ir, Ik;
        repeat split; assumption.
  - injection H as <-. unfold goto. cbn [at_ log notified].
    rewrite app_nil_r. repeat split; try assumption. lia.
  - injection H as <-. cbn [at_ log notified].
    rewrite received_app, kills_app, Ir. repeat split.
    change (kills [SignalStop]) with 0%nat. lia.
  - discriminate.
  - discriminate.
Qed.

Lemma step_inv (l : label) (st st' : T) :
  supervisor_inv st -> step l st = Some st' -> supervisor_inv st'.
Proof.
  unfold step. intros I H. destruct (over st); [discriminate|].
  destruct l as [s| |pid|].
  - injection H as <-. destruct (deliver_keeps s st) as (Ha & Hl & Hn).
    unfold supervisor_inv in *. rewrite Ha, Hl, Hn. exact I.
  - now apply (handler_inv st).
  - destruct (Process_ st); [discriminate|]. injection H as <-. exact I.
  - destruct (Process_ st); [|discriminate].
    destruct (exited st); [discriminate|]. injection H as <-. exact I.
Qed.

Lemma exec_inv (sched : list label) (st st' : T) :
  supervisor_inv st -> exec sched st = Some st' -> supervisor_inv st'.
Proof.
  revert st. induction sched as [|l sched IH]; intros st I H; cbn [exec] in H.
  - now injection H as <-.
  - destruct (step l st) as [st1|] eqn:E; [|discriminate].
    apply (IH st1); [|exact H]. now apply (step_inv l st).
Qed.

(** C3, as the code has it.  In every run of the goroutine beside the
    deliveries of signals and the life of the process: it takes at most
    one signal from the channel and issues at most one kill; at its
    check it issues the kill exactly when no exit state is recorded (and
    the process handle is there); once it has returned, having called
    [signal.Stop] after the kill came back, a signal that is delivered is
    not relayed to the channel and keeps its default disposition; while
    it is still inside the kill, a qualifying signal is still relayed to
    the channel. *)
Theorem supervisor_single_shot (sched : list label) (st : T) :
  exec sched init = Some st ->
  ((received (log st) <= 1)%nat /\ (kills (log st) <= 1)%nat)
  /\ (forall s st',
        at_ st = AtCheck s -> step Handler st = Some st' ->
        (kills (log st') = 1%nat <-> exited st = false /\ Process_ st <> None))
  /\ (at_ st = Returned ->
      forall s st',
        step (Deliver s) st = Some st' ->
        relayed st' = relayed st /\ defaulted st' = defaulted st ++ [s])
  /\ (at_ st = InKill ->
      forall s st',
        qualifying s = true -> step (Deliver s) st = Some st' ->
        relayed st' = relayed st ++ [s] /\ defaulted st' = defaulted st).
Proof.
  intros H. pose proof (exec_inv sched init st init_inv H) as I.
  unfold supervisor_inv in I.
  repeat match goal with |- _ /\ _ => split end.
  - destruct (at_ st); lia.
  - destruct (at_ st); lia.
  - intros s st' A Hs. rewrite A in I. destruct I as (_ & Ik & _).
    unfold step in Hs. destruct (over st); [discriminate|].
    unfold handler in Hs. rewrite A in Hs.
    destruct (exited st).
    + injection Hs as <-. unfold goto. cbn [log]. rewrite app_nil_r, Ik.
      split; [discriminate|]. intros [E _]. discriminate.
    + destruct (Process_ st) as [pid|]; injection Hs as <-; unfold goto; cbn [log].
      * rewrite kills_app, Ik. split; [|reflexivity].
        intros _. split; [reflexivity|discriminate].
      * rewrite app_nil_r, Ik. split; [discriminate|]. intros [_ E]. now contradiction E.
  - intros A s st' Hs. rewrite A in I. destruct I as (_ & _ & N).
    unfold step in Hs. destruct (over st); [discriminate|].
    injection Hs as <-. unfold deliver, subscribed. rewrite N. cbn [existsb].
    split; reflexivity.
  - intros A s st' Q Hs. rewrite A in I. destruct I as (_ & _ & N).
    unfold step in Hs. destruct (over st); [discriminate|].
    injection Hs as <-. unfold deliver, subscribed. rewrite N.
    unfold qualifying, subscribed in Q. cbn [init notified] in Q. rewrite Q.
    split; reflexivity.
Qed.

Lemma supervisor_single_shot_witness :
  at_ returned_state = Returned
  /\ relayed (deliver SIGTERM returned_state) = relayed returned_state
  /\ defaulted (deliver SIGTERM returned_state) = [SIGTERM].
Proof.
  split; [reflexivity|].
  exact (proj1 (proj2 (proj2 (supervisor_single_shot handled_once returned_state eq_refl)))
           eq_refl SIGTERM (deliver SIGTERM returned_state) eq_refl).
Defined.

(** C3, as stated, fails: while the kill of the goroutine has not
    returned, [signal.Stop] has not been called, and a second qualifying
    signal is still relayed to the channel instead of taking its default
    disposition. *)
Lemma second_signal_caught_while_kill_hangs :
  option_map at_ (exec hanging_kill init) = Some InKill
  /\ option_map relayed (exec (hanging_kill ++ [Deliver SIGTERM]) init)
     = Some [SIGINT; SIGTERM]
  /\ option_map defaulted (exec (hanging_kill ++ [Deliver SIGTERM]) init) = Some []
  /\ ~ second_signal_passes hanging_kill SIGTERM.
Proof.
  repeat match goal with |- _ /\ _ => split end; try reflexivity.
  intros H.
  specialize (H in_kill_state (deliver SIGTERM in_kill_state) eq_refl).
  assert (E : relayed (deliver SIGTERM in_kill_state) = relayed in_kill_state).
  { apply H; [discriminate|reflexivity]. }
  vm_compute in E. discriminate E.
Qed.

End SupervisorFacts.

(** * Further properties of the code *)

(** ** [Execute]: the presence reporting, the mutexer, the order of the launch *)

Lemma Execute_body_mutexer_failure (w : World) (args : list string) (st : State) (e : error) :
  mutexer_wanted (this st) = true -> Mutexer_Start w = Some e ->
  Execute_body w args st =
  (Some (Errorf "start robloxmutexer" e), st,
   [Slog LInfo "Running robloxmutexer" [];
    MutexerStart (filepath_Join [BinPrefix w; "robloxmutexer.exe"])]).
Proof.
  unfold mutexer_wanted, Execute_body. intros Hw He. run_monad.
  rewrite Hw, He. reflexivity.
Qed.

Lemma Execute_body_command_failure (w : World) (args : list string) (st : State) (e : error) :
  (mutexer_wanted (this st) = true -> Mutexer_Start w = None) ->
  Command w (this st) args = Err e ->
  Execute_body w args st =
  (Some (Errorf (Type_String w (Type_ (this st)) ++ " command") e), st,
   mutexer_events w (this st)).
Proof.
  unfold mutexer_wanted, mutexer_events, Execute_body. intros Hm Hc. run_monad.
  unfold mutexer_wanted.
  destruct (MultipleInstances (GlobalConfig (this st)) && is_Player (Type_ (this st))).
  - rewrite (Hm eq_refl). cbn [fst snd]. rewrite Hc. reflexivity.
  - cbn [fst snd]. rewrite Hc. reflexivity.
Qed.

Lemma Execute_body_run_log (w : World) (args : list string) (st : State) (cmd : Cmd) :
  reaches_run w (this st) args cmd ->
  log_of (Execute_body w args st) =
  mutexer_events w (this st) ++ launch_events (this st) cmd
  ++ match Run_err w with
     | Some _ =>
         if (ExitCode (ProcessState w) =? -1)%Z
         then [Slog LWarn "Roblox was killed!" []]
         else []
     | None => []
     end.
Proof.
  unfold reaches_run, mutexer_events, launch_events, Execute_body, mutexer_wanted.
  intros [Hm Hc]. run_monad.
  destruct (MultipleInstances (GlobalConfig (this st)) && is_Player (Type_ (this st))).
  - rewrite (Hm eq_refl). cbn [fst snd]. rewrite Hc.
    destruct (Run_err w); [destruct (ExitCode (ProcessState w) =? -1)%Z|]; reflexivity.
  - cbn [fst snd]. rewrite Hc.
    destruct (Run_err w); [destruct (ExitCode (ProcessState w) =? -1)%Z|]; reflexivity.
Qed.

(** [Execute] is the attempt to connect, [Execute_body], and the deferred
    close. *)
Lemma Execute_log (w : World) (args : list string) (st : State) :
  log_of (Execute w args st) =
  connect_events w (this st)
  ++ log_of (Execute_body w args (after_connect w st))
  ++ (if connected w (this st) then [ActivityClose] else []).
Proof.
  unfold Execute, after_connect, connect_events, connected.
  unfold bind, get_this, emit, slog, emit, modify_this, modify, ret.
  destruct (DiscordRPC (Config_ (this st)));
    [destruct (Activity_Connect w)|]; cbn [fst snd andb];
    match goal with |- context [Execute_body w args ?x] =>
      destruct (Execute_body w args x) as [[r s] l] end;
    unfold log_of; cbn [fst snd app]; rewrite ?app_nil_r; reflexivity.
Qed.

Lemma Execute_body_no_activity (w : World) (args : list string) (st : State) :
  filter is_close (log_of (Execute_body w args st)) = []
  /\ filter is_connect (log_of (Execute_body w args st)) = [].
Proof.
  unfold Execute_body. run_monad.
  destruct (MultipleInstances (GlobalConfig (this st)) && is_Player (Type_ (this st)));
    [destruct (Mutexer_Start w)|]; cbn [fst snd]; try (split; reflexivity);
    (destruct (Command w (this st) args); [|split; reflexivity]);
    (destruct (Run_err w); [|split; reflexivity]);
    destruct (ExitCode (ProcessState w) =? -1)%Z; split; reflexivity.
Qed.

(** What [Execute_body] reads of the receiver is what it was before the
    attempt to connect. *)
Lemma after_connect_reads (w : World) (st : State) :
  mutexer_wanted (this (after_connect w st)) = mutexer_wanted (this st)
  /\ (forall args, Command w (this (after_connect w st)) args = Command w (this st) args)
  /\ Type_ (this (after_connect w st)) = Type_ (this st)
  /\ Name (this (after_connect w st)) = Name (this st)
  /\ Alias (this (after_connect w st)) = Alias (this st).
Proof.
  unfold after_connect.
  destruct (DiscordRPC (Config_ (this st))); [destruct (Activity_Connect w)|];
    repeat split; reflexivity.
Qed.

Lemma connect_events_plain (w : World) (b : Binary) :
  filter is_close (connect_events w b) = []
  /\ filter is_mutexer (connect_events w b) = []
  /\ filter is_launch (connect_events w b) = []
  /\ List.length (filter is_connect (connect_events w b))
     = if DiscordRPC (Config_ b) then 1%nat else 0%nat.
Proof.
  unfold connect_events.
  destruct (DiscordRPC (Config_ b)); [destruct (Activity_Connect w)|];
    repeat split; reflexivity.
Qed.

Lemma mutexer_events_plain (w : World) (b : Binary) :
  filter is_launch (mutexer_events w b) = []
  /\ List.length (filter is_mutexer (mutexer_events w b))
     = if mutexer_wanted b then 1%nat else 0%nat.
Proof.
  unfold mutexer_events. destruct (mutexer_wanted b); split; reflexivity.
Qed.

(** X1.  The presence reporting in [Execute].  The connection is closed
    exactly when it was made, and then closing it is the last thing
    [Execute] does, on every way out; it is attempted exactly when the
    feature is on.  When the attempt fails, the feature is switched off in
    the configuration and nothing else of the state changes; otherwise the
    state is as before. *)
Theorem Execute_presence_connection (w : World) (args : list string) (st : State) :
  List.length (filter is_close (log_of (Execute w args st)))
  = (if connected w (this st) then 1%nat else 0%nat)
  /\ List.length (filter is_connect (log_of (Execute w args st)))
     = (if DiscordRPC (Config_ (this st)) then 1%nat else 0%nat)
  /\ (connected w (this st) = true ->
      exists l, log_of (Execute w args st) = l ++ [ActivityClose])
  /\ (forall err,
        DiscordRPC (Config_ (this st)) = true -> Activity_Connect w = Some err ->
        state_of (Execute w args st) = with_this (set_DiscordRPC false (this st)) st
        /\ In (Slog LError "Could not connect to Discord RPC" [("error", VErr (Some err))])
              (log_of (Execute w args st)))
  /\ (DiscordRPC (Config_ (this st)) = false \/ Activity_Connect w = None ->
      state_of (Execute w args st) = st).
Proof.
  pose proof (Execute_log w args st) as HL.
  destruct (Execute_body_no_activity w args (after_connect w st)) as [Hc Hn].
  destruct (connect_events_plain w (this st)) as (Ec & _ & _ & En).
  destruct (Execute_around_body w args st) as (_ & Hs & _).
  repeat match goal with |- _ /\ _ => split end.
  - rewrite HL, !filter_app, Ec, Hc. cbn [app].
    destruct (connected w (this st)); reflexivity.
  - rewrite HL, !filter_app, !length_app, En, Hn.
    destruct (connected w (this st)); cbn; lia.
  - intros C. rewrite HL, C.
    exists (connect_events w (this st) ++ log_of (Execute_body w args (after_connect w st))).
    now rewrite app_assoc.
  - intros err D A. split.
    + rewrite Hs. unfold after_connect. now rewrite D, A.
    + rewrite HL. apply in_or_app. left. unfold connect_events. rewrite D, A.
      right. now left.
  - intros H. rewrite Hs. unfold after_connect.
    destruct H as [D|A]; [now rewrite D|].
    rewrite A. destruct (DiscordRPC (Config_ (this st))); reflexivity.
Qed.

Lemma Execute_presence_connection_witness :
  exists l,
    log_of (Execute (run_World (Some (ErrNew "exit status 1")) (Some (Exited 1)))
              [] (sample_State Player ""))
    = l ++ [ActivityClose].
Proof.
  exact (proj1 (proj2 (proj2
    (Execute_presence_connection
       (run_World (Some (ErrNew "exit status 1")) (Some (Exited 1)))
       [] (sample_State Player "")))) eq_refl).
Defined.

(** X2.  The mutexer in [Execute].  It is started exactly when several
    instances are allowed and the variant is Player; when it does not
    start, [Execute] returns that error under the context
    [start robloxmutexer], without subscribing to the signals and without
    running Roblox. *)
Theorem Execute_mutexer (w : World) (args : list string) (st : State) :
  List.length (filter is_mutexer (log_of (Execute w args st)))
  = (if mutexer_wanted (this st) then 1%nat else 0%nat)
  /\ (forall e,
        mutexer_wanted (this st) = true -> Mutexer_Start w = Some e ->
        value_of (Execute w args st) = Some (Errorf "start robloxmutexer" e)
        /\ filter is_launch (log_of (Execute w args st)) = []).
Proof.
  pose proof (Execute_log w args st) as HL.
  destruct (after_connect_reads w st) as (Hw & _).
  destruct (connect_events_plain w (this st)) as (_ & Em & El & _).
  destruct (Execute_around_body w args st) as (Hv & _ & _).
  split.
  - rewrite HL, !filter_app, !length_app, Em. cbn [List.length Nat.add].
    assert (Hb : List.length (filter is_mutexer
                   (log_of (Execute_body w args (after_connect w st))))
                 = if mutexer_wanted (this st) then 1%nat else 0%nat).
    { rewrite <- Hw. generalize (after_connect w st). intros s.
      unfold Execute_body, mutexer_wanted. run_monad.
      destruct (MultipleInstances (GlobalConfig (this s)) && is_Player (Type_ (this s)));
        [destruct (Mutexer_Start w)|]; cbn [fst snd]; try reflexivity;
        (destruct (Command w (this s) args); [|reflexivity]);
        (destruct (Run_err w); [|reflexivity]);
        destruct (ExitCode (ProcessState w) =? -1)%Z; reflexivity. }
    rewrite Hb. destruct (connected w (this st)); cbn; lia.
  - intros e Hm He. rewrite <- Hw in Hm.
    rewrite Hv, HL, (Execute_body_mutexer_failure w args _ e Hm He).
    split; [reflexivity|].
    unfold log_of. cbn [snd]. rewrite !filter_app, El.
    destruct (connected w (this st)); reflexivity.
Qed.

Lemma Execute_mutexer_witness :
  List.length (filter is_mutexer
    (log_of (Execute (run_World None (Some (Exited 0))) [] (sample_State Studio ""))))
  = 0%nat.
Proof.
  exact (proj1 (Execute_mutexer (run_World None (Some (Exited 0))) []
                  (sample_State Studio ""))).
Defined.

Lemma mutexer_events_after_connect (w : World) (st : State) :
  mutexer_events w (this (after_connect w st)) = mutexer_events w (this st).
Proof.
  unfold mutexer_events. destruct (after_connect_reads w st) as (Hw & _).
  now rewrite Hw.
Qed.

(** What has been started before the command is built. *)
Lemma prelude_started (w : World) (b : Binary) :
  filter is_launch (connect_events w b ++ mutexer_events w b) = []
  /\ filter starts_process (connect_events w b ++ mutexer_events w b)
     = mutexer_processes w b
  /\ filter is_goroutine (connect_events w b ++ mutexer_events w b)
     = mutexer_goroutines b.
Proof.
  unfold connect_events, mutexer_events, mutexer_processes, mutexer_goroutines.
  destruct (DiscordRPC (Config_ b)); [destruct (Activity_Connect w)|];
    destruct (mutexer_wanted b); repeat split; reflexivity.
Qed.

(** X3.  A command that cannot be built.  When [Command] fails, [Execute]
    returns its error under the context of the variant's command.  By then
    it has tried to connect the presence reporting and has started the
    mutexer when the mutexer is wanted, and it does nothing more than to
    close the connection it made: it has not subscribed to the signals,
    started the goroutine of the signals or the goroutine after the launch,
    or run the command of Roblox; the only process it has started is the
    mutexer, and the only goroutine the one that waits for the mutexer,
    both exactly when the mutexer is wanted. *)
Theorem Execute_command_failure
    (w : World) (args : list string) (st : State) (e : error) :
  (mutexer_wanted (this st) = true -> Mutexer_Start w = None) ->
  Command w (this st) args = Err e ->
  value_of (Execute w args st)
  = Some (Errorf (Type_String w (Type_ (this st)) ++ " command") e)
  /\ log_of (Execute w args st)
     = connect_events w (this st) ++ mutexer_events w (this st)
       ++ (if connected w (this st) then [ActivityClose] else [])
  /\ filter is_launch (log_of (Execute w args st)) = []
  /\ filter starts_process (log_of (Execute w args st)) = mutexer_processes w (this st)
  /\ filter is_goroutine (log_of (Execute w args st)) = mutexer_goroutines (this st).
Proof.
  intros Hm Hc.
  pose proof (Execute_log w args st) as HL.
  destruct (after_connect_reads w st) as (Hw & Hcmd & Ht & _).
  destruct (Execute_around_body w args st) as (Hv & _ & _).
  rewrite <- Hw in Hm. rewrite <- Hcmd in Hc.
  rewrite (Execute_body_command_failure w args _ e Hm Hc) in HL, Hv.
  unfold log_of at 2 in HL. cbn [snd] in HL.
  rewrite mutexer_events_after_connect in HL.
  destruct (prelude_started w (this st)) as (Pl & Pp & Pg).
  split; [|split; [exact HL|]].
  - rewrite Hv, Ht. reflexivity.
  - rewrite HL, app_assoc.
    rewrite !(filter_app _ (connect_events w (this st) ++ mutexer_events w (this st))).
    rewrite Pl, Pp, Pg.
    destruct (connected w (this st)); cbn [filter is_launch starts_process is_goroutine];
      rewrite !app_nil_r; repeat split; reflexivity.
Qed.

Lemma Execute_command_failure_witness :
  value_of (Execute (sample_World None ("", Some (ErrNew "executable file not found in $PATH"))
                       None None [] (Ok []))
              ["-app"] (sample_State Player "gamescope"))
  = Some (Errorf "Player command"
            (Errorf "bad launcher" (ErrNew "executable file not found in $PATH")))
  /\ filter starts_process
       (log_of (Execute (sample_World None
                           ("", Some (ErrNew "executable file not found in $PATH"))
                           None None [] (Ok []))
                  ["-app"] (sample_State Player "gamescope")))
     = mutexer_processes
         (sample_World None ("", Some (ErrNew "executable file not found in $PATH"))
            None None [] (Ok []))
         (sample_Binary Player "gamescope").
Proof.
  pose proof (Execute_command_failure
    (sample_World None ("", Some (ErrNew "executable file not found in $PATH"))
       None None [] (Ok []))
    ["-app"] (sample_State Player "gamescope")
    (Errorf "bad launcher" (ErrNew "executable file not found in $PATH"))) as H.
  split; apply H; first [discriminate | reflexivity].
Defined.

(** X4.  The order of the launch.  When [Execute] runs the process, it
    subscribes to the signals and starts the goroutine that holds them
    before it starts the goroutine after the launch and before it runs the
    command of Roblox; this happens once.  Before it come the attempt to
    connect the presence reporting and the mutexer only: nothing there
    subscribes, and the only process and the only goroutine started there
    are the mutexer and the goroutine that waits for it, exactly when the
    mutexer is wanted.  After it nothing subscribes, and no process and no
    goroutine is started. *)
Theorem Execute_launch_order
    (w : World) (args : list string) (st : State) (cmd : Cmd) :
  reaches_run w (this st) args cmd ->
  exists before after,
    log_of (Execute w args st) = before ++ launch_events (this st) cmd ++ after
    /\ before = connect_events w (this st) ++ mutexer_events w (this st)
    /\ filter is_launch before = []
    /\ filter starts_process before = mutexer_processes w (this st)
    /\ filter is_goroutine before = mutexer_goroutines (this st)
    /\ filter is_launch after = []
    /\ filter starts_process after = []
    /\ filter is_goroutine after = [].
Proof.
  intros [Hm Hc].
  pose proof (Execute_log w args st) as HL.
  destruct (after_connect_reads w st) as (Hw & Hcmd & Ht & Hn & Ha).
  assert (R : reaches_run w (this (after_connect w st)) args cmd).
  { split; [|now rewrite Hcmd]. fold (mutexer_wanted (this (after_connect w st))).
    rewrite Hw. exact Hm. }
  rewrite (Execute_body_run_log w args _ cmd R) in HL.
  rewrite mutexer_events_after_connect in HL.
  exists (connect_events w (this st) ++ mutexer_events w (this st)).
  exists (match Run_err w with
          | Some _ =>
              if (ExitCode (ProcessState w) =? -1)%Z
              then [Slog LWarn "Roblox was killed!" []]
              else []
          | None => []
          end ++ (if connected w (this st) then [ActivityClose] else [])).
  destruct (prelude_started w (this st)) as (Pl & Pp & Pg).
  split; [|split; [reflexivity|split; [exact Pl|split; [exact Pp|split; [exact Pg|]]]]].
  - rewrite HL. unfold launch_events. rewrite Hn, Ha.
    rewrite <- !app_assoc. reflexivity.
  - destruct (Run_err w); [destruct (ExitCode (ProcessState w) =? -1)%Z|];
      destruct (connected w (this st)); repeat split; reflexivity.
Qed.

Lemma Execute_launch_order_witness :
  exists before after,
    log_of (Execute (run_World None (Some (Exited 0))) [] (sample_State Player ""))
    = before
      ++ launch_events (sample_Binary Player "")
           (base_command (run_World None None) (sample_Binary Player "") [])
      ++ after
    /\ before
       = connect_events (run_World None (Some (Exited 0))) (sample_Binary Player "")
         ++ mutexer_events (run_World None (Some (Exited 0))) (sample_Binary Player "")
    /\ filter is_launch before = []
    /\ filter starts_process before
       = mutexer_processes (run_World None (Some (Exited 0))) (sample_Binary Player "")
    /\ filter is_goroutine before = mutexer_goroutines (sample_Binary Player "")
    /\ filter is_launch after = []
    /\ filter starts_process after = []
    /\ filter is_goroutine after = [].
Proof.
  apply (Execute_launch_order (run_World None (Some (Exited 0))) []
           (sample_State Player "")
           (base_command (run_World None None) (sample_Binary Player "") [])).
  split; [discriminate|reflexivity].
Defined.

(** ** [Tail]: every line, in order *)

Lemma relayed_lines_app (l1 l2 : list event) :
  relayed_lines (l1 ++ l2) = relayed_lines l1 ++ relayed_lines l2.
Proof. apply flat_map_app. Qed.

Lemma presence_lines_app (l1 l2 : list event) :
  presence_lines (l1 ++ l2) = presence_lines l1 ++ presence_lines l2.
Proof. apply flat_map_app. Qed.

Lemma tail_line_facts (w : World) (text : string) (st : State) :
  state_of (tail_line w text st) = st
  /\ relayed_lines (log_of (tail_line w text st)) = [text]
  /\ presence_lines (log_of (tail_line w text st))
     = (if DiscordRPC (Config_ (this st)) then [text] else [])
  /\ filter is_presence_failure (log_of (tail_line w text st))
     = (if DiscordRPC (Config_ (this st))
        then match Activity_HandleRobloxLog w text with
             | Some err =>
                 [Slog LError "Activity Roblox log handle failed"
                    [("error", VErr (Some err))]]
             | None => []
             end
        else []).
Proof.
  unfold tail_line. run_monad.
  destruct (Contains text ShutdownMarker);
    destruct (DiscordRPC (Config_ (this st)));
    try destruct (Activity_HandleRobloxLog w text);
    repeat split; reflexivity.
Qed.

Lemma tail_lines_facts (w : World) (lines : list string) (st : State) :
  state_of (for_each (tail_line w) lines st) = st
  /\ relayed_lines (log_of (for_each (tail_line w) lines st)) = lines
  /\ presence_lines (log_of (for_each (tail_line w) lines st))
     = (if DiscordRPC (Config_ (this st)) then lines else [])
  /\ List.length (filter is_presence_failure (log_of (for_each (tail_line w) lines st)))
     = (if DiscordRPC (Config_ (this st))
        then List.length (failing_lines w lines) else 0%nat).
Proof.
  induction lines as [|text lines IH]; cbn [for_each].
  - repeat split; destruct (DiscordRPC (Config_ (this st))); reflexivity.
  - destruct (tail_line_facts w text st) as (Hs & Hr & Hp & Hf).
    destruct IH as (IHs & IHr & IHp & IHf).
    rewrite bind_state, bind_log, Hs.
    rewrite relayed_lines_app, presence_lines_app, filter_app, length_app.
    rewrite Hr, Hp, Hf, IHr, IHp, IHf.
    repeat split; try assumption.
    + destruct (DiscordRPC (Config_ (this st))); reflexivity.
    + unfold failing_lines. cbn [filter].
      destruct (DiscordRPC (Config_ (this st))); [|reflexivity].
      destruct (Activity_HandleRobloxLog w text); reflexivity.
Qed.

(** X5.  [Tail] relays every line it receives, unchanged and in the order
    of the log, whatever the lines hold and whatever the presence reporting
    answers; and it leaves the state as it was. *)
Theorem Tail_relays_every_line
    (w : World) (name : string) (st : State) (lines : list string) :
  Tail_TailFile w name = Ok lines ->
  relayed_lines (log_of (Tail w name st)) = lines
  /\ state_of (Tail w name st) = st.
Proof.
  intros H. unfold Tail. rewrite bind_log, bind_state, H.
  destruct (tail_lines_facts w lines st) as (Hs & Hr & _).
  split; [exact Hr|exact Hs].
Qed.

Lemma Tail_relays_every_line_witness :
  relayed_lines (log_of (Tail (tail_World (Ok three_marker_lines)) "0.log"
                           (sample_State Player "")))
  = three_marker_lines.
Proof.
  exact (proj1 (Tail_relays_every_line (tail_World (Ok three_marker_lines)) "0.log"
                  (sample_State Player "") three_marker_lines eq_refl)).
Defined.

(** X6.  [Tail] hands the lines to the presence reporting exactly when the
    feature is on, then every line in order; an error of the presence
    reporting is logged once for each line it fails on and does not stop
    the hand-over of the lines that follow. *)
Theorem Tail_presence_reporting
    (w : World) (name : string) (st : State) (lines : list string) :
  Tail_TailFile w name = Ok lines ->
  presence_lines (log_of (Tail w name st))
  = (if DiscordRPC (Config_ (this st)) then lines else [])
  /\ List.length (filter is_presence_failure (log_of (Tail w name st)))
     = (if DiscordRPC (Config_ (this st))
        then List.length (failing_lines w lines) else 0%nat).
Proof.
  intros H. unfold Tail. rewrite bind_log, H.
  destruct (tail_lines_facts w lines st) as (_ & _ & Hp & Hf).
  rewrite presence_lines_app, filter_app, length_app. split.
  - exact Hp.
  - exact Hf.
Qed.

Lemma Tail_presence_reporting_witness :
  presence_lines (log_of (Tail (tail_World (Ok three_marker_lines)) "0.log"
                            (sample_State Player "")))
  = three_marker_lines.
Proof.
  exact (proj1 (Tail_presence_reporting (tail_World (Ok three_marker_lines)) "0.log"
                  (sample_State Player "") three_marker_lines eq_refl)).
Defined.

(** ** [RobloxLogFile]: when the set-up fails *)

Lemma RobloxLogFile_this (w : World) (st : State) :
  this (state_of (RobloxLogFile w st)) = this st.
Proof.
  unfold RobloxLogFile.
  destruct (Prefix_AppDataDir w) as [ad [e|]]; [reflexivity|].
  unfold bind, emit, modify, ret.
  destruct (MkdirAll w _); [reflexivity|].
  destruct (NewWatcher w); [reflexivity|].
  destruct (Watcher_Add w _); [reflexivity|].
  match goal with |- context [watch_loop ?sel ?x] =>
    pose proof (watch_loop_state sel x) as H;
    destruct (watch_loop sel x) as [[r s] l] end.
  unfold state_of in *. cbn [fst snd] in *. subst s. reflexivity.
Qed.

(** X7.  The set-up of the log discovery.  Each step that fails ends
    [RobloxLogFile] with its error under the context of that step: without
    any call when the application data directory is unknown, without a
    watcher when the directory cannot be made or the watcher cannot be
    made, and with the watcher closed again when the directory cannot be
    added to it.  The timer of the wait is started exactly when the whole
    set-up succeeds. *)
Theorem RobloxLogFile_setup_failure (w : World) (st : State) :
  (forall ad e,
     Prefix_AppDataDir w = (ad, Some e) ->
     RobloxLogFile w st = (Err (Errorf "get appdata" e), st, []))
  /\ (forall ad e,
        Prefix_AppDataDir w = (ad, None) -> MkdirAll w (log_dir ad) = Some e ->
        RobloxLogFile w st =
        (Err (Errorf "create roblox log dir" e), st, [OsMkdirAll (log_dir ad) 493]))
  /\ (forall ad e,
        Prefix_AppDataDir w = (ad, None) -> MkdirAll w (log_dir ad) = None ->
        NewWatcher w = Some e ->
        RobloxLogFile w st =
        (Err (Errorf "make fsnotify watcher" e), add_dir (log_dir ad) st,
         [OsMkdirAll (log_dir ad) 493; FsnotifyNewWatcher]))
  /\ (forall ad e,
        Prefix_AppDataDir w = (ad, None) -> MkdirAll w (log_dir ad) = None ->
        NewWatcher w = None -> Watcher_Add w (log_dir ad) = Some e ->
        RobloxLogFile w st =
        (Err (Errorf "watch roblox log dir" e),
         with_watcher None (add_dir (log_dir ad) st),
         [OsMkdirAll (log_dir ad) 493; FsnotifyNewWatcher; WatcherAdd (log_dir ad);
          WatcherClose]))
  /\ (In (TimeNewTimer LogTimeout) (log_of (RobloxLogFile w st)) <->
      exists ad, discovery_ready w ad).
Proof.
  repeat match goal with |- _ /\ _ => split end.
  - intros ad e H. unfold RobloxLogFile. rewrite H. reflexivity.
  - intros ad e H1 H2. unfold RobloxLogFile. rewrite H1. fold (log_dir ad).
    unfold bind, emit, modify, ret. rewrite H2. reflexivity.
  - intros ad e H1 H2 H3. unfold RobloxLogFile. rewrite H1. fold (log_dir ad).
    unfold bind, emit, modify, ret. rewrite H2, H3. reflexivity.
  - intros ad e H1 H2 H3 H4. unfold RobloxLogFile. rewrite H1. fold (log_dir ad).
    unfold bind, emit, modify, ret. rewrite H2, H3, H4. reflexivity.
  - split.
    + intros H. destruct (Prefix_AppDataDir w) as [ad [e|]] eqn:H1.
      { unfold RobloxLogFile in H. rewrite H1 in H. destruct H. }
      exists ad. unfold discovery_ready.
      unfold RobloxLogFile in H. rewrite H1 in H. fold (log_dir ad) in H.
      unfold bind, emit, modify, ret in H.
      destruct (MkdirAll w (log_dir ad)); [unfold log_of in H; in_cases|].
      destruct (NewWatcher w); [unfold log_of in H; in_cases|].
      destruct (Watcher_Add w (log_dir ad)); [unfold log_of in H; in_cases|].
      repeat split; assumption.
    + intros [ad R]. rewrite (RobloxLogFile_ready w ad st R).
      unfold log_of at 1. cbn [snd]. right. right. right. now left.
Qed.

Lemma RobloxLogFile_setup_failure_witness :
  In (TimeNewTimer LogTimeout)
     (log_of (RobloxLogFile (discovery_World []) (sample_State Player ""))).
Proof.
  apply (proj2 (proj2 (proj2 (proj2 (proj2
    (RobloxLogFile_setup_failure (discovery_World []) (sample_State Player ""))))))).
  exists "/pfx/drive_c/users/u/AppData". repeat split.
Defined.

(** ** After the launch: when the log is found *)

Lemma RegisterGameMode_state (w : World) (pid : Z) (st : State) :
  state_of (RegisterGameMode w pid st) = st.
Proof.
  unfold RegisterGameMode. run_monad.
  destruct (ConnectSessionBus w); [reflexivity|].
  destruct (Call_Err w) as [cerr|]; [|reflexivity].
  destruct (errors_Is same_as_ErrMsgNoObject cerr); reflexivity.
Qed.

Lemma Tail_no_dbus (w : World) (name : string) (st : State) :
  filter is_dbus (log_of (Tail w name st)) = [].
Proof.
  unfold Tail. rewrite bind_log, filter_app.
  destruct (Tail_TailFile w name) as [lines|err]; [|reflexivity].
  cbn [log_of emit snd filter is_dbus app].
  generalize (state_of (emit (TailFile name) st)). intros s. revert s.
  induction lines as [|t lines IH]; intros s; [reflexivity|].
  cbn [for_each]. rewrite bind_log, filter_app, IH, app_nil_r.
  unfold tail_line. run_monad.
  destruct (Contains t ShutdownMarker); destruct (DiscordRPC (Config_ (this s)));
    try destruct (Activity_HandleRobloxLog w t); reflexivity.
Qed.

Lemma RobloxLogFile_no_dbus (w : World) (st : State) :
  filter is_dbus (log_of (RobloxLogFile w st)) = [].
Proof.
  unfold RobloxLogFile.
  destruct (Prefix_AppDataDir w) as [ad [e|]]; [reflexivity|].
  unfold bind, emit, modify, ret.
  destruct (MkdirAll w _); [reflexivity|].
  destruct (NewWatcher w); [reflexivity|].
  destruct (Watcher_Add w _); [reflexivity|].
  match goal with |- context [watch_loop ?sel ?x] =>
    assert (H : filter is_dbus (log_of (watch_loop sel x)) = []);
    [|destruct (watch_loop sel x) as [[r s] l]] end.
  { generalize (Selected w). intros sel.
    match goal with |- context [watch_loop sel ?x] => generalize x end.
    induction sel as [|[e|err] sel IH]; intros s; cbn [watch_loop].
    - reflexivity.
    - destruct (fsnotify.Has e fsnotify.Create); [reflexivity|apply IH].
    - rewrite bind_log, filter_app, IH. reflexivity. }
  unfold log_of in *. cbn [snd fst] in *. cbn [app filter is_dbus].
  rewrite !filter_app, H. reflexivity.
Qed.

(** X8.  The goroutine after the launch, when the log is found.  It does
    nothing at all while the process has not started.  Otherwise, after the
    discovery, it closes the splash, registers the process with the
    performance mode when that is configured, passing the pid as an int32,
    and then follows exactly the file the discovery returned; with the
    performance mode off it makes no D-Bus call. *)
Theorem PostLaunch_found (w : World) (st : State) :
  (Process w = None -> PostLaunch w st = (tt, st, []))
  /\ (forall pid lf,
        Process w = Some pid -> value_of (RobloxLogFile w st) = Ok lf ->
        log_of (PostLaunch w st) =
        log_of (RobloxLogFile w st)
        ++ [SplashClose]
        ++ (if GameMode (Config_ (this st))
            then log_of (RegisterGameMode w (int32 pid) (state_of (RobloxLogFile w st)))
            else [])
        ++ log_of (Tail w lf (state_of (RobloxLogFile w st))))
  /\ (forall pid lf,
        Process w = Some pid -> value_of (RobloxLogFile w st) = Ok lf ->
        GameMode (Config_ (this st)) = false ->
        filter is_dbus (log_of (PostLaunch w st)) = []).
Proof.
  assert (Hlog : forall pid lf,
        Process w = Some pid -> value_of (RobloxLogFile w st) = Ok lf ->
        log_of (PostLaunch w st) =
        log_of (RobloxLogFile w st)
        ++ [SplashClose]
        ++ (if GameMode (Config_ (this st))
            then log_of (RegisterGameMode w (int32 pid) (state_of (RobloxLogFile w st)))
            else [])
        ++ log_of (Tail w lf (state_of (RobloxLogFile w st)))).
  { intros pid lf Hp Hv. unfold PostLaunch. rewrite Hp.
    pose proof (RobloxLogFile_this w st) as Ht.
    pose proof (RegisterGameMode_state w (int32 pid)) as Hg.
    unfold bind, get_this, emit, ret.
    destruct (RobloxLogFile w st) as [[r s1] l1].
    unfold value_of, state_of, log_of in *. cbn [fst snd] in *. subst r.
    rewrite Ht. destruct (GameMode (Config_ (this st))).
    - specialize (Hg s1).
      destruct (RegisterGameMode w (int32 pid) s1) as [[u s2] l2].
      cbn [fst snd] in *. subst s2.
      destruct (Tail w lf s1) as [[u3 s3] l3]. cbn [fst snd app]. reflexivity.
    - cbn [fst snd]. destruct (Tail w lf s1) as [[u3 s3] l3]. reflexivity. }
  split; [|split].
  - intros Hp. unfold PostLaunch. now rewrite Hp.
  - exact Hlog.
  - intros pid lf Hp Hv Hg. rewrite (Hlog pid lf Hp Hv), Hg.
    rewrite !filter_app, RobloxLogFile_no_dbus, Tail_no_dbus. reflexivity.
Qed.

Lemma PostLaunch_found_witness :
  filter is_dbus (log_of (PostLaunch (discovery_World sample_selected)
                            (sample_State Player ""))) = [].
Proof.
  exact (proj2 (proj2 (PostLaunch_found (discovery_World sample_selected)
                         (sample_State Player "")))
           4242%Z "/pfx/drive_c/users/u/AppData/Local/Roblox/logs/0.log"
           eq_refl eq_refl eq_refl).
Defined.

(** ** [RegisterGameMode] *)

(** No error of the model is the no-such-object error for [errors.Is]:
    the errors made by [errors.New] and [fmt.Errorf] have no method [Is],
    and the target cannot be compared. *)
Lemma errors_Is_ErrMsgNoObject (err : error) :
  errors_Is same_as_ErrMsgNoObject err = false.
Proof.
  induction err as [msg|ctx wrapped IH]; cbn [errors_Is same_as_ErrMsgNoObject orb].
  - reflexivity.
  - exact IH.
Qed.

(** X9.  The registration with the performance mode.  It never changes the
    state.  The call is made, with the pid, exactly when the session bus is
    reached.  A failure to reach the bus is logged with its error.  Every
    failure of the call is logged, the no-such-object error of D-Bus
    included, since [errors.Is] cannot match a target of a type that is
    not comparable; and the attribute logged with it is the nil error of
    the connection, not the error of the call.  Without a failure nothing
    is logged as an error. *)
Theorem RegisterGameMode_best_effort (w : World) (pid : Z) (st : State) :
  state_of (RegisterGameMode w pid st) = st
  /\ filter is_dbus_call (log_of (RegisterGameMode w pid st))
     = match ConnectSessionBus w with
       | Some _ => []
       | None => [DBusCall "org.freedesktop.portal.GameMode.RegisterGame" 0 pid]
       end
  /\ (forall err,
        ConnectSessionBus w = Some err ->
        filter is_slog_error (log_of (RegisterGameMode w pid st))
        = [Slog LError "Failed to connect to D-Bus" [("error", VErr (Some err))]])
  /\ (forall cerr,
        ConnectSessionBus w = None -> Call_Err w = Some cerr ->
        filter is_slog_error (log_of (RegisterGameMode w pid st))
        = [Slog LError "Failed to register to GameMode" [("error", VErr None)]])
  /\ (ConnectSessionBus w = None -> Call_Err w = None ->
      filter is_slog_error (log_of (RegisterGameMode w pid st)) = []).
Proof.
  split; [apply RegisterGameMode_state|].
  unfold RegisterGameMode. run_monad.
  destruct (ConnectSessionBus w) as [berr|].
  - repeat split; try discriminate. intros err H. injection H as <-. reflexivity.
  - destruct (Call_Err w) as [cerr|].
    + rewrite errors_Is_ErrMsgNoObject. repeat split; discriminate.
    + repeat split; discriminate.
Qed.

Lemma RegisterGameMode_best_effort_witness :
  filter is_slog_error
    (log_of (RegisterGameMode
               (gamemode_World None
                  (Some (Errorf "call RegisterGame" (ErrNew "No such object"))))
               4242 (sample_State Player "")))
  = [Slog LError "Failed to register to GameMode" [("error", VErr None)]]
  /\ filter is_slog_error
       (log_of (RegisterGameMode
                  (gamemode_World (Some (ErrNew "dial unix: no such file")) None)
                  4242 (sample_State Player "")))
     = [Slog LError "Failed to connect to D-Bus"
          [("error", VErr (Some (ErrNew "dial unix: no such file")))]].
Proof.
  split.
  - exact (proj1 (proj2 (proj2 (proj2
      (RegisterGameMode_best_effort
         (gamemode_World None (Some (Errorf "call RegisterGame" (ErrNew "No such object"))))
         4242 (sample_State Player "")))))
      (Errorf "call RegisterGame" (ErrNew "No such object")) eq_refl eq_refl).
  - exact (proj1 (proj2 (proj2
      (RegisterGameMode_best_effort
         (gamemode_World (Some (ErrNew "dial unix: no such file")) None)
         4242 (sample_State Player ""))))
      (ErrNew "dial unix: no such file") eq_refl).
Defined.

(** ** [Command]: no launcher, and the protocol URI of Studio *)

(** X10.  [Command] without a launcher.  When the configured launcher is
    empty or holds white space only, the white space of [unicode.IsSpace]
    (a no-break space counts), [Command] returns the Wine command for the
    executable of the variant as it is, and does not depend on the
    resolution of a launcher path; and whenever [Command] fails, the error
    is that of the resolution of the launcher path, under the context
    [bad launcher], and the launcher is not blank. *)
Theorem Command_without_launcher (w : World) (b : Binary) (args : list string) :
  (blank (Launcher (Config_ b)) = true ->
   Command w b args = Ok (base_command w b args))
  /\ (forall e,
        Command w b args = Err e ->
        exists e', e = Errorf "bad launcher" e'
                   /\ snd (LauncherPath w (Launcher (Config_ b))) = Some e'
                   /\ blank (Launcher (Config_ b)) = false).
Proof.
  unfold Command, base_command. split.
  - intros H. apply Fields_empty_iff in H. rewrite H. reflexivity.
  - intros e H.
    destruct (Fields (Launcher (Config_ b))) as [|tok toks] eqn:F.
    + discriminate H.
    + cbn [List.length Nat.leb] in H.
      destruct (LauncherPath w (Launcher (Config_ b))) as [p [e'|]]; [|discriminate H].
      injection H as <-. exists e'. repeat split.
      destruct (blank (Launcher (Config_ b))) eqn:A; [|reflexivity].
      apply Fields_empty_iff in A. rewrite A in F. discriminate F.
Qed.

Lemma Command_without_launcher_witness :
  Command (sample_World None ("", Some (ErrNew "executable file not found in $PATH"))
             None None [] (Ok []))
    (sample_Binary Studio "   ") ["-ide"]
  = Ok {| Path := "/usr/bin/wine";
          Args := ["wine";
                   "/home/u/.local/share/vinegar/versions/version-1/RobloxStudioBeta.exe";
                   "-ide"] |}
  /\ Command (sample_World None ("", Some (ErrNew "executable file not found in $PATH"))
                None None [] (Ok []))
       (sample_Binary Studio NBSP) ["-ide"]
     = Ok {| Path := "/usr/bin/wine";
             Args := ["wine";
                      "/home/u/.local/share/vinegar/versions/version-1/RobloxStudioBeta.exe";
                      "-ide"] |}.
Proof.
  split.
  - exact (proj1 (Command_without_launcher
      (sample_World None ("", Some (ErrNew "executable file not found in $PATH"))
         None None [] (Ok []))
      (sample_Binary Studio "   ") ["-ide"]) eq_refl).
  - exact (proj1 (Command_without_launcher
      (sample_World None ("", Some (ErrNew "executable file not found in $PATH"))
         None None [] (Ok []))
      (sample_Binary Studio NBSP) ["-ide"]) eq_refl).
Defined.

Lemma HasPrefix_append (a s p : string) :
  HasPrefix a p = true -> HasPrefix (a ++ s) p = true.
Proof.
  revert a. induction p as [|c p IH]; intros a H; [reflexivity|].
  destruct a as [|x a]; [discriminate H|].
  cbn [HasPrefix append] in *. apply andb_true_iff in H. destruct H as [Hx Ha].
  rewrite Hx. cbn [andb]. now apply IH.
Qed.

Lemma HasPrefix_before_sep (sep : ascii) (a s p : string) :
  has_byte sep p = false ->
  HasPrefix (a ++ String sep s) p = true -> HasPrefix a p = true.
Proof.
  revert a. induction p as [|c p IH]; intros a Hp H; [reflexivity|].
  cbn [has_byte] in Hp. apply orb_false_iff in Hp. destruct Hp as [Hc Hp].
  destruct a as [|x a]; cbn [HasPrefix append] in *.
  - apply andb_true_iff in H. destruct H as [H _].
    apply Ascii.eqb_eq in H. subst c. rewrite Ascii.eqb_refl in Hc. discriminate Hc.
  - apply andb_true_iff in H. destruct H as [Hx Ha].
    rewrite Hx. cbn [andb]. now apply IH.
Qed.

(** X11.  The protocol URI of Studio.  The arguments are rewritten exactly
    when the first argument itself begins with [roblox-studio:1] (so the
    index [args[0]] is always in range); they then become the flag
    [-protocolString] and that first argument, the other arguments being
    dropped; in every other case they are passed on as they are. *)
Theorem protocol_args_studio_uri (args : list string) :
  (HasPrefix (Join args " ") "roblox-studio:1" = true <->
   exists a rest, args = a :: rest /\ HasPrefix a "roblox-studio:1" = true)
  /\ (forall a rest,
        HasPrefix a "roblox-studio:1" = true ->
        protocol_args (a :: rest) = ["-protocolString"; a])
  /\ (HasPrefix (hd "" args) "roblox-studio:1" = false -> protocol_args args = args).
Proof.
  assert (J : forall a rest,
             HasPrefix (Join (a :: rest) " ") "roblox-studio:1"
             = HasPrefix a "roblox-studio:1").
  { intros a rest. destruct rest as [|b rest]; [reflexivity|].
    change (Join (a :: b :: rest) " ")
      with (a ++ String " " (Join (b :: rest) " "))%string.
    destruct (HasPrefix a "roblox-studio:1") eqn:Ha.
    - now apply HasPrefix_append.
    - destruct (HasPrefix (a ++ String " " (Join (b :: rest) " ")) "roblox-studio:1") eqn:H;
        [|reflexivity].
      apply HasPrefix_before_sep in H; [congruence|reflexivity]. }
  split; [|split].
  - split.
    + destruct args as [|a rest]; [discriminate|].
      intros H. exists a, rest. split; [reflexivity|]. now rewrite <- J with (rest := rest).
    + intros (a & rest & -> & Ha). now rewrite J.
  - intros a rest Ha. unfold protocol_args. rewrite J, Ha. reflexivity.
  - intros H. unfold protocol_args. destruct args as [|a rest]; [reflexivity|].
    rewrite J. cbn [hd] in H. now rewrite H.
Qed.

Lemma protocol_args_studio_uri_witness :
  protocol_args ["roblox-studio:1+launchmode:edit"; "-extra"; "x"]
  = ["-protocolString"; "roblox-studio:1+launchmode:edit"].
Proof.
  exact (proj1 (proj2 (protocol_args_studio_uri []))
           "roblox-studio:1+launchmode:edit" ["-extra"; "x"] eq_refl).
Defined.

(** ** [HandleProtocolURI]: what it writes, whatever the string *)

Lemma handle_uri_fragment (uri : string) (st : State) :
  state_of (handle_uri uri st) = with_channel (fragment_channel uri) st
  /\ forallb is_channel_warning (log_of (handle_uri uri st)) = true.
Proof.
  unfold handle_uri, fragment_channel.
  destruct (Split uri ":") as [|k [|c [|x l]]]; try (split; reflexivity).
  destruct (String.eqb k "channel"); [|split; reflexivity].
  destruct (String.eqb c ""); split; reflexivity.
Qed.

Lemma fragment_channel_nonempty (uri c : string) :
  fragment_channel uri = Some c -> c <> "".
Proof.
  unfold fragment_channel.
  destruct (Split uri ":") as [|k [|v [|x l]]]; try discriminate.
  destruct (String.eqb k "channel"); [|discriminate].
  destruct (String.eqb_spec v ""); [discriminate|].
  cbn. intros H. now injection H as <-.
Qed.

Lemma picked_nonempty (frags : list string) (c : string) :
  picked frags = Some c -> c <> "".
Proof.
  induction frags as [|f rest IH]; [discriminate|]. cbn [picked].
  destruct (picked rest) as [c'|].
  - intros H. injection H as <-. now apply IH.
  - apply fragment_channel_nonempty.
Qed.

Lemma with_channel_twice (c d : option string) (st : State) :
  with_channel d (with_channel c st)
  = with_channel (match d with Some x => Some x | None => c end) st.
Proof. destruct c, d; reflexivity. Qed.

Lemma for_each_handle_uri (frags : list string) (st : State) :
  state_of (for_each handle_uri frags st) = with_channel (picked frags) st
  /\ forallb is_channel_warning (log_of (for_each handle_uri frags st)) = true.
Proof.
  revert st. induction frags as [|f rest IH]; intros st; cbn [for_each picked].
  - split; reflexivity.
  - destruct (handle_uri_fragment f st) as [Hs Hl].
    rewrite bind_state, bind_log, Hs, forallb_app, Hl.
    destruct (IH (with_channel (fragment_channel f) st)) as [IHs IHl].
    rewrite IHs, IHl, with_channel_twice. split; reflexivity.
Qed.

(** X12.  Whatever the string, [HandleProtocolURI] writes nothing but the
    channel: either the state is as before, or it is the state before with
    a new channel, and that channel is not empty; and all it logs is the
    warning of a channel change. *)
Theorem HandleProtocolURI_writes_only_channel (mime : string) (st : State) :
  (state_of (HandleProtocolURI mime st) = st
   \/ exists c, c <> ""
                /\ state_of (HandleProtocolURI mime st)
                   = with_this (set_Channel c (this st)) st)
  /\ forallb is_channel_warning (log_of (HandleProtocolURI mime st)) = true.
Proof.
  unfold HandleProtocolURI.
  destruct (for_each_handle_uri (Split mime "+") st) as [Hs Hl].
  split; [|exact Hl]. rewrite Hs.
  destruct (picked (Split mime "+")) as [c|] eqn:P.
  - right. exists c. split; [|reflexivity]. now apply (picked_nonempty _ c P).
  - now left.
Qed.

(** X13.  Handling the same protocol URI a second time changes nothing
    more: the state after two passes is the state after one. *)
Theorem HandleProtocolURI_idempotent (mime : string) (st : State) :
  state_of (HandleProtocolURI mime (state_of (HandleProtocolURI mime st)))
  = state_of (HandleProtocolURI mime st).
Proof.
  unfold HandleProtocolURI.
  destruct (for_each_handle_uri (Split mime "+") st) as [Hs _].
  destruct (for_each_handle_uri (Split mime "+")
              (state_of (for_each handle_uri (Split mime "+") st))) as [Hs2 _].
  rewrite Hs2, Hs, with_channel_twice.
  destruct (picked (Split mime "+")); reflexivity.
Qed.

(** ** [Run]: its stages and their errors *)

(** [Run] after an [Init] without error. *)
Lemma Run_after_Init (w : World) (args : list string) (st : State) :
  value_of (Init w st) = None ->
  Run w args st =
  let s1 := state_of (Init w st) in
  let desc := [SplashSetDesc (Channel (Config_ (this s1))); CallSetup] in
  match snd (Setup w (this s1)) with
  | Some e =>
      (Some (Errorf "failed to setup roblox" e),
       with_this (fst (Setup w (this s1))) s1,
       log_of (Init w st) ++ desc)
  | None =>
      let r := Execute w args (with_this (fst (Setup w (this s1))) s1) in
      (match value_of r with
       | Some e => Some (Errorf "failed to run roblox" e)
       | None => None
       end,
       state_of r,
       log_of (Init w st) ++ desc ++ log_of r)
  end.
Proof.
  intros H. unfold Run. run_monad. unfold value_of in H.
  destruct (Init w st) as [[v s1] l1]. cbn [fst snd] in *. subst v.
  rewrite Run_protocol_noop. cbn [fst snd].
  destruct (Setup w (this s1)) as [b2 [e|]]; cbn [fst snd].
  - rewrite app_nil_r. reflexivity.
  - destruct (Execute w args (with_this b2 s1)) as [[v3 s3] l3]. cbn [fst snd].
    destruct v3; cbn [fst snd app]; rewrite ?app_nil_r; reflexivity.
Qed.

(** X14.  The stages of [Run].  Every error [Run] returns is the error of a
    stage under the context of that stage: the initialisation, the set-up,
    or the run of Roblox.  When the set-up fails after a good
    initialisation, [Run] has shown the channel on the splash and called
    the set-up, and has started no process.  And [Run] returns no error
    only when the initialisation and the set-up both succeeded. *)
Theorem Run_stages (w : World) (args : list string) (st : State) :
  (forall e,
     value_of (Run w args st) = Some e ->
     exists inner,
       e = Errorf ("init " ++ Type_String w (Type_ (this (state_of (Init w st))))) inner
       \/ e = Errorf "failed to setup roblox" inner
       \/ e = Errorf "failed to run roblox" inner)
  /\ (forall e,
        value_of (Init w st) = None ->
        snd (Setup w (this (state_of (Init w st)))) = Some e ->
        value_of (Run w args st) = Some (Errorf "failed to setup roblox" e)
        /\ log_of (Run w args st)
           = log_of (Init w st)
             ++ [SplashSetDesc (Channel (Config_ (this (state_of (Init w st)))));
                 CallSetup]
        /\ filter starts_process (log_of (Run w args st)) = [])
  /\ (value_of (Run w args st) = None ->
      value_of (Init w st) = None
      /\ snd (Setup w (this (state_of (Init w st)))) = None).
Proof.
  split; [|split].
  - intros e H. destruct (value_of (Init w st)) as [ei|] eqn:HI.
    + rewrite (Run_init_failure w args st ei HI) in H.
      unfold value_of in H. cbn [fst] in H. injection H as <-.
      exists ei. now left.
    + rewrite (Run_after_Init w args st HI) in H. cbn zeta in H.
      destruct (snd (Setup w (this (state_of (Init w st))))) as [es|].
      * unfold value_of in H. cbn [fst] in H. injection H as <-.
        exists es. right. now left.
      * unfold value_of at 1 in H. cbn [fst] in H.
        destruct (value_of (Execute w args _)) as [ee|]; [|discriminate H].
        injection H as <-. exists ee. right. now right.
  - intros e HI HS. rewrite (Run_after_Init w args st HI). cbn zeta. rewrite HS.
    pose proof (Init_starts_nothing w st) as Hn.
    unfold value_of, log_of in *. cbn [fst snd].
    repeat split. rewrite filter_app, Hn. reflexivity.
  - intros H. destruct (value_of (Init w st)) as [ei|] eqn:HI.
    + rewrite (Run_init_failure w args st ei HI) in H. discriminate H.
    + split; [reflexivity|].
      rewrite (Run_after_Init w args st HI) in H. cbn zeta in H.
      destruct (snd (Setup w (this (state_of (Init w st))))) as [es|];
        [discriminate H|reflexivity].
Qed.

Lemma Run_stages_witness :
  value_of (Run setup_failure_World ["-app"] (sample_State Player ""))
  = Some (Errorf "failed to setup roblox" (ErrNew "fetch deployment: timeout"))
  /\ filter starts_process
       (log_of (Run setup_failure_World ["-app"] (sample_State Player ""))) = [].
Proof.
  destruct (proj1 (proj2 (Run_stages setup_failure_World ["-app"] (sample_State Player "")))
              (ErrNew "fetch deployment: timeout") eq_refl eq_refl) as (Hv & _ & Hn).
  exact (conj Hv Hn).
Defined.

(** ** The goroutine that holds the signals: the channel, an early signal,
    a run without signal *)

Module SupervisorMore.
Import SignalSupervisor.

Lemma init_inv2 : supervisor_inv2 init.
Proof. repeat split; try (cbn; lia); try discriminate. Qed.

Lemma step_inv2 (l : label) (st st' : T) :
  supervisor_inv st -> supervisor_inv2 st -> step l st = Some st' ->
  supervisor_inv2 st'.
Proof.
  unfold step, supervisor_inv2. intros I (Hc & Hr & He & Hn) H.
  destruct (over st); [discriminate|].
  destruct l as [s| |pid|].
  - injection H as <-. unfold deliver.
    destruct (subscribed st s) eqn:Sub; cbn [c relayed exited Process_ at_ log].
    + split; [|split; [|split]].
      * destruct (c st) as [|x [|y r]]; cbn in *; lia.
      * rewrite forallb_app, Hr. cbn [forallb andb]. rewrite andb_true_r.
        unfold qualifying, subscribed in *. unfold supervisor_inv in I.
        destruct (at_ st); destruct I as (_ & _ & N); rewrite N in Sub;
          try exact Sub; discriminate Sub.
      * exact He.
      * intros E. apply app_eq_nil in E. destruct E as [_ E]. discriminate E.
    + split; [|split; [|split]]; assumption.
  - assert (R : at_ st <> AtReceive -> relayed st <> []).
    { intros A E. destruct (Hn E) as (E' & _). contradiction. }
    unfold handler in H. destruct (at_ st) eqn:A.
    + destruct (c st) as [|s rest] eqn:C; [discriminate|].
      injection H as <-. cbn [c relayed exited Process_ at_ log].
      split; [|split; [|split]]; try assumption.
      * cbn in Hc. lia.
      * intros E. destruct (Hn E) as (_ & E' & _). discriminate E'.
    + remember (exited st) as ex eqn:X in H.
      remember (Process_ st) as pr eqn:Y in H.
      destruct ex; [|destruct pr];
        injection H as <-; unfold goto; cbn [c relayed exited Process_ at_ log];
        (split; [|split; [|split]]); try assumption;
        intros E; exfalso; apply R; first [discriminate | exact E].
    + injection H as <-. unfold goto. cbn [c relayed exited Process_ at_ log].
      split; [|split; [|split]]; try assumption.
      intros E; exfalso; apply R; [discriminate|exact E].
    + injection H as <-. cbn [c relayed exited Process_ at_ log].
      split; [|split; [|split]]; try assumption.
      intros E; exfalso; apply R; [discriminate|exact E].
    + discriminate.
    + discriminate.
  - destruct (Process_ st) eqn:P; [discriminate|]. injection H as <-.
    cbn [c relayed exited Process_ at_ log].
    split; [|split; [|split]]; try assumption. intros _. discriminate.
  - destruct (Process_ st) eqn:P; [|discriminate].
    destruct (exited st); [discriminate|]. injection H as <-.
    cbn [c relayed exited Process_ at_ log].
    split; [|split; [|split]]; try assumption. intros _. discriminate.
Qed.

Lemma exec_invs (sched : list label) (st st' : T) :
  supervisor_inv st -> supervisor_inv2 st -> exec sched st = Some st' ->
  supervisor_inv st' /\ supervisor_inv2 st'.
Proof.
  revert st. induction sched as [|l sched IH]; intros st I I2 H; cbn [exec] in H.
  - injection H as <-. now split.
  - destruct (step l st) as [st1|] eqn:E; [|discriminate].
    apply (IH st1); [| |exact H].
    + now apply (SupervisorFacts.step_inv l st).
    + now apply (step_inv2 l st).
Qed.

Lemma reachable_invs (sched : list label) (st : T) :
  exec sched init = Some st -> supervisor_inv st /\ supervisor_inv2 st.
Proof.
  apply exec_invs; [apply SupervisorFacts.init_inv|apply init_inv2].
Qed.

(** X15.  Without a signal the goroutine never lets go.  In every run in
    which no subscribed signal has been delivered, the goroutine is still
    blocked on the channel, has done nothing, and the three signals are
    still subscribed, also after the process has exited.  The subscription
    is released exactly when the goroutine has returned. *)
Theorem supervisor_keeps_subscription (sched : list label) (st : T) :
  exec sched init = Some st ->
  (relayed st = [] ->
   at_ st = AtReceive /\ log st = []
   /\ notified st = [SIGINT; SIGTERM; SIGUSR1])
  /\ (notified st = [] <-> at_ st = Returned).
Proof.
  intros H. destruct (reachable_invs sched st H) as [I (_ & _ & _ & Hn)].
  unfold supervisor_inv in I. split.
  - intros E. destruct (Hn E) as (A & _ & L). rewrite A in I.
    destruct I as (_ & _ & N). repeat split; assumption.
  - split.
    + intros N. destruct (at_ st); destruct I as (_ & _ & N'); try reflexivity;
        rewrite N in N'; discriminate N'.
    + intros A. rewrite A in I. now destruct I as (_ & _ & N).
Qed.

Lemma supervisor_keeps_subscription_witness :
  exited quiet_state = true
  /\ at_ quiet_state = AtReceive
  /\ notified quiet_state = [SIGINT; SIGTERM; SIGUSR1].
Proof.
  split; [reflexivity|].
  destruct (proj1 (supervisor_keeps_subscription quiet_run quiet_state eq_refl) eq_refl)
    as (A & _ & N).
  exact (conj A N).
Defined.

(** X16.  A signal that comes before the process has started.  When the
    goroutine stands at its check with no process handle yet, no exit
    state is recorded either, and its next step is the panic of reading
    the pid through the nil handle: it logs nothing more, issues no kill,
    does not release the subscription, and nothing can happen after it. *)
Theorem supervisor_early_signal_panics (sched : list label) (st : T) (s : Signal) :
  exec sched init = Some st ->
  at_ st = AtCheck s -> Process_ st = None ->
  exited st = false
  /\ forall st',
       step Handler st = Some st' ->
       at_ st' = Panicked /\ log st' = log st /\ kills (log st') = 0%nat
       /\ notified st' = [SIGINT; SIGTERM; SIGUSR1]
       /\ forall l, step l st' = None.
Proof.
  intros H A P. destruct (reachable_invs sched st H) as [I (_ & _ & He & _)].
  unfold supervisor_inv in I. rewrite A in I. destruct I as (_ & K & N).
  assert (X : exited st = false).
  { destruct (exited st); [|reflexivity]. now contradiction (He eq_refl). }
  split; [exact X|]. intros st' Hs. unfold step in Hs.
  destruct (over st); [discriminate|]. unfold handler in Hs.
  rewrite A, X, P in Hs. injection Hs as <-. unfold goto.
  cbn [at_ log notified]. rewrite app_nil_r.
  repeat split; assumption.
Qed.

Lemma supervisor_early_signal_panics_witness :
  option_map at_ (step Handler early_signal_state) = Some Panicked.
Proof.
  destruct (supervisor_early_signal_panics early_signal early_signal_state SIGINT
              eq_refl eq_refl eq_refl) as [_ F].
  destruct (step Handler early_signal_state) as [st'|] eqn:E; [|discriminate E].
  destruct (F st' eq_refl) as (A & _). cbn [option_map]. now rewrite A.
Defined.

(** X17.  The channel of the signals.  In every run the channel holds at
    most one signal and only subscribed signals were ever relayed to it.  A
    signal delivered while the channel is full is dropped: the content of
    the channel stays.  A signal that is not one of the three subscribed
    ones is never relayed: it keeps its default disposition. *)
Theorem supervisor_channel (sched : list label) (st : T) :
  exec sched init = Some st ->
  (List.length (c st) <= 1)%nat
  /\ forallb qualifying (relayed st) = true
  /\ (forall s x st',
        c st = [x] -> step (Deliver s) st = Some st' -> c st' = [x])
  /\ (forall s st',
        qualifying s = false -> step (Deliver s) st = Some st' ->
        relayed st' = relayed st /\ c st' = c st
        /\ defaulted st' = defaulted st ++ [s]).
Proof.
  intros H. destruct (reachable_invs sched st H) as [I (Hc & Hr & _ & _)].
  split; [exact Hc|]. split; [exact Hr|]. split.
  - intros s x st' C Hs. unfold step in Hs. destruct (over st); [discriminate|].
    injection Hs as <-. unfold deliver.
    destruct (subscribed st s); cbn [c]; rewrite C; reflexivity.
  - intros s st' Q Hs. unfold step in Hs. destruct (over st); [discriminate|].
    injection Hs as <-. unfold deliver.
    assert (S : subscribed st s = false).
    { unfold qualifying, subscribed in *. unfold supervisor_inv in I.
      destruct (at_ st); destruct I as (_ & _ & N); rewrite N;
        first [exact Q | reflexivity]. }
    rewrite S. repeat split.
Qed.

Lemma supervisor_channel_witness :
  relayed (deliver SIGHUP in_kill_state) = relayed in_kill_state
  /\ defaulted (deliver SIGHUP in_kill_state) = [SIGHUP].
Proof.
  destruct (proj2 (proj2 (proj2 (supervisor_channel hanging_kill in_kill_state eq_refl)))
              SIGHUP (deliver SIGHUP in_kill_state) eq_refl eq_refl) as (R & _ & D).
  exact (conj R D).
Defined.

End SupervisorMore.

(** ** [LogFile] and [Main] *)

(** X18.  [LogFile].  When the directory of the logs cannot be made, the
    error comes back as it is and no file is created; when the file cannot
    be created, the error comes back under a context that names the log;
    otherwise the file is [<name>-<time>.log] in the directory of the logs,
    and its path is logged. *)
Theorem LogFile_results (m : MainWorld) (name : string) :
  (forall e, Mkdirs m (Logs m) = Some e ->
     fst (LogFile m name) = Err e
     /\ filter is_OsCreate (snd (LogFile m name)) = [])
  /\ (forall e, Mkdirs m (Logs m) = None ->
        Create m (LogFile_path m name) = Some e ->
        fst (LogFile m name)
        = Err (Errorf ("failed to create " ++ name ++ " log file") e))
  /\ (forall path, fst (LogFile m name) = Ok path ->
        log_file_opened m name path
        /\ In (Ev (Slog LInfo "Logging to file" [("path", VStr path)]))
              (snd (LogFile m name)))
  /\ (Logs m <> "" ->
      LogFile_path m name
      = (Logs m ++ "/" ++ name ++ "-" ++ Now_RFC3339 m ++ ".log")%string).
Proof.
  unfold LogFile, log_file_opened. repeat match goal with |- _ /\ _ => split end.
  - intros e H. rewrite H. split; reflexivity.
  - intros e H1 H2. rewrite H1, H2. reflexivity.
  - intros path H. destruct (Mkdirs m (Logs m)); [discriminate H|].
    destruct (Create m (LogFile_path m name)) eqn:C; [discriminate H|].
    cbn [fst snd] in *. injection H as <-.
    split; [repeat split; exact C|]. right. right. now left.
  - intros H. unfold LogFile_path, filepath_Join.
    cbn [filter]. destruct (String.eqb_spec (Logs m) ""); [contradiction|].
    cbn [negb].
    destruct (String.eqb_spec (name ++ "-" ++ Now_RFC3339 m ++ ".log") "") as [E|_].
    + exfalso. destruct name; discriminate E.
    + reflexivity.
Qed.

Lemma LogFile_results_witness :
  fst (LogFile (sample_MainWorld None None true false None) "Player")
  = Ok "/home/u/.cache/vinegar/logs/Player-2024-05-01T10:00:00Z.log"
  /\ fst (LogFile (sample_MainWorld (Some (ErrNew "mkdir: permission denied")) None
                     true false None) "Player")
     = Err (ErrNew "mkdir: permission denied").
Proof.
  split.
  - reflexivity.
  - exact (proj1 (proj1 (LogFile_results
      (sample_MainWorld (Some (ErrNew "mkdir: permission denied")) None true false None)
      "Player") (ErrNew "mkdir: permission denied") eq_refl)).
Defined.

Lemma LogFile_cases (m : MainWorld) (name : string) :
  (exists e l, LogFile m name = (Err e, l)
               /\ forall x, In x l -> exists y, x = DirsMkdirs y \/ x = OsCreate y)
  \/ (exists path l, LogFile m name = (Ok path, l)
                     /\ log_file_opened m name path).
Proof.
  unfold LogFile, log_file_opened.
  destruct (Mkdirs m (Logs m)) as [e|].
  - left. exists e. eexists. split; [reflexivity|].
    intros x H. in_cases. eexists. now left.
  - destruct (Create m (LogFile_path m name)) as [e|] eqn:C.
    + left. eexists. eexists. split; [reflexivity|].
      intros x H. in_cases; eexists; [left|right]; reflexivity.
    + right. eexists. eexists. split; [reflexivity|]. repeat split. exact C.
Qed.

(** X19.  The exit status of [Main].  It is 0 exactly when the log file of
    Vinegar was opened and [Run] returned no error, and 1 otherwise.  When
    the log file cannot be opened, [Main] does not enter [Run].  When it
    was opened, closing it is the last thing [Main] does. *)
Theorem Main_exit_status (w : World) (m : MainWorld) (args : list string) (st : State) :
  (exit_status (Main w m args st) = 0%Z
   \/ exit_status (Main w m args st) = 1%Z)
  /\ (exit_status (Main w m args st) = 0%Z <->
      (exists path, fst (LogFile m (Type_String w (Type_ (this st)))) = Ok path)
      /\ value_of (Run w args st) = None)
  /\ (forall e, fst (LogFile m (Type_String w (Type_ (this st)))) = Err e ->
        filter is_Ev_run (main_log (Main w m args st)) = []
        /\ state_of_main_unchanged st (Main w m args st))
  /\ (forall path, fst (LogFile m (Type_String w (Type_ (this st)))) = Ok path ->
        exists l, main_log (Main w m args st) = l ++ [FileClose path]).
Proof.
  unfold Main, exit_status, main_log, state_of_main_unchanged, value_of.
  destruct (LogFile_cases m (Type_String w (Type_ (this st))))
    as [(e & l & -> & Hl) | (path & l & -> & _)]; cbn [fst snd].
  - repeat match goal with |- _ /\ _ => split end.
    + now right.
    + split; [discriminate|]. intros [[p H] _]. discriminate H.
    + intros e' _. split; [|reflexivity].
      rewrite filter_app. cbn [filter is_Ev_run app]. rewrite app_nil_r.
      clear -Hl. induction l as [|x l IH]; [reflexivity|].
      destruct (Hl x (or_introl eq_refl)) as [y [-> | ->]]; cbn [filter is_Ev_run];
        apply IH; intros z Hz; apply Hl; now right.
    + intros p H. discriminate H.
  - destruct (Run w args st) as [[err st'] lr]. cbn [fst snd].
    destruct err as [e|]; cbn [fst snd];
      repeat match goal with |- _ /\ _ => split end.
    + now right.
    + split; [discriminate|]. intros [_ H]. discriminate H.
    + intros e' H. discriminate H.
    + intros p H. injection H as <-. eexists. rewrite !app_assoc. reflexivity.
    + now left.
    + split; [|reflexivity]. intros _. split; [now exists path|reflexivity].
    + intros e' H. discriminate H.
    + intros p H. injection H as <-. eexists. reflexivity.
Qed.

Lemma Main_exit_status_witness :
  exit_status (Main (run_World None (Some (Exited 0)))
                 (sample_MainWorld None None true false None) []
                 (sample_State Player "")) = 0%Z
  /\ filter is_Ev_run
       (main_log (Main (run_World None (Some (Exited 0)))
                    (sample_MainWorld None (Some (ErrNew "create: read-only file system"))
                       true false None) []
                    (sample_State Player ""))) = [].
Proof.
  split.
  - apply (proj2 (proj1 (proj2 (Main_exit_status (run_World None (Some (Exited 0)))
                                  (sample_MainWorld None None true false None) []
                                  (sample_State Player ""))))).
    split; [|reflexivity].
    exists "/home/u/.cache/vinegar/logs/Player-2024-05-01T10:00:00Z.log". reflexivity.
  - exact (proj1 (proj1 (proj2 (proj2 (Main_exit_status (run_World None (Some (Exited 0)))
             (sample_MainWorld None (Some (ErrNew "create: read-only file system"))
                true false None) []
             (sample_State Player ""))))
             (Errorf "failed to create Player log file"
                (ErrNew "create: read-only file system")) eq_refl)).
Defined.

Lemma Execute_no_dialog (w : World) (args : list string) (st : State) :
  filter is_dialog (log_of (Execute w args st)) = [].
Proof.
  rewrite Execute_log, !filter_app.
  assert (B : forall s, filter is_dialog (log_of (Execute_body w args s)) = []).
  { intros s. unfold Execute_body. run_monad.
    destruct (MultipleInstances (GlobalConfig (this s)) && is_Player (Type_ (this s)));
      [destruct (Mutexer_Start w)|]; cbn [fst snd]; try reflexivity;
      (destruct (Command w (this s) args); [|reflexivity]);
      (destruct (Run_err w); [|reflexivity]);
      destruct (ExitCode (ProcessState w) =? -1)%Z; reflexivity. }
  rewrite B. unfold connect_events.
  destruct (DiscordRPC (Config_ (this st))); [destruct (Activity_Connect w)|];
    destruct (connected w (this st)); reflexivity.
Qed.

Lemma Init_dialog (w : World) (st : State) (msg : string) (user : bool) :
  In (SplashDialog msg user) (log_of (Init w st)) -> msg = DialogNoAVX.
Proof.
  destruct (first_run w) eqn:F.
  - rewrite (Init_first_log w st F). unfold avx_warning, sandbox_init.
    intros H.
    destruct (_ && _); destruct (Type_ (this st));
      destruct (sandbox_init_result w _); in_cases;
      try (injection E as <- _; reflexivity).
  - rewrite (Init_warm w st F). unfold log_of. intros H. in_cases.
Qed.

(** The only dialog of [Run] is the warning about AVX. *)
Lemma Run_dialog (w : World) (args : list string) (st : State)
    (msg : string) (user : bool) :
  In (SplashDialog msg user) (log_of (Run w args st)) -> msg = DialogNoAVX.
Proof.
  destruct (value_of (Init w st)) as [ei|] eqn:HI.
  - rewrite (Run_init_failure w args st ei HI). unfold log_of at 1. cbn [snd].
    apply Init_dialog.
  - rewrite (Run_after_Init w args st HI). cbn zeta.
    destruct (snd (Setup w (this (state_of (Init w st))))) as [es|];
      unfold log_of at 1; cbn [snd]; intros H;
      apply in_app_or in H; destruct H as [H|H];
      try (now apply (Init_dialog w st msg user)).
    + in_cases.
    + cbn [app] in H. destruct H as [H|[H|H]]; try discriminate H.
      exfalso.
      assert (X : In (SplashDialog msg user)
                    (filter is_dialog (log_of (Execute w args
                       (with_this (fst (Setup w (this (state_of (Init w st)))))
                          (state_of (Init w st))))))).
      { apply filter_In. now split. }
      rewrite Execute_no_dialog in X. destruct X.
Qed.

(** X20.  The failure dialog of [Main].  When [Run] fails, [Main] logs the
    error; and it shows the dialog that carries the error, after setting
    the path of the log on the splash, exactly when the splash is enabled
    and the standard error is not a terminal. *)
Theorem Main_failure_dialog
    (w : World) (m : MainWorld) (args : list string) (st : State)
    (path : string) (e : error) :
  fst (LogFile m (Type_String w (Type_ (this st)))) = Ok path ->
  value_of (Run w args st) = Some e ->
  In (Ev (Slog LError (Error e) [])) (main_log (Main w m args st))
  /\ (In (Ev (SplashDialog (DialogFailure e) false)) (main_log (Main w m args st)) <->
      Splash_Enabled m = true /\ IsTerminal m = false)
  /\ (In (SplashSetLogPath path) (main_log (Main w m args st)) <->
      Splash_Enabled m = true /\ IsTerminal m = false).
Proof.
  intros HL HR.
  pose proof (Run_dialog w args st (DialogFailure e) false) as RD.
  unfold Main, main_log. unfold value_of, log_of in *.
  destruct (LogFile_cases m (Type_String w (Type_ (this st))))
    as [(e' & l & El & _) | (p & l & El & _)];
    rewrite El in *; cbn [fst snd] in *; [discriminate HL|].
  injection HL as ->.
  assert (Hl : ~ In (Ev (SplashDialog (DialogFailure e) false)) l
               /\ ~ In (SplashSetLogPath path) l).
  { unfold LogFile in El. destruct (Mkdirs m (Logs m)); [discriminate El|].
    destruct (Create m _); [discriminate El|]. injection El as _ <-.
    split; intros H; in_cases. }
  destruct Hl as [LD LP].
  destruct (Run w args st) as [[err st'] lr]. cbn [fst snd] in *. subst err.
  cbn [fst snd].
  assert (NoD : ~ In (Ev (SplashDialog (DialogFailure e) false)) (map Ev lr)).
  { intros H. apply in_map_iff in H. destruct H as (x & Hx & Hin).
    injection Hx as ->. specialize (RD Hin). discriminate RD. }
  assert (NoP : ~ In (SplashSetLogPath path) (map Ev lr)).
  { intros H. apply in_map_iff in H. destruct H as (x & Hx & _). discriminate Hx. }
  split; [|split].
  - apply in_or_app. right. apply in_or_app. left. now left.
  - split.
    + intros H. destruct (Splash_Enabled m); destruct (IsTerminal m);
        cbn [andb negb] in H; try (split; reflexivity); exfalso;
        repeat (apply in_app_or in H; destruct H as [H|H]);
        try (now apply NoD); try (now apply LD);
        in_cases.
    + intros [-> ->]. cbn [andb negb].
      apply in_or_app. right. apply in_or_app. right. apply in_or_app. left.
      right. right. now left.
  - split.
    + intros H. destruct (Splash_Enabled m); destruct (IsTerminal m);
        cbn [andb negb] in H; try (split; reflexivity); exfalso;
        repeat (apply in_app_or in H; destruct H as [H|H]);
        try (now apply NoP); try (now apply LP);
        in_cases.
    + intros [-> ->]. cbn [andb negb].
      apply in_or_app. right. apply in_or_app. right. apply in_or_app. left.
      now left.
Qed.

Lemma Main_failure_dialog_witness :
  In (Ev (SplashDialog (DialogFailure (Errorf "failed to setup roblox"
                                         (ErrNew "fetch deployment: timeout"))) false))
     (main_log (Main setup_failure_World (sample_MainWorld None None true false None)
                  ["-app"] (sample_State Player ""))).
Proof.
  apply (proj2 (proj1 (proj2 (Main_failure_dialog setup_failure_World
                                (sample_MainWorld None None true false None)
                                ["-app"] (sample_State Player "")
                                "/home/u/.cache/vinegar/logs/Player-2024-05-01T10:00:00Z.log"
                                (Errorf "failed to setup roblox"
                                   (ErrNew "fetch deployment: timeout"))
                                eq_refl eq_refl)))).
  split; reflexivity.
Defined.

(** ** The first launcher: [main] and [launch] *)

Module LauncherFacts.
Import Launcher.

Lemma Execs_shape (e : Env) (calls : list (string * list string)) :
  forall x, In x (fst (Execs e calls)) -> is_Exec x = true.
Proof.
  induction calls as [|[prog args] rest IH]; cbn [Execs]; intros x H.
  - destruct H.
  - destruct (Exec_returns e prog args).
    + destruct (Execs e rest) as [l ok]. cbn [fst] in *.
      destruct H as [<-|H]; [reflexivity|now apply IH].
    + cbn [fst] in H. destruct H as [<-|[]]. reflexivity.
Qed.

(** [launch] always enters through the three calls into util. *)
Lemma launch_enters (e : Env) (args : list string) :
  exists l, fst (launch e args) = [InitDirs; InitEnvironment; CheckExecutables] ++ l.
Proof.
  unfold launch.
  match goal with |- context [let (l, ok) := ?x in _] => destruct x as [l ok] end.
  now exists l.
Qed.

Lemma launch_launched (e : Env) (a : list string) : launched (fst (launch e a)).
Proof. destruct (launch_enters e a) as [l ->]. now left. Qed.

Lemma launch_no_exit (e : Env) (a : list string) (code : Z) :
  ~ In (Exit code) (fst (launch e a)).
Proof.
  unfold launch.
  match goal with |- context [let (l, ok) := ?x in _] =>
    assert (X : forall y, In y (fst x) -> is_Exec y = true \/ y = ResetPrefix
                                          \/ exists t, y = LogPrintln t);
    [|destruct x as [l ok]] end.
  { destruct a as [|x [|y [|z r]]]; try (intros ? []).
    - destruct (String.eqb x "app"); [intros ? H; left; now apply Execs_shape in H|].
      destruct (String.eqb x "reset").
      { intros ? H. cbn [fst] in H. destruct H as [<-|[<-|[]]];
          [right; now left|right; right; eexists; reflexivity]. }
      destruct (String.eqb x "studio"); [intros ? H; left; now apply Execs_shape in H|].
      intros ? [].
    - destruct (String.eqb x "player"); [intros ? H; left; now apply Execs_shape in H|].
      destruct (String.eqb x "studio"); [intros ? H; left; now apply Execs_shape in H|].
      intros ? []. }
  cbn [fst] in *. intros H. cbn [app] in H.
  destruct H as [H|[H|[H|H]]]; try discriminate H.
  destruct (X _ H) as [K|[K|[t K]]]; discriminate K.
Qed.

Lemma launch_acts (e : Env) (a : list string) :
  accepted a ->
  exists x, In x (fst (launch e a)) /\ (is_Exec x = true \/ x = ResetPrefix).
Proof.
  intros [->|[->|[->|[[arg ->]|[arg ->]]]]]; unfold launch;
    cbn [String.eqb Ascii.eqb Bool.eqb Execs];
    repeat match goal with
           | |- context [Exec_returns e ?p ?q] => destruct (Exec_returns e p q)
           end; cbn [fst app];
    eexists; (split; [right; right; right; left; reflexivity|]);
    first [left; reflexivity | right; reflexivity].
Qed.

Lemma main_launched_iff (e : Env) (args : list string) :
  launched (main e args) <-> accepted args.
Proof.
  unfold main, launched.
  destruct args as [|a [|arg [|z r]]].
  - split; [intros H; in_cases|not_accepted].
  - destruct (String.eqb_spec a "app") as [->|Na].
    { split; [intros _; now left|intros _; right; apply launch_launched]. }
    destruct (String.eqb_spec a "player") as [->|Np].
    { split; [intros H; in_cases|not_accepted]. }
    destruct (String.eqb_spec a "reset") as [->|Nr].
    { split; [intros _; right; now left|intros _; right; apply launch_launched]. }
    destruct (String.eqb_spec a "studio") as [->|Ns].
    { split; [intros _; right; right; now left|intros _; right; apply launch_launched]. }
    split; [intros H; in_cases|not_accepted].
  - destruct (String.eqb_spec a "studio") as [->|Ns]; cbn [orb].
    { split; [intros _; right; right; right; left; now exists arg
             |intros _; right; apply launch_launched]. }
    destruct (String.eqb_spec a "player") as [->|Np].
    { split; [intros _; right; right; right; right; now exists arg
             |intros _; right; apply launch_launched]. }
    destruct (String.eqb a "app"); (split; [intros H; in_cases|not_accepted]).
  - split; [intros H; in_cases|not_accepted].
Qed.

Lemma main_exit_iff (e : Env) (args : list string) (code : Z) :
  In (Exit code) (main e args) <-> args = ["player"] /\ code = 2%Z.
Proof.
  assert (NL : forall s a, ~ In (Exit code) (Println s :: fst (launch e a))).
  { intros s a [H|H]; [discriminate H|now apply launch_no_exit in H]. }
  unfold main.
  destruct args as [|a [|arg [|z r]]].
  - split; [intros H; in_cases|intros [H _]; discriminate H].
  - destruct (String.eqb_spec a "app") as [->|Na].
    { split; [intros H; now apply NL in H|intros [H _]; discriminate H]. }
    destruct (String.eqb_spec a "player") as [->|Np].
    { split.
      - intros [H|[H|[]]]; [discriminate H|]. injection H as <-. now split.
      - intros [_ ->]. right. now left. }
    destruct (String.eqb_spec a "reset") as [->|Nr].
    { split; [intros H; now apply NL in H|intros [H _]; discriminate H]. }
    destruct (String.eqb_spec a "studio") as [->|Ns].
    { split; [intros H; now apply NL in H|intros [H _]; discriminate H]. }
    split; [intros H; in_cases|intros [H _]; injection H as ->; contradiction].
  - destruct (String.eqb a "studio" || String.eqb a "player").
    { split; [intros H; now apply NL in H|intros [H _]; discriminate H]. }
    destruct (String.eqb a "app");
      (split; [intros H; in_cases|intros [H _]; discriminate H]).
  - split; [intros [] |intros [H _]; discriminate H].
Qed.

(** X22.  The modes of [main].  It enters [launch] exactly for the modes
    app, reset and studio alone and for studio and player with a launch
    string, and then a process is run or the prefix is reset; otherwise
    nothing is launched.  It exits, with status 2, exactly for player
    without a launch string.  With more than two arguments it does nothing
    at all. *)
Theorem main_modes (e : Env) (args : list string) :
  (launched (main e args) <-> accepted args)
  /\ (accepted args ->
      exists a, In a (main e args) /\ (is_Exec a = true \/ a = ResetPrefix))
  /\ (forall code, In (Exit code) (main e args) <-> args = ["player"] /\ code = 2%Z)
  /\ ((2 < List.length args)%nat -> main e args = []).
Proof.
  split; [apply main_launched_iff|]. split; [|split; [intros code; apply main_exit_iff|]].
  - intros A. destruct (launch_acts e args A) as (x & Hx & Hk).
    exists x. split; [|exact Hk].
    destruct A as [->|[->|[->|[[arg ->]|[arg ->]]]]]; right; exact Hx.
  - intros H. destruct args as [|a [|arg [|z r]]]; cbn in H; try lia. reflexivity.
Qed.

Lemma main_modes_witness :
  exists a, In a (main (sample_Env true) ["player"; "roblox-player:1+launchmode:play"])
            /\ (is_Exec a = true \/ a = ResetPrefix).
Proof.
  apply (proj1 (proj2 (main_modes (sample_Env true)
                         ["player"; "roblox-player:1+launchmode:play"]))).
  right. right. right. right. now exists "roblox-player:1+launchmode:play".
Defined.

(** X23.  The processes of [launch].  It runs at most two processes.  When
    it runs two, the mode is app or player, the first has come back, and
    the second is the FPS unlocker; studio and reset never start the FPS
    unlocker as a second process.  When a process does not come back,
    running it is the last thing [launch] has done. *)
Theorem launch_processes (e : Env) (args : list string) :
  (List.length (filter is_Exec (fst (launch e args))) <= 2)%nat
  /\ (forall c1 c2,
        filter is_Exec (fst (launch e args)) = [c1; c2] ->
        c2 = fpsunlocker e
        /\ (args = ["app"] \/ exists arg, args = ["player"; arg])
        /\ exists prog a, c1 = ExecCall prog a /\ Exec_returns e prog a = true)
  /\ (snd (launch e args) = false ->
      exists prog a,
        last (fst (launch e args)) InitDirs = ExecCall prog a
        /\ Exec_returns e prog a = false).
Proof.
  split; [|split].
  - launch_cases e args; cbn [List.length]; lia.
  - launch_cases e args; intros c1 c2 H; try discriminate H;
      injection H as <- <-;
      (split; [reflexivity|split; [first [now left | right; eexists; reflexivity]|]]);
      eexists; eexists; (split; [reflexivity|eassumption]).
  - launch_cases e args; intros H; try discriminate H;
      eexists; eexists; (split; [reflexivity|eassumption]).
Qed.

Lemma launch_processes_witness :
  exists prog a,
    last (fst (launch (sample_Env false) ["app"])) InitDirs = ExecCall prog a
    /\ Exec_returns (sample_Env false) prog a = false.
Proof.
  exact (proj2 (proj2 (launch_processes (sample_Env false) ["app"])) eq_refl).
Defined.

End LauncherFacts.
